(** * MMapManager: the navigation-mesh tile cache of MoveMap.cpp

    A shallow embedding of [MMAP::MMapManager]
    (src/game/MotionGenerators/MoveMap.cpp) and the properties of its
    key packing, tile life cycle and bookkeeping.

    Integers are modelled as [Z] with the wrap-around of the C++ type
    written out; the hash maps of the manager are [gmap]s; the Detour
    navigation engine and the files on disk are an interface the
    manager is parameterised over. *)

From Stdlib Require Import ZArith Lia Ascii.
From stdpp Require Import gmap list fin_maps.

Local Open Scope Z_scope.

(** ** Fixed-width integers *)

(** Conversion to [uint32] / [uint64]: reduction modulo the width. *)
Definition to_uint32 (z : Z) : Z := z mod 2 ^ 32.
Definition to_uint64 (z : Z) : Z := z mod 2 ^ 64.

(** Conversion to [int32]: two's complement wrap-around. *)
Definition to_int32 (z : Z) : Z := (z + 2 ^ 31) mod 2 ^ 32 - 2 ^ 31.

Definition in_uint32 (z : Z) : Prop := 0 <= z < 2 ^ 32.
Definition in_uint16 (z : Z) : Prop := 0 <= z < 2 ^ 16.

(** ** Key packing (MoveMap.cpp, lines 181-189) *)

(** [uint32 packTileID(int32 x, int32 y) { return uint32(x << 16 | y); }]
    The shift and the or are done on [int32]. *)
Definition packTileID (x y : Z) : Z :=
  to_uint32 (Z.lor (to_int32 (Z.shiftl x 16)) y).

(** [uint64 packInstanceId(uint32 mapId, uint32 instanceId)
      { return (uint64(mapId) << 32) | instanceId; }] *)
Definition packInstanceId (mapId instanceId : Z) : Z :=
  Z.lor (to_uint64 (Z.shiftl (to_uint64 mapId) 32)) instanceId.

(** The coordinates [unloadMap(mapId)] reads back from a packed tile key
    (lines 425-426): [x = first >> 16], [y = first & 0x0000FFFF]. *)
Definition tileX (packedGridPos : Z) : Z := Z.shiftr packedGridPos 16.
Definition tileY (packedGridPos : Z) : Z := Z.land packedGridPos 65535.

(** ** The Detour navigation engine (external library)

    The engine operations the manager calls. A mesh or a query is a value
    of an abstract type; an operation that mutates the mesh returns the
    mesh after the call next to its [dtStatus], an unsigned 32-bit word
    that [dtStatusFailed] tests. A [dtTileRef] is an unsigned integer. *)
Class Detour : Type := {
  dtNavMeshParams : Type;
  dtNavMesh : Type;
  dtNavMeshQuery : Type;
  dtStatusFailed : Z -> bool;
  (** [mesh->init(&params)] on a mesh fresh from [dtAllocNavMesh] *)
  dtNavMesh_init : dtNavMeshParams -> Z * dtNavMesh;
  (** [mesh->init(data, dataSize, DT_TILE_FREE_DATA)] on a fresh mesh *)
  dtNavMesh_initSingle : list Byte.byte -> Z -> Z * dtNavMesh;
  (** [navMesh->addTile(data, dataSize, DT_TILE_FREE_DATA, 0, &tileRef)]:
      status, the tile reference written to [tileRef], the mesh after *)
  addTile : dtNavMesh -> list Byte.byte -> Z -> Z * Z * dtNavMesh;
  (** [navMesh->removeTile(tileRef, nullptr, nullptr)] *)
  removeTile : dtNavMesh -> Z -> Z * dtNavMesh;
  (** [query->init(navMesh, maxNodes)] on a query fresh from
      [dtAllocNavMeshQuery] *)
  dtNavMeshQuery_init : dtNavMesh -> Z -> Z * dtNavMeshQuery
}.

(** ** Files *)

(** Modelled from the spec: [struct MmapTileHeader] is declared in
    MoveMapSharedDefines.h, which is not among the sources. The header
    holds a magic number, a format version and the payload size in bytes,
    the fields [mmapMagic], [mmapVersion] and [size] that MoveMap.cpp
    reads; [payloadSize] is the field [size]. *)
Record MmapTileHeader : Type := {
  mmapMagic : Z;
  mmapVersion : Z;
  payloadSize : Z
}.

(** A tile file as [fread] sees it: what the first [fread] leaves in
    [fileHeader], and the bytes that follow. *)
Record MmtileFile : Type := {
  fileHeader : MmapTileHeader;
  payload : list Byte.byte
}.

(** [fread(data, size, 1, file)]: one item of [size] bytes is read when
    that many bytes are left in the file; a zero [size] reads no item. *)
Definition fread_data (f : MmtileFile) (size : Z) : option (list Byte.byte) :=
  if (0 <? size) && (size <=? Z.of_nat (length (payload f)))
  then Some (take (Z.to_nat size) (payload f))
  else None.

(** The three kinds of path that MoveMap.cpp builds with [sprintf]. *)
Inductive FileName : Type :=
  | MmapFile (mapId : Z)               (* mmaps/%03i.mmap *)
  | TileFile (mapId x y number : Z)    (* mmaps/%03u%02i%02i[_%02i].mmtile *)
  | ModelFile (displayId : Z).         (* mmaps/go%04i.mmtile *)

(** What the manager observes of the world during one call. *)
Inductive Event : Type :=
  | EvFopen (name : FileName)
  | EvFreadParams                 (* fread(&params, sizeof(dtNavMeshParams), 1, file) *)
  | EvFreadHeader                 (* fread(&fileHeader, sizeof(MmapTileHeader), 1, file) *)
  | EvDtAlloc (size : Z)          (* dtAlloc(fileHeader.size, DT_ALLOC_PERM) *)
  | EvFreadData (size : Z)        (* fread(data, fileHeader.size, 1, file) *)
  | EvFclose
  | EvAddTile (dataSize : Z)      (* navMesh->addTile(data, fileHeader.size, ...) *)
  | EvInitMesh (dataSize : Z)     (* mesh->init(data, fileHeader.size, ...) *)
  | EvDtFree                      (* dtFree(data) *)
  | EvFreeNavMesh                 (* dtFreeNavMesh *)
  | EvFreeNavMeshQuery            (* dtFreeNavMeshQuery *)
  | EvDeleteMMapData              (* delete mmap *)
  | EvLock                        (* std::lock_guard on m_modelsMutex *)
  | EvUnlock
  | EvOutError.                   (* sLog.outError *)

(** An event that uses the size field of a tile header. *)
Definition uses_size (e : Event) : bool :=
  match e with
  | EvDtAlloc _ | EvFreadData _ | EvAddTile _ | EvInitMesh _ => true
  | _ => false
  end.

Section Manager.

Context `{Engine : Detour}.

(** The environment of one call: the files found under the data path
    (by map, by map, tile and tile number, by model), whether the
    allocations of the call succeed, the configuration flag
    [CONFIG_BOOL_MMAP_ENABLED] and the set [g_mmapDisabledIds]. *)
Record World : Type := {
  mmapFile : Z -> option dtNavMeshParams;
  tileFile : Z -> Z -> Z -> Z -> option MmtileFile;
  modelFile : Z -> option MmtileFile;
  dtAllocNavMesh_ok : bool;
  dtAlloc_ok : Z -> bool;
  dtAllocNavMeshQuery_ok : bool;
  CONFIG_BOOL_MMAP_ENABLED : bool;
  g_mmapDisabledIds : gset Z
}.

(** [bool MMapFactory::IsPathfindingEnabled(uint32 mapId, const Unit* unit
    = nullptr)], called without a unit. *)
Definition IsPathfindingEnabled (w : World) (mapId : Z) : bool :=
  if negb (CONFIG_BOOL_MMAP_ENABLED w) then false
  else bool_decide (mapId ∉ g_mmapDisabledIds w).

(** ** State of the manager *)

(** Modelled from the spec: [struct MMapData], [struct MMapGOData] and the
    members of [class MMapManager] are declared in MoveMap.h, which is not
    among the sources. An entry owns one mesh, maps a packed tile
    coordinate to the tile reference the engine issued, and maps an
    instance to its query; a model entry owns one mesh and maps a thread
    to its query. The fields are the ones MoveMap.cpp uses; the hash maps
    are [gmap]s. *)
Record MMapData : Type := {
  navMesh : dtNavMesh;
  navMeshQueries : gmap Z dtNavMeshQuery;
  mmapLoadedTiles : gmap Z Z
}.

(** [struct MMapGOData]; [goNavMesh] is its field [navMesh]. *)
Record MMapGOData : Type := {
  goNavMesh : dtNavMesh;
  navMeshGOQueries : gmap Z dtNavMeshQuery
}.

Record MMapManager : Type := {
  m_loadedMMaps : gmap Z MMapData;
  m_loadedModels : gmap Z MMapGOData;
  m_loadedTiles : Z
}.

(** Modelled from the spec: the constructor [MMapManager()] is declared in
    MoveMap.h, which is not among the sources. A new manager has no mesh
    entry, no model, and a loaded-tile counter of zero. *)
Definition MMapManager_new : MMapManager :=
  {| m_loadedMMaps := ∅; m_loadedModels := ∅; m_loadedTiles := 0 |}.

Definition set_loadedMMaps (f : gmap Z MMapData -> gmap Z MMapData)
    (s : MMapManager) : MMapManager :=
  {| m_loadedMMaps := f (m_loadedMMaps s);
     m_loadedModels := m_loadedModels s;
     m_loadedTiles := m_loadedTiles s |}.

Definition set_loadedModels (f : gmap Z MMapGOData -> gmap Z MMapGOData)
    (s : MMapManager) : MMapManager :=
  {| m_loadedMMaps := m_loadedMMaps s;
     m_loadedModels := f (m_loadedModels s);
     m_loadedTiles := m_loadedTiles s |}.

Definition set_loadedTiles (f : Z -> Z) (s : MMapManager) : MMapManager :=
  {| m_loadedMMaps := m_loadedMMaps s;
     m_loadedModels := m_loadedModels s;
     m_loadedTiles := f (m_loadedTiles s) |}.

Definition set_navMesh (mesh : dtNavMesh) (d : MMapData) : MMapData :=
  {| navMesh := mesh;
     navMeshQueries := navMeshQueries d;
     mmapLoadedTiles := mmapLoadedTiles d |}.

Definition set_navMeshQueries
    (f : gmap Z dtNavMeshQuery -> gmap Z dtNavMeshQuery) (d : MMapData) : MMapData :=
  {| navMesh := navMesh d;
     navMeshQueries := f (navMeshQueries d);
     mmapLoadedTiles := mmapLoadedTiles d |}.

Definition set_mmapLoadedTiles (f : gmap Z Z -> gmap Z Z) (d : MMapData) : MMapData :=
  {| navMesh := navMesh d;
     navMeshQueries := navMeshQueries d;
     mmapLoadedTiles := f (mmapLoadedTiles d) |}.

Definition set_navMeshGOQueries
    (f : gmap Z dtNavMeshQuery -> gmap Z dtNavMeshQuery) (d : MMapGOData) : MMapGOData :=
  {| goNavMesh := goNavMesh d;
     navMeshGOQueries := f (navMeshGOQueries d) |}.

(** [std::unordered_map::insert] / [emplace]: an existing key keeps its
    value. *)
Definition emplace {V : Type} (k : Z) (v : V) (m : gmap Z V) : gmap Z V :=
  match m !! k with
  | Some _ => m
  | None => <[k := v]> m
  end.

(** ** The monad of a call

    A call runs on the manager, emits events, and either returns a value
    and the manager after the call, or stops at a failed [MANGOS_ASSERT]. *)

Inductive Result (A : Type) : Type :=
  | Returns (v : A) (s : MMapManager)
  | AssertFailed.
Global Arguments Returns {A} v s.
Global Arguments AssertFailed {A}.

Definition M (A : Type) : Type := MMapManager -> list Event * Result A.

Definition ret {A : Type} (v : A) : M A := fun s => ([], Returns v s).

Definition bind {A B : Type} (m : M A) (k : A -> M B) : M B :=
  fun s =>
    match m s with
    | (t, Returns v s') => let '(t', r) := k v s' in (t ++ t', r)
    | (t, AssertFailed) => (t, AssertFailed)
    end.

Definition get : M MMapManager := fun s => ([], Returns s s).
Definition modify (f : MMapManager -> MMapManager) : M unit :=
  fun s => ([], Returns tt (f s)).
Definition emit (e : Event) : M unit := fun s => ([e], Returns tt s).

(** Modelled from the spec: the macro [MANGOS_ASSERT] is defined in a header
    that is not among the sources. A failed assertion is fatal: the
    process stops, and the call does not return. *)
Definition MANGOS_ASSERT (cond : bool) : M unit :=
  fun s => if cond then ([], Returns tt s) else ([], AssertFailed).

Definition events {A : Type} (o : list Event * Result A) : list Event := fst o.
Definition result {A : Type} (o : list Event * Result A) : Result A := snd o.

End Manager.

Notation "x <- m ;; k" := (bind m (fun x => k))
  (at level 100, m at next level, right associativity, only parsing).
Notation "m ;;; k" := (bind m (fun _ => k))
  (at level 100, right associativity, only parsing).

(** ** The operations of [MMapManager] *)

Section Operations.

Context `{Engine : Detour}.

(** [MMAP_MAGIC] and [MMAP_VERSION] (MoveMapSharedDefines.h). *)
Variable MMAP_MAGIC : Z.
Variable MMAP_VERSION : Z.

(** [bool MMapManager::loadMapData(uint32 mapId, uint32 instanceId)] *)
Definition loadMapData (w : World) (mapId instanceId : Z) : M bool :=
  s <- get ;;
  match m_loadedMMaps s !! packInstanceId mapId instanceId with
  | Some _ => ret true
  | None =>
      emit (EvFopen (MmapFile mapId)) ;;;
      match mmapFile w mapId with
      | None =>
          (if IsPathfindingEnabled w mapId then emit EvOutError else ret tt) ;;;
          ret false
      | Some params =>
          emit EvFreadParams ;;;
          emit EvFclose ;;;
          MANGOS_ASSERT (dtAllocNavMesh_ok w) ;;;
          let '(dtResult, mesh) := dtNavMesh_init params in
          if dtStatusFailed dtResult then
            emit EvFreeNavMesh ;;;
            emit EvOutError ;;;
            ret false
          else
            let mmap_data :=
              {| navMesh := mesh; navMeshQueries := ∅; mmapLoadedTiles := ∅ |} in
            modify (set_loadedMMaps
                      (emplace (packInstanceId mapId instanceId) mmap_data)) ;;;
            ret true
      end
  end.

(** [bool MMapManager::IsMMapTileLoaded(uint32 mapId, uint32 instanceId,
    uint32 x, uint32 y) const]; [x] and [y] are converted to [int32] for
    [packTileID]. *)
Definition IsMMapTileLoaded (s : MMapManager) (mapId instanceId x y : Z) : bool :=
  match m_loadedMMaps s !! packInstanceId mapId instanceId with
  | None => false
  | Some mmap =>
      let packedGridPos := packTileID (to_int32 x) (to_int32 y) in
      match mmapLoadedTiles mmap !! packedGridPos with
      | Some _ => true
      | None => false
      end
  end.

(** [bool MMapManager::loadMap(uint32 mapId, uint32 instanceId, int32 x,
    int32 y, uint32 number)] *)
Definition loadMap (w : World) (mapId instanceId x y number : Z) : M bool :=
  loaded <- loadMapData w mapId instanceId ;;
  if negb loaded then ret false else
  s <- get ;;
  match m_loadedMMaps s !! packInstanceId mapId instanceId with
  | None =>
      (* [operator[]] would add a null entry, dereferenced by the assertion *)
      MANGOS_ASSERT false ;;; ret false
  | Some mmap =>
      let packedGridPos := packTileID x y in
      match mmapLoadedTiles mmap !! packedGridPos with
      | Some _ => emit EvOutError ;;; ret false
      | None =>
          emit (EvFopen (TileFile mapId x y number)) ;;;
          match tileFile w mapId x y number with
          | None => ret false
          | Some file =>
              emit EvFreadHeader ;;;
              let hdr := fileHeader file in
              if negb (mmapMagic hdr =? MMAP_MAGIC) then
                emit EvOutError ;;; emit EvFclose ;;; ret false
              else if negb (mmapVersion hdr =? MMAP_VERSION) then
                emit EvOutError ;;; emit EvFclose ;;; ret false
              else
                emit (EvDtAlloc (payloadSize hdr)) ;;;
                MANGOS_ASSERT (dtAlloc_ok w (payloadSize hdr)) ;;;
                emit (EvFreadData (payloadSize hdr)) ;;;
                match fread_data file (payloadSize hdr) with
                | None => emit EvOutError ;;; emit EvFclose ;;; ret false
                | Some data =>
                    emit EvFclose ;;;
                    emit (EvAddTile (to_int32 (payloadSize hdr))) ;;;
                    let '(dtResult, tileRef, mesh) :=
                      addTile (navMesh mmap) data (to_int32 (payloadSize hdr)) in
                    modify (set_loadedMMaps
                              (insert (packInstanceId mapId instanceId)
                                      (set_navMesh mesh mmap))) ;;;
                    if dtStatusFailed dtResult then
                      emit EvOutError ;;; emit EvDtFree ;;; ret false
                    else
                      modify (set_loadedMMaps
                                (insert (packInstanceId mapId instanceId)
                                   (set_mmapLoadedTiles
                                      (emplace packedGridPos tileRef)
                                      (set_navMesh mesh mmap)))) ;;;
                      modify (set_loadedTiles (fun n => to_uint32 (n + 1))) ;;;
                      ret true
                end
          end
      end
  end.

(** [bool MMapManager::loadGameObject(uint32 displayId)] *)
Definition loadGameObject (w : World) (displayId : Z) : M bool :=
  s <- get ;;
  match m_loadedModels s !! displayId with
  | Some _ => ret true
  | None =>
      emit (EvFopen (ModelFile displayId)) ;;;
      match modelFile w displayId with
      | None => ret false
      | Some file =>
          emit EvFreadHeader ;;;
          let hdr := fileHeader file in
          if negb (mmapMagic hdr =? MMAP_MAGIC) then
            emit EvOutError ;;; emit EvFclose ;;; ret false
          else if negb (mmapVersion hdr =? MMAP_VERSION) then
            emit EvOutError ;;; emit EvFclose ;;; ret false
          else
            emit (EvDtAlloc (payloadSize hdr)) ;;;
            MANGOS_ASSERT (dtAlloc_ok w (payloadSize hdr)) ;;;
            emit (EvFreadData (payloadSize hdr)) ;;;
            match fread_data file (payloadSize hdr) with
            | None => emit EvOutError ;;; emit EvFclose ;;; ret false
            | Some data =>
                emit EvFclose ;;;
                MANGOS_ASSERT (dtAllocNavMesh_ok w) ;;;
                emit (EvInitMesh (to_int32 (payloadSize hdr))) ;;;
                let '(r, mesh) :=
                  dtNavMesh_initSingle data (to_int32 (payloadSize hdr)) in
                if dtStatusFailed r then
                  emit EvFreeNavMesh ;;; emit EvOutError ;;; ret false
                else
                  let mmap_data :=
                    {| goNavMesh := mesh; navMeshGOQueries := ∅ |} in
                  modify (set_loadedModels (emplace displayId mmap_data)) ;;;
                  ret true
            end
      end
  end.

(** [void MMapManager::loadAllGameObjectModels(std::vector<uint32> const&)] *)
Fixpoint loadAllGameObjectModels (w : World) (displayIds : list Z) : M unit :=
  match displayIds with
  | [] => ret tt
  | displayId :: rest =>
      loadGameObject w displayId ;;; loadAllGameObjectModels w rest
  end.

(** [bool MMapManager::unloadMap(uint32 mapId, uint32 instanceId, int32 x,
    int32 y)] *)
Definition unloadMap (mapId instanceId x y : Z) : M bool :=
  s <- get ;;
  match m_loadedMMaps s !! packInstanceId mapId instanceId with
  | None => ret false
  | Some mmap =>
      let packedGridPos := packTileID x y in
      match mmapLoadedTiles mmap !! packedGridPos with
      | None => ret false
      | Some tileRef =>
          let '(dtResult, mesh) := removeTile (navMesh mmap) tileRef in
          modify (set_loadedMMaps
                    (insert (packInstanceId mapId instanceId)
                            (set_navMesh mesh mmap))) ;;;
          if dtStatusFailed dtResult then
            emit EvOutError ;;;
            MANGOS_ASSERT false ;;;
            ret false
          else
            modify (set_loadedMMaps
                      (insert (packInstanceId mapId instanceId)
                         (set_mmapLoadedTiles (delete packedGridPos)
                            (set_navMesh mesh mmap)))) ;;;
            modify (set_loadedTiles (fun n => to_uint32 (n - 1))) ;;;
            ret true
      end
  end.

(** The inner loop of [unloadMap(uint32 mapId)] (lines 423-435): every
    tile of the entry is removed from its mesh; a failed removal is
    logged, a successful one decrements the counter. The mesh is dropped
    with the entry after the loop; it is threaded through the loop. *)
Fixpoint unloadMap_tiles (tiles : list (Z * Z)) (mesh : dtNavMesh) : M unit :=
  match tiles with
  | [] => ret tt
  | (_, tileRef) :: rest =>
      let '(dtResult, mesh') := removeTile mesh tileRef in
      (if dtStatusFailed dtResult then emit EvOutError
       else modify (set_loadedTiles (fun n => to_uint32 (n - 1)))) ;;;
      unloadMap_tiles rest mesh'
  end.

(** The outer loop of [unloadMap(uint32 mapId)] (lines 413-441) over the
    entries of [m_loadedMMaps]; [success] is the flag of the same name. *)
Fixpoint unloadMap_entries (mapId : Z) (entries : list (Z * MMapData))
    (success : bool) : M bool :=
  match entries with
  | [] => ret success
  | (key, mmap) :: rest =>
      if negb (key =? to_uint64 (Z.shiftl (to_uint64 mapId) 32)) then
        unloadMap_entries mapId rest success
      else
        unloadMap_tiles (map_to_list (mmapLoadedTiles mmap)) (navMesh mmap) ;;;
        emit EvDeleteMMapData ;;;
        modify (set_loadedMMaps (delete key)) ;;;
        unloadMap_entries mapId rest true
  end.

(** [bool MMapManager::unloadMap(uint32 mapId)]. The entries and the
    tiles are visited in the order of [map_to_list]. *)
Definition unloadMap_mapId (mapId : Z) : M bool :=
  s <- get ;;
  unloadMap_entries mapId (map_to_list (m_loadedMMaps s)) false.

(** [bool MMapManager::unloadMapInstance(uint32 mapId, uint32 instanceId)] *)
Definition unloadMapInstance (mapId instanceId : Z) : M bool :=
  s <- get ;;
  match m_loadedMMaps s !! packInstanceId mapId instanceId with
  | None => ret false
  | Some mmap =>
      match navMeshQueries mmap !! instanceId with
      | None => ret false
      | Some query =>
          emit EvFreeNavMeshQuery ;;;
          modify (set_loadedMMaps
                    (insert (packInstanceId mapId instanceId)
                       (set_navMeshQueries (delete instanceId) mmap))) ;;;
          ret true
      end
  end.

(** [void MMapManager::ChangeTile(uint32 mapId, uint32 instanceId,
    uint32 tileX, uint32 tileY, uint32 tileNumber)] *)
Definition ChangeTile (w : World) (mapId instanceId tileX tileY tileNumber : Z)
    : M unit :=
  unloadMap mapId instanceId (to_int32 tileX) (to_int32 tileY) ;;;
  loadMap w mapId instanceId (to_int32 tileX) (to_int32 tileY) tileNumber ;;;
  ret tt.

(** [dtNavMesh const* MMapManager::GetNavMesh(uint32 mapId, uint32
    instanceId)]; [None] is [nullptr]. *)
Definition GetNavMesh (s : MMapManager) (mapId instanceId : Z) : option dtNavMesh :=
  match m_loadedMMaps s !! packInstanceId mapId instanceId with
  | None => None
  | Some mmap => Some (navMesh mmap)
  end.

(** [dtNavMesh const* MMapManager::GetGONavMesh(uint32 mapId)] *)
Definition GetGONavMesh (s : MMapManager) (mapId : Z) : option dtNavMesh :=
  match m_loadedModels s !! mapId with
  | None => None
  | Some mmap => Some (goNavMesh mmap)
  end.

(** [dtNavMeshQuery const* MMapManager::GetNavMeshQuery(uint32 mapId,
    uint32 instanceId)] *)
Definition GetNavMeshQuery (w : World) (mapId instanceId : Z)
    : M (option dtNavMeshQuery) :=
  s <- get ;;
  match m_loadedMMaps s !! packInstanceId mapId instanceId with
  | None => ret None
  | Some mmap =>
      match navMeshQueries mmap !! instanceId with
      | Some query => ret (Some query)
      | None =>
          MANGOS_ASSERT (dtAllocNavMeshQuery_ok w) ;;;
          let '(dtResult, query) := dtNavMeshQuery_init (navMesh mmap) 1024 in
          if dtStatusFailed dtResult then
            emit EvFreeNavMeshQuery ;;; emit EvOutError ;;; ret None
          else
            modify (set_loadedMMaps
                      (insert (packInstanceId mapId instanceId)
                         (set_navMeshQueries (emplace instanceId query) mmap))) ;;;
            ret (Some query)
      end
  end.

(** [dtNavMeshQuery const* MMapManager::GetModelNavMeshQuery(uint32
    displayId)], run by the thread [threadId] with no other thread
    running. *)
Definition GetModelNavMeshQuery (w : World) (threadId displayId : Z)
    : M (option dtNavMeshQuery) :=
  s <- get ;;
  match m_loadedModels s !! displayId with
  | None => ret None
  | Some mmap =>
      match navMeshGOQueries mmap !! threadId with
      | Some query => ret (Some query)
      | None =>
          emit EvLock ;;;
          (* the second look-up, under the lock *)
          match navMeshGOQueries mmap !! threadId with
          | Some query => emit EvUnlock ;;; ret (Some query)
          | None =>
              MANGOS_ASSERT (dtAllocNavMeshQuery_ok w) ;;;
              let '(status, query) := dtNavMeshQuery_init (goNavMesh mmap) 2048 in
              if dtStatusFailed status then
                emit EvFreeNavMeshQuery ;;; emit EvOutError ;;; emit EvUnlock ;;;
                ret None
              else
                modify (set_loadedModels
                          (insert displayId
                             (set_navMeshGOQueries (emplace threadId query) mmap))) ;;;
                emit EvUnlock ;;;
                ret (Some query)
          end
      end
  end.

(** ** Sequences of calls *)

(** A call of a state-changing operation, with the world it runs in. *)
Inductive Call : Type :=
  | CallChangeTile (w : World) (mapId instanceId tileX tileY tileNumber : Z)
  | CallLoadMapData (w : World) (mapId instanceId : Z)
  | CallLoadMap (w : World) (mapId instanceId x y number : Z)
  | CallLoadAllGameObjectModels (w : World) (displayIds : list Z)
  | CallLoadGameObject (w : World) (displayId : Z)
  | CallUnloadMap (mapId instanceId x y : Z)
  | CallUnloadMapId (mapId : Z)
  | CallUnloadMapInstance (mapId instanceId : Z)
  | CallGetNavMeshQuery (w : World) (mapId instanceId : Z)
  | CallGetModelNavMeshQuery (w : World) (threadId displayId : Z).

Definition exec (c : Call) : M unit :=
  match c with
  | CallChangeTile w mapId instanceId tileX tileY tileNumber =>
      ChangeTile w mapId instanceId tileX tileY tileNumber
  | CallLoadMapData w mapId instanceId =>
      loadMapData w mapId instanceId ;;; ret tt
  | CallLoadMap w mapId instanceId x y number =>
      loadMap w mapId instanceId x y number ;;; ret tt
  | CallLoadAllGameObjectModels w displayIds =>
      loadAllGameObjectModels w displayIds
  | CallLoadGameObject w displayId =>
      loadGameObject w displayId ;;; ret tt
  | CallUnloadMap mapId instanceId x y =>
      unloadMap mapId instanceId x y ;;; ret tt
  | CallUnloadMapId mapId =>
      unloadMap_mapId mapId ;;; ret tt
  | CallUnloadMapInstance mapId instanceId =>
      unloadMapInstance mapId instanceId ;;; ret tt
  | CallGetNavMeshQuery w mapId instanceId =>
      GetNavMeshQuery w mapId instanceId ;;; ret tt
  | CallGetModelNavMeshQuery w threadId displayId =>
      GetModelNavMeshQuery w threadId displayId ;;; ret tt
  end.

(** The states of the manager between calls: the new manager, and the
    state a call returns in from such a state. *)
Inductive reachable : MMapManager -> Prop :=
  | reachable_new : reachable MMapManager_new
  | reachable_call (c : Call) (s s' : MMapManager) (t : list Event) :
      reachable s -> exec c s = (t, Returns tt s') -> reachable s'.

(** The number of tile keys over all entries of [m_loadedMMaps]. *)
Definition countTiles (entries : gmap Z MMapData) : Z :=
  map_fold (fun _ mmap n => Z.of_nat (size (mmapLoadedTiles mmap)) + n) 0 entries.

Definition residentTiles (s : MMapManager) : Z := countTiles (m_loadedMMaps s).

(** The counter agrees with the tile sets, as a [uint32]. *)
Definition tiles_counted (s : MMapManager) : Prop :=
  m_loadedTiles s = to_uint32 (residentTiles s).

(** The engine removes every tile it is asked to remove. *)
Definition removeTile_succeeds : Prop :=
  forall (mesh : dtNavMesh) (tileRef : Z),
    dtStatusFailed (fst (removeTile mesh tileRef)) = false.

(** The engine removes a tile it has just added. *)
Definition removes_added_tile : Prop :=
  forall (mesh mesh' : dtNavMesh) (data : list Byte.byte)
         (size dtResult tileRef : Z),
    addTile mesh data size = (dtResult, tileRef, mesh') ->
    dtStatusFailed dtResult = false ->
    dtStatusFailed (fst (removeTile mesh' tileRef)) = false.

(** ** The manager after a call *)

(** The entry, and the manager, after a successful [unloadMap] of a tile. *)
Definition tile_removed (packedGridPos : Z) (mmap : MMapData) (tileRef : Z)
    : MMapData :=
  {| navMesh := snd (removeTile (navMesh mmap) tileRef);
     navMeshQueries := navMeshQueries mmap;
     mmapLoadedTiles := delete packedGridPos (mmapLoadedTiles mmap) |}.

Definition unloaded (s : MMapManager) (key packedGridPos : Z) (mmap : MMapData)
    (tileRef : Z) : MMapManager :=
  {| m_loadedMMaps :=
       <[key := tile_removed packedGridPos mmap tileRef]> (m_loadedMMaps s);
     m_loadedModels := m_loadedModels s;
     m_loadedTiles := to_uint32 (m_loadedTiles s - 1) |}.

(** The manager after [loadMapData] has registered a new entry. *)
Definition registered (s : MMapManager) (key : Z) (mesh : dtNavMesh) : MMapManager :=
  set_loadedMMaps
    (insert key {| navMesh := mesh; navMeshQueries := ∅; mmapLoadedTiles := ∅ |}) s.

(** The entry, and the manager, after a successful [loadMap]: [s0] is the
    manager after the [loadMapData] it starts with. *)
Definition tile_added (packedGridPos : Z) (mmap : MMapData) (mesh : dtNavMesh)
    (tileRef : Z) : MMapData :=
  {| navMesh := mesh;
     navMeshQueries := navMeshQueries mmap;
     mmapLoadedTiles := <[packedGridPos := tileRef]> (mmapLoadedTiles mmap) |}.

Definition loaded (s0 : MMapManager) (key packedGridPos : Z) (mmap : MMapData)
    (mesh : dtNavMesh) (tileRef : Z) : MMapManager :=
  {| m_loadedMMaps :=
       <[key := tile_added packedGridPos mmap mesh tileRef]> (m_loadedMMaps s0);
     m_loadedModels := m_loadedModels s0;
     m_loadedTiles := to_uint32 (m_loadedTiles s0 + 1) |}.

(** The number of tiles of the list that the engine removes, the mesh
    being threaded through the removals as in [unloadMap_tiles]. *)
Fixpoint removed_count (tiles : list (Z * Z)) (mesh : dtNavMesh) : nat :=
  match tiles with
  | [] => O
  | (_, tileRef) :: rest =>
      let '(dtResult, mesh') := removeTile mesh tileRef in
      ((if dtStatusFailed dtResult then 0 else 1) + removed_count rest mesh')%nat
  end.

(** [n] decrements of the [uint32] counter. *)
Definition decremented (n : nat) (c : Z) : Z :=
  Nat.iter n (fun c => to_uint32 (c - 1)) c.

(** The manager after [unloadMap(mapId)] has unloaded the entry [mmap]
    stored under [key]. *)
Definition map_unloaded (s : MMapManager) (key : Z) (mmap : MMapData) : MMapManager :=
  {| m_loadedMMaps := delete key (m_loadedMMaps s);
     m_loadedModels := m_loadedModels s;
     m_loadedTiles :=
       decremented
         (removed_count (map_to_list (mmapLoadedTiles mmap)) (navMesh mmap))
         (m_loadedTiles s) |}.

End Operations.

(** ** A small engine to run the manager on

    The mesh is the list of the tile references it holds; [addTile] hands
    out the next reference, [removeTile] answers with a fixed status. The
    status words are Detour's: [DT_FAILURE] is the top bit, which
    [dtStatusFailed] tests, [DT_SUCCESS] the bit below. *)

Definition DT_FAILURE : Z := Z.shiftl 1 31.
Definition DT_SUCCESS : Z := Z.shiftl 1 30.

Definition listEngine (removeStatus : Z) : Detour :=
  {| dtNavMeshParams := unit;
     dtNavMesh := list Z;
     dtNavMeshQuery := Z;
     dtStatusFailed := fun status => Z.testbit status 31;
     dtNavMesh_init := fun _ => (DT_SUCCESS, []);
     dtNavMesh_initSingle := fun _ _ => (DT_SUCCESS, []);
     addTile := fun mesh _ _ =>
       let tileRef := Z.of_nat (length mesh) + 1 in
       (DT_SUCCESS, tileRef, tileRef :: mesh);
     removeTile := fun mesh tileRef =>
       (removeStatus, filter (fun r => r ≠ tileRef) mesh);
     dtNavMeshQuery_init := fun _ maxNodes => (DT_SUCCESS, maxNodes) |}.

(** The values of the generator this development is run with. *)
Definition magic0 : Z := 0x4d4d4150.
Definition version0 : Z := 8.

Definition tile0 : MmtileFile :=
  {| fileHeader := {| mmapMagic := magic0; mmapVersion := version0; payloadSize := 2 |};
     payload := [Byte.x01; Byte.x02] |}.

(** A file with a wrong magic number and a size no file has. *)
Definition badTile : MmtileFile :=
  {| fileHeader := {| mmapMagic := 0; mmapVersion := version0;
                      payloadSize := 4294967295 |};
     payload := [] |}.

(** A world with one map, map 1, and one model, model 1; every tile file
    of the map, and the file of the model, is [file]. *)
Definition world0 (E : Detour) (params : @dtNavMeshParams E) (file : MmtileFile)
    : @World E :=
  {| mmapFile := fun mapId => if mapId =? 1 then Some params else None;
     tileFile := fun mapId _ _ _ => if mapId =? 1 then Some file else None;
     modelFile := fun displayId => if displayId =? 1 then Some file else None;
     dtAllocNavMesh_ok := true;
     dtAlloc_ok := fun _ => true;
     dtAllocNavMeshQuery_ok := true;
     CONFIG_BOOL_MMAP_ENABLED := true;
     g_mmapDisabledIds := ∅ |}.

(** The state of a call that returned, if it did. *)
Definition state_after {E : Detour} {A : Type} (o : list Event * Result A)
    (dflt : MMapManager) : MMapManager :=
  match snd o with
  | Returns _ s => s
  | AssertFailed => dflt
  end.

Definition engine0 : Detour := listEngine DT_SUCCESS.
Definition w0 : @World engine0 := world0 engine0 tt tile0.
Definition wBad : @World engine0 := world0 engine0 tt badTile.
Definition new0 : @MMapManager engine0 := MMapManager_new.

(** The manager after [loadMap(1, 5, 30, 30, 0)] on a new manager: one
    entry, for map 1 and instance 5, with one tile. *)
Definition run1 : list Event * Result unit :=
  exec magic0 version0 (CallLoadMap w0 1 5 30 30 0) new0.
Definition s1 : @MMapManager engine0 := state_after run1 new0.

Definition mmap1 : @MMapData engine0 :=
  @Build_MMapData engine0 [1] ∅ {[ packTileID 30 30 := 1 ]}.

(** ... and after [GetNavMeshQuery(1, 5)] on it. *)
Definition s1q : @MMapManager engine0 :=
  state_after (GetNavMeshQuery w0 1 5 s1) s1.

Definition mmap1q : @MMapData engine0 :=
  @Build_MMapData engine0 [1] {[ 5 := 1024 ]} {[ packTileID 30 30 := 1 ]}.

(** An engine that refuses every removal, and the manager after
    [loadMap(1, 5, 30, 30, 0)] on a new manager with it. *)
Definition engineF : Detour := listEngine DT_FAILURE.
Definition sF : @MMapManager engineF :=
  state_after (loadMap magic0 version0 (world0 engineF tt tile0) 1 5 30 30 0
                 MMapManager_new)
              MMapManager_new.
Definition mmapF : @MMapData engineF :=
  @Build_MMapData engineF [1] ∅ {[ packTileID 30 30 := 1 ]}.

(** ... and after [loadMap(1, 0, 30, 30, 0)], then [unloadMap(1)]. *)
Definition sF0 : @MMapManager engineF :=
  state_after (loadMap magic0 version0 (world0 engineF tt tile0) 1 0 30 30 0
                 MMapManager_new)
              MMapManager_new.
Definition sF1 : @MMapManager engineF := state_after (unloadMap_mapId 1 sF0) sF0.

(** The manager after [loadMap(1, 0, 3, -1, 0)] on a new manager. *)
Definition s3 : @MMapManager engine0 :=
  state_after (loadMap magic0 version0 w0 1 0 3 (-1) 0 new0) new0.
(** ** [MMapFactory]: the list of maps without pathfinding

    [preventPathfindingOnMaps] (MoveMap.cpp, lines 42-59) cuts its argument
    at the commas with [strtok] and reads each piece with [atoi]. The
    argument is modelled by the characters of the C string before its
    terminating NUL. *)

Definition code (c : ascii) : Z := Z.of_N (N_of_ascii c).

Definition comma : ascii := ","%char.

(** [isspace] and [isdigit] in the C locale. *)
Definition isspace (c : ascii) : bool :=
  (code c =? 32) || ((9 <=? code c) && (code c <=? 13)).
Definition isdigit (c : ascii) : bool := (48 <=? code c) && (code c <=? 57).

(** The characters of the C string at [s]: those before its first NUL,
    which [strlen] counts and [memcpy] copies into [mapList]. *)
Fixpoint c_str (s : list ascii) : list ascii :=
  match s with
  | [] => []
  | c :: rest => if code c =? 0 then [] else c :: c_str rest
  end.

(** The tokens that the calls [strtok(mapList, ",")], [strtok(nullptr,
    ",")], ... return until the null pointer: the maximal runs of
    characters other than the comma, the empty ones left out. [cur] is
    the run being read, last character first. *)
Fixpoint strtok_all (s : list ascii) (cur : list ascii) : list (list ascii) :=
  match s with
  | [] => match cur with [] => [] | _ => [rev cur] end
  | c :: rest =>
      if Ascii.eqb c comma then
        match cur with
        | [] => strtok_all rest []
        | _ => rev cur :: strtok_all rest []
        end
      else strtok_all rest (c :: cur)
  end.

(** The digits [atoi] reads, most significant first, up to the first
    character that is not a digit. *)
Fixpoint atoi_digits (s : list ascii) (acc : Z) : Z :=
  match s with
  | [] => acc
  | c :: rest =>
      if isdigit c then atoi_digits rest (acc * 10 + (code c - 48)) else acc
  end.

Fixpoint skip_space (s : list ascii) : list ascii :=
  match s with
  | [] => []
  | c :: rest => if isspace c then skip_space rest else s
  end.

(** [atoi]: white space, an optional sign, digits. The C standard leaves
    the result undefined when the number does not fit an [int]: [None]. *)
Definition atoi (s : list ascii) : option Z :=
  let v :=
    match skip_space s with
    | [] => 0
    | c :: rest =>
        if code c =? 45 then - atoi_digits rest 0
        else if code c =? 43 then atoi_digits rest 0
        else atoi_digits (c :: rest) 0
    end in
  if (- 2 ^ 31 <=? v) && (v <? 2 ^ 31) then Some v else None.

(** The loop of [preventPathfindingOnMaps]:
    [g_mmapDisabledIds->insert(uint32(atoi(idstr)))] for each token. *)
Fixpoint preventPathfinding_tokens (tokens : list (list ascii)) (ids : gset Z)
    : option (gset Z) :=
  match tokens with
  | [] => Some ids
  | idstr :: rest =>
      match atoi idstr with
      | None => None
      | Some v => preventPathfinding_tokens rest ({[ to_uint32 v ]} ∪ ids)
      end
  end.

(** [void MMapFactory::preventPathfindingOnMaps(const char* ignoreMapIds)]:
    from the set [g_mmapDisabledIds] points to ([None] is the null
    pointer, replaced by a new empty set) to the set after the call;
    [None] as a result when an [atoi] is undefined. *)
Definition preventPathfindingOnMaps (ignoreMapIds : list ascii)
    (disabledIds : option (gset Z)) : option (gset Z) :=
  let mapList := c_str ignoreMapIds in
  preventPathfinding_tokens (strtok_all mapList []) (default ∅ disabledIds).

(** The decimal digits of a number, to write arguments of
    [preventPathfindingOnMaps] with, and the list of numbers separated by
    commas. *)
Definition digit_char (d : Z) : ascii := ascii_of_N (Z.to_N (48 + d)).

Fixpoint decimal_digits (fuel : nat) (n : Z) (acc : list ascii) : list ascii :=
  match fuel with
  | O => acc
  | S fuel' =>
      let acc' := digit_char (n mod 10) :: acc in
      if n <? 10 then acc' else decimal_digits fuel' (n / 10) acc'
  end.

Definition decimal (n : Z) : list ascii :=
  decimal_digits (S (Z.to_nat (Z.log2 n))) n [].

Fixpoint join_commas (pieces : list (list ascii)) : list ascii :=
  match pieces with
  | [] => []
  | [piece] => piece
  | piece :: rest => piece ++ comma :: join_commas rest
  end.

(** ** Further notions used to state what the operations do *)

Section Notions.

Context `{Engine : Detour}.

Variable MMAP_MAGIC : Z.
Variable MMAP_VERSION : Z.

(** The number of tiles of the list that the engine refuses to remove,
    the mesh being threaded through the removals as in [unloadMap_tiles]. *)
Fixpoint refused_count (tiles : list (Z * Z)) (mesh : dtNavMesh) : nat :=
  match tiles with
  | [] => O
  | (_, tileRef) :: rest =>
      let '(dtResult, mesh') := removeTile mesh tileRef in
      ((if dtStatusFailed dtResult then 1 else 0) + refused_count rest mesh')%nat
  end.

(** The file of the model [displayId] passes every check of
    [loadGameObject] and the engine accepts its payload. *)
Definition model_loadable (w : World) (displayId : Z) : Prop :=
  exists (file : MmtileFile) (data : list Byte.byte),
    modelFile w displayId = Some file /\
    mmapMagic (fileHeader file) = MMAP_MAGIC /\
    mmapVersion (fileHeader file) = MMAP_VERSION /\
    fread_data file (payloadSize (fileHeader file)) = Some data /\
    dtStatusFailed
      (fst (dtNavMesh_initSingle data (to_int32 (payloadSize (fileHeader file)))))
    = false.


(** Every map entry of [s] is still an entry in [s']. *)
Definition entries_kept (s s' : MMapManager) : Prop :=
  forall key, is_Some (m_loadedMMaps s !! key) -> is_Some (m_loadedMMaps s' !! key).

(** Every model of [s] is still a model in [s'], with the same mesh and
    with every query it had. *)
Definition models_kept (s s' : MMapManager) : Prop :=
  forall displayId mmap,
    m_loadedModels s !! displayId = Some mmap ->
    exists mmap',
      m_loadedModels s' !! displayId = Some mmap' /\
      goNavMesh mmap' = goNavMesh mmap /\
      forall threadId query,
        navMeshGOQueries mmap !! threadId = Some query ->
        navMeshGOQueries mmap' !! threadId = Some query.

(** The keys inside the entry stored under [key]: every tile key is a
    [uint32], and every query is stored under an instance whose packed key,
    with some map, is [key]. *)
Definition entry_keys_ok (key : Z) (mmap : MMapData) : Prop :=
  (forall packedGridPos tileRef,
     mmapLoadedTiles mmap !! packedGridPos = Some tileRef ->
     0 <= packedGridPos < 2 ^ 32) /\
  (forall instanceId query,
     navMeshQueries mmap !! instanceId = Some query ->
     exists mapId, key = packInstanceId mapId instanceId).

Definition keys_ok (s : MMapManager) : Prop :=
  forall key mmap, m_loadedMMaps s !! key = Some mmap -> entry_keys_ok key mmap.

(** The call is not [unloadMap(mapId)]. *)
Definition keeps_entries (c : Call) : bool :=
  match c with
  | CallUnloadMapId _ => false
  | _ => true
  end.

End Notions.

(** ** More runs on the small engine *)

(** The manager after [loadMapData(1, 5)] on a new manager: one entry, for
    map 1 and instance 5, with no tile. *)
Definition sD : @MMapManager engine0 :=
  state_after (loadMapData w0 1 5 new0) new0.

Definition mmapD : @MMapData engine0 := @Build_MMapData engine0 [] ∅ ∅.

(** The manager after [unloadMap(1, 5, 30, 30)] on [s1]. *)
Definition s1u : @MMapManager engine0 :=
  state_after (unloadMap 1 5 30 30 s1) s1.

(** The manager after [loadMap(1, 0, 30, 30, 0)] on a new manager, and
    after [unloadMap(1)] on it. *)
Definition s10 : @MMapManager engine0 :=
  state_after (loadMap magic0 version0 w0 1 0 30 30 0 new0) new0.
Definition s10u : @MMapManager engine0 := state_after (unloadMap_mapId 1 s10) s10.

(** The manager after [loadGameObject(1)] on a new manager, and after
    [GetModelNavMeshQuery(1)] by the thread 7 on it. *)
Definition sG : @MMapManager engine0 :=
  state_after (loadGameObject magic0 version0 w0 1 new0) new0.
Definition sGq : @MMapManager engine0 :=
  state_after (GetModelNavMeshQuery w0 7 1 sG) sG.
Definition modelG : @MMapGOData engine0 := @Build_MMapGOData engine0 [] ∅.

(** A world with the parameter file of map 1 and no tile file. *)
Definition wNoTile : @World engine0 :=
  @Build_World engine0
    (fun mapId => if mapId =? 1 then Some tt else None)
    (fun _ _ _ _ => None) (fun _ => None) true (fun _ => true) true true ∅.

(** A tile file whose header promises five bytes and that holds two. *)
Definition shortTile : MmtileFile :=
  {| fileHeader := {| mmapMagic := magic0; mmapVersion := version0;
                      payloadSize := 5 |};
     payload := [Byte.x01; Byte.x02] |}.
Definition wShort : @World engine0 := world0 engine0 tt shortTile.

(** An engine that refuses every tile, and the manager after
    [loadMapData(1, 5)] on a new manager with it. *)
Definition engineA : Detour :=
  {| dtNavMeshParams := unit;
     dtNavMesh := list Z;
     dtNavMeshQuery := Z;
     dtStatusFailed := fun status => Z.testbit status 31;
     dtNavMesh_init := fun _ => (DT_SUCCESS, []);
     dtNavMesh_initSingle := fun _ _ => (DT_SUCCESS, []);
     addTile := fun mesh _ _ => (DT_FAILURE, 0, mesh);
     removeTile := fun mesh _ => (DT_SUCCESS, mesh);
     dtNavMeshQuery_init := fun _ maxNodes => (DT_SUCCESS, maxNodes) |}.
Definition wA : @World engineA := world0 engineA tt tile0.
Definition sA : @MMapManager engineA :=
  state_after (loadMapData wA 1 5 MMapManager_new) MMapManager_new.
Definition mmapA : @MMapData engineA := @Build_MMapData engineA [] ∅ ∅.

(** ** Bit-level facts *)

Lemma testbit_above (a k n : Z) :
  0 <= a < 2 ^ k -> 0 <= k <= n -> Z.testbit a n = false.
Proof.
  intros Ha Hk.
  rewrite <- (Z.mod_small a (2 ^ k)) by lia.
  apply Z.mod_pow2_bits_high. lia.
Qed.

Lemma to_int32_mod (z : Z) : to_int32 z mod 2 ^ 32 = z mod 2 ^ 32.
Proof.
  unfold to_int32.
  rewrite Zminus_mod, Zmod_mod, <- Zminus_mod.
  f_equal. lia.
Qed.

Lemma to_int32_testbit (z n : Z) :
  0 <= n < 32 -> Z.testbit (to_int32 z) n = Z.testbit z n.
Proof.
  intros Hn.
  rewrite <- (Z.mod_pow2_bits_low (to_int32 z) 32 n) by lia.
  rewrite to_int32_mod. apply Z.mod_pow2_bits_low. lia.
Qed.

Lemma packTileID_testbit (x y n : Z) :
  0 <= n ->
  Z.testbit (packTileID x y) n =
  if Z.ltb n 32 then orb (Z.testbit x (n - 16)) (Z.testbit y n) else false.
Proof.
  intros Hn. unfold packTileID, to_uint32.
  destruct (Z.ltb_spec n 32) as [Hlt | Hge].
  - rewrite Z.mod_pow2_bits_low by lia.
    rewrite Z.lor_spec, to_int32_testbit by lia.
    rewrite Z.shiftl_spec by lia. reflexivity.
  - apply Z.mod_pow2_bits_high. lia.
Qed.

Lemma packInstanceId_testbit (mapId instanceId n : Z) :
  0 <= n -> in_uint32 mapId ->
  Z.testbit (packInstanceId mapId instanceId) n =
  orb (if Z.ltb n 64 then Z.testbit mapId (n - 32) else false)
      (Z.testbit instanceId n).
Proof.
  intros Hn Hm. unfold packInstanceId, to_uint64. unfold in_uint32 in Hm.
  rewrite Z.lor_spec. f_equal.
  rewrite (Z.mod_small mapId) by lia.
  destruct (Z.ltb_spec n 64) as [Hlt | Hge].
  - rewrite Z.mod_pow2_bits_low by lia.
    apply Z.shiftl_spec. lia.
  - apply Z.mod_pow2_bits_high. lia.
Qed.

Lemma packInstanceId_high (mapId instanceId : Z) :
  in_uint32 mapId -> in_uint32 instanceId ->
  Z.shiftr (packInstanceId mapId instanceId) 32 = mapId.
Proof.
  intros Hm Hi. apply Z.bits_inj'. intros n Hn.
  rewrite Z.shiftr_spec, packInstanceId_testbit by (auto; lia).
  replace (n + 32 - 32) with n by lia.
  rewrite (testbit_above instanceId 32 (n + 32)) by (auto; lia).
  rewrite orb_false_r.
  destruct (Z.ltb_spec (n + 32) 64); [reflexivity |].
  symmetry. apply (testbit_above mapId 32); [auto | lia].
Qed.

Lemma packInstanceId_low (mapId instanceId : Z) :
  in_uint32 mapId -> in_uint32 instanceId ->
  Z.land (packInstanceId mapId instanceId) (2 ^ 32 - 1) = instanceId.
Proof.
  intros Hm Hi. change (2 ^ 32 - 1) with (Z.ones 32).
  rewrite Z.land_ones by lia.
  apply Z.bits_inj'. intros n Hn.
  destruct (Z.ltb_spec n 32) as [Hlt | Hge].
  - rewrite Z.mod_pow2_bits_low, packInstanceId_testbit by (auto; lia).
    replace (n <? 64) with true by (symmetry; apply Z.ltb_lt; lia).
    rewrite (Z.testbit_neg_r mapId) by lia. reflexivity.
  - rewrite Z.mod_pow2_bits_high by lia.
    symmetry. apply (testbit_above instanceId 32); [auto | lia].
Qed.

Lemma packTileID_high (x y : Z) :
  in_uint16 x -> in_uint16 y -> tileX (packTileID x y) = x.
Proof.
  intros Hx Hy. unfold tileX. apply Z.bits_inj'. intros n Hn.
  rewrite Z.shiftr_spec, packTileID_testbit by lia.
  replace (n + 16 - 16) with n by lia.
  rewrite (testbit_above y 16 (n + 16)) by (auto; lia).
  rewrite orb_false_r.
  destruct (Z.ltb_spec (n + 16) 32); [reflexivity |].
  symmetry. apply (testbit_above x 16); [auto | lia].
Qed.

Lemma packTileID_low (x y : Z) :
  in_uint16 x -> in_uint16 y -> tileY (packTileID x y) = y.
Proof.
  intros Hx Hy. unfold tileY. change 65535 with (Z.ones 16).
  rewrite Z.land_ones by lia.
  apply Z.bits_inj'. intros n Hn.
  destruct (Z.ltb_spec n 16) as [Hlt | Hge].
  - rewrite Z.mod_pow2_bits_low, packTileID_testbit by lia.
    replace (n <? 32) with true by (symmetry; apply Z.ltb_lt; lia).
    rewrite (Z.testbit_neg_r x) by lia. reflexivity.
  - rewrite Z.mod_pow2_bits_high by lia.
    symmetry. apply (testbit_above y 16); [auto | lia].
Qed.

Lemma packTileID_wrap (x y : Z) :
  packTileID (to_int32 x) (to_int32 y) = packTileID x y.
Proof.
  apply Z.bits_inj'. intros n Hn.
  rewrite !packTileID_testbit by lia.
  destruct (Z.ltb_spec n 32) as [Hlt | Hge]; [| reflexivity].
  rewrite (to_int32_testbit y) by lia.
  destruct (Z.ltb_spec n 16) as [Hlo | Hhi].
  - rewrite !(Z.testbit_neg_r _ (n - 16)) by lia. reflexivity.
  - rewrite (to_int32_testbit x) by lia. reflexivity.
Qed.

Lemma to_int32_to_uint32 (z : Z) : to_int32 (to_uint32 z) = to_int32 z.
Proof.
  unfold to_int32, to_uint32.
  rewrite Zplus_mod_idemp_l. reflexivity.
Qed.

Lemma packTileID_minus_one (x : Z) : packTileID x (-1) = 4294967295.
Proof.
  unfold packTileID. rewrite Z.lor_m1_r. reflexivity.
Qed.

(** ** Running a call *)

Ltac run_call :=
  unfold bind, get, ret, emit, modify, MANGOS_ASSERT; cbn.

Section Proofs.

Context `{Engine : Detour}.
Variable MMAP_MAGIC : Z.
Variable MMAP_VERSION : Z.

Lemma bind_run {A B : Type} (m : M A) (k : A -> M B) (s : MMapManager) :
  bind m k s
  = match m s with
    | (t, Returns v s') => let '(t', r) := k v s' in (t ++ t', r)
    | (t, AssertFailed) => (t, AssertFailed)
    end.
Proof. reflexivity. Qed.

Lemma loadMapData_loaded (w : World) (s : MMapManager) (mapId instanceId : Z)
    (mmap : MMapData) :
  m_loadedMMaps s !! packInstanceId mapId instanceId = Some mmap ->
  loadMapData w mapId instanceId s = ([], Returns true s).
Proof.
  intros Hk. unfold loadMapData. run_call. rewrite Hk. reflexivity.
Qed.

Lemma loadMap_already_loaded (w : World) (s : MMapManager)
    (mapId instanceId x y number : Z) (mmap : MMapData) (tileRef : Z) :
  m_loadedMMaps s !! packInstanceId mapId instanceId = Some mmap ->
  mmapLoadedTiles mmap !! packTileID x y = Some tileRef ->
  loadMap MMAP_MAGIC MMAP_VERSION w mapId instanceId x y number s
  = ([EvOutError], Returns false s).
Proof.
  intros Hk Ht. unfold loadMap.
  unfold bind at 1. rewrite (loadMapData_loaded w s mapId instanceId mmap Hk).
  run_call. rewrite Hk, Ht. reflexivity.
Qed.

(** What [unloadMap] does, case by case. *)
Lemma unloadMap_no_entry (s : MMapManager) (mapId instanceId x y : Z) :
  m_loadedMMaps s !! packInstanceId mapId instanceId = None ->
  unloadMap mapId instanceId x y s = ([], Returns false s).
Proof.
  intros Hk. unfold unloadMap. run_call. rewrite Hk. reflexivity.
Qed.

Lemma unloadMap_no_tile (s : MMapManager) (mapId instanceId x y : Z)
    (mmap : MMapData) :
  m_loadedMMaps s !! packInstanceId mapId instanceId = Some mmap ->
  mmapLoadedTiles mmap !! packTileID x y = None ->
  unloadMap mapId instanceId x y s = ([], Returns false s).
Proof.
  intros Hk Ht. unfold unloadMap. run_call. rewrite Hk, Ht. reflexivity.
Qed.

Lemma unloadMap_engine_fails (s : MMapManager) (mapId instanceId x y : Z)
    (mmap : MMapData) (tileRef : Z) :
  m_loadedMMaps s !! packInstanceId mapId instanceId = Some mmap ->
  mmapLoadedTiles mmap !! packTileID x y = Some tileRef ->
  dtStatusFailed (fst (removeTile (navMesh mmap) tileRef)) = true ->
  unloadMap mapId instanceId x y s = ([EvOutError], AssertFailed).
Proof.
  intros Hk Ht Hf. unfold unloadMap. run_call. rewrite Hk, Ht.
  destruct (removeTile (navMesh mmap) tileRef) as [dtResult mesh].
  cbn in Hf. rewrite Hf. reflexivity.
Qed.

Lemma unloaded_lookup (s : MMapManager) (key packedGridPos : Z) (mmap : MMapData)
    (tileRef : Z) :
  m_loadedMMaps (unloaded s key packedGridPos mmap tileRef) !! key
  = Some (tile_removed packedGridPos mmap tileRef) /\
  mmapLoadedTiles (tile_removed packedGridPos mmap tileRef) !! packedGridPos = None.
Proof.
  split; cbn; [apply lookup_insert_eq | apply lookup_delete_eq].
Qed.

Lemma unloadMap_engine_succeeds (s : MMapManager) (mapId instanceId x y : Z)
    (mmap : MMapData) (tileRef : Z) :
  m_loadedMMaps s !! packInstanceId mapId instanceId = Some mmap ->
  mmapLoadedTiles mmap !! packTileID x y = Some tileRef ->
  dtStatusFailed (fst (removeTile (navMesh mmap) tileRef)) = false ->
  unloadMap mapId instanceId x y s
  = ([], Returns true
           (unloaded s (packInstanceId mapId instanceId) (packTileID x y)
                     mmap tileRef)).
Proof.
  intros Hk Ht Hf. unfold unloadMap, unloaded, tile_removed. run_call.
  rewrite Hk, Ht.
  destruct (removeTile (navMesh mmap) tileRef) as [dtResult mesh].
  cbn in Hf. rewrite Hf. cbn.
  unfold set_loadedMMaps, set_loadedTiles; cbn.
  rewrite insert_insert_eq. reflexivity.
Qed.

Lemma loadMapData_returns (w : World) (s s' : MMapManager) (mapId instanceId : Z)
    (t : list Event) (v : bool) :
  loadMapData w mapId instanceId s = (t, Returns v s') ->
  (v = false /\ s' = s /\ m_loadedMMaps s !! packInstanceId mapId instanceId = None)
  \/ (v = true /\ s' = s /\
      is_Some (m_loadedMMaps s !! packInstanceId mapId instanceId))
  \/ (v = true /\ m_loadedMMaps s !! packInstanceId mapId instanceId = None /\
      exists mesh, s' = registered s (packInstanceId mapId instanceId) mesh).
Proof.
  unfold loadMapData. run_call.
  destruct (m_loadedMMaps s !! packInstanceId mapId instanceId) as [mmap |] eqn:Hk.
  - intros [= <- <- <-]. right; left. eauto.
  - destruct (mmapFile w mapId) as [params |]; cbn.
    + destruct (dtAllocNavMesh_ok w); cbn; [| discriminate].
      destruct (dtNavMesh_init params) as [dtResult mesh].
      destruct (dtStatusFailed dtResult); cbn.
      * intros [= <- <- <-]. left. auto.
      * intros [= <- <- <-]. right; right. repeat split.
        exists mesh. unfold registered, set_loadedMMaps, emplace.
        cbn. rewrite Hk. reflexivity.
    + destruct (IsPathfindingEnabled w mapId); cbn;
        intros [= <- <- <-]; left; auto.
Qed.

Lemma loadMapData_events (w : World) (s : MMapManager) (mapId instanceId : Z) :
  Forall (fun e => uses_size e = false)
         (events (loadMapData w mapId instanceId s)).
Proof.
  unfold loadMapData, events. run_call.
  destruct (m_loadedMMaps s !! packInstanceId mapId instanceId); cbn; [constructor |].
  destruct (mmapFile w mapId) as [params |]; cbn.
  - destruct (dtAllocNavMesh_ok w); cbn; [| repeat constructor].
    destruct (dtNavMesh_init params) as [dtResult mesh].
    destruct (dtStatusFailed dtResult); cbn; repeat constructor.
  - destruct (IsPathfindingEnabled w mapId); cbn; repeat constructor.
Qed.

Lemma loaded_lookup (s0 : MMapManager) (key packedGridPos : Z) (mmap : MMapData)
    (mesh : dtNavMesh) (tileRef : Z) :
  m_loadedMMaps (loaded s0 key packedGridPos mmap mesh tileRef) !! key
  = Some (tile_added packedGridPos mmap mesh tileRef) /\
  mmapLoadedTiles (tile_added packedGridPos mmap mesh tileRef) !! packedGridPos
  = Some tileRef.
Proof.
  split; cbn; apply lookup_insert_eq.
Qed.

Lemma loadMap_returns (w : World) (s s1 : MMapManager)
    (mapId instanceId x y number : Z) (t : list Event) (v : bool) :
  loadMap MMAP_MAGIC MMAP_VERSION w mapId instanceId x y number s
  = (t, Returns v s1) ->
  exists (t0 : list Event) (b : bool) (s0 : MMapManager),
    loadMapData w mapId instanceId s = (t0, Returns b s0) /\
    ((v = false /\ s1 = s0)
     \/ (v = false /\ exists mmap mesh,
           m_loadedMMaps s0 !! packInstanceId mapId instanceId = Some mmap /\
           s1 = set_loadedMMaps
                  (insert (packInstanceId mapId instanceId) (set_navMesh mesh mmap)) s0)
     \/ (v = true /\ exists mmap mesh tileRef data size dtResult,
           m_loadedMMaps s0 !! packInstanceId mapId instanceId = Some mmap /\
           mmapLoadedTiles mmap !! packTileID x y = None /\
           addTile (navMesh mmap) data size = (dtResult, tileRef, mesh) /\
           dtStatusFailed dtResult = false /\
           s1 = loaded s0 (packInstanceId mapId instanceId) (packTileID x y)
                       mmap mesh tileRef)).
Proof.
  unfold loadMap. unfold bind at 1.
  destruct (loadMapData w mapId instanceId s) as [t0 [b s0 |]] eqn:Hd;
    [| discriminate].
  intros H. exists t0, b, s0. split; [reflexivity |].
  revert H. destruct b; run_call; [| intros [= <- <- <-]; left; auto].
  destruct (m_loadedMMaps s0 !! packInstanceId mapId instanceId) as [mmap |] eqn:Hk;
    cbn; [| discriminate].
  destruct (mmapLoadedTiles mmap !! packTileID x y) eqn:Ht; cbn;
    [intros [= <- <- <-]; left; auto |].
  destruct (tileFile w mapId x y number) as [file |]; cbn;
    [| intros [= <- <- <-]; left; auto].
  destruct (mmapMagic (fileHeader file) =? MMAP_MAGIC); cbn;
    [| intros [= <- <- <-]; left; auto].
  destruct (mmapVersion (fileHeader file) =? MMAP_VERSION); cbn;
    [| intros [= <- <- <-]; left; auto].
  destruct (dtAlloc_ok w (payloadSize (fileHeader file))); cbn; [| discriminate].
  destruct (fread_data file (payloadSize (fileHeader file))) as [data |]; cbn;
    [| intros [= <- <- <-]; left; auto].
  destruct (addTile (navMesh mmap) data (to_int32 (payloadSize (fileHeader file))))
    as [[dtResult tileRef] mesh] eqn:Hadd.
  destruct (dtStatusFailed dtResult) eqn:Hst; cbn; intros [= <- <- <-].
  - right; left. split; [reflexivity |]. exists mmap, mesh. auto.
  - right; right. split; [reflexivity |].
    exists mmap, mesh, tileRef, data, (to_int32 (payloadSize (fileHeader file))),
      dtResult.
    repeat split; auto.
    unfold loaded, tile_added, set_loadedMMaps, set_loadedTiles,
      set_mmapLoadedTiles, set_navMesh, emplace; cbn.
    rewrite Ht, insert_insert_eq. reflexivity.
Qed.

Lemma IsMMapTileLoaded_lookup (s : MMapManager) (mapId instanceId x y : Z) :
  IsMMapTileLoaded s mapId instanceId (to_uint32 x) (to_uint32 y) = true <->
  exists mmap tileRef,
    m_loadedMMaps s !! packInstanceId mapId instanceId = Some mmap /\
    mmapLoadedTiles mmap !! packTileID x y = Some tileRef.
Proof.
  unfold IsMMapTileLoaded.
  rewrite !to_int32_to_uint32, packTileID_wrap.
  destruct (m_loadedMMaps s !! packInstanceId mapId instanceId) as [mmap |].
  - destruct (mmapLoadedTiles mmap !! packTileID x y) as [tileRef |] eqn:Ht.
    + split; [| reflexivity]. intros _. exists mmap, tileRef. auto.
    + split; [discriminate |]. intros (mmap' & tileRef & [= <-] & Ht').
      congruence.
  - split; [discriminate |]. intros (mmap' & tileRef & [=] & _).
Qed.

Lemma IsMMapTileLoaded_false (s : MMapManager) (mapId instanceId x y : Z) :
  IsMMapTileLoaded s mapId instanceId (to_uint32 x) (to_uint32 y) = false <->
  forall mmap,
    m_loadedMMaps s !! packInstanceId mapId instanceId = Some mmap ->
    mmapLoadedTiles mmap !! packTileID x y = None.
Proof.
  rewrite <- not_true_iff_false, IsMMapTileLoaded_lookup. split.
  - intros Hn mmap Hk.
    destruct (mmapLoadedTiles mmap !! packTileID x y) as [tileRef |] eqn:Ht;
      [| reflexivity].
    exfalso. apply Hn. eauto.
  - intros Hn (mmap & tileRef & Hk & Ht). rewrite (Hn mmap Hk) in Ht.
    discriminate.
Qed.

(** *** The life cycle of one tile *)

(** C4. Let the engine be one that removes a tile it has just added. After
    a [loadMap] that returned [true] the tile, absent before, is resident;
    the [unloadMap] that follows returns [true] and leaves the tile absent:
    its key is gone from the tile set of the entry and [IsMMapTileLoaded]
    is [false]; a second [unloadMap] of the same coordinate returns
    [false] and changes nothing. *)
Theorem load_unload_cycle (w : World) (s s1 : MMapManager)
    (mapId instanceId x y number : Z) (t : list Event) :
  removes_added_tile ->
  loadMap MMAP_MAGIC MMAP_VERSION w mapId instanceId x y number s
  = (t, Returns true s1) ->
  IsMMapTileLoaded s mapId instanceId (to_uint32 x) (to_uint32 y) = false /\
  IsMMapTileLoaded s1 mapId instanceId (to_uint32 x) (to_uint32 y) = true /\
  exists s2,
    unloadMap mapId instanceId x y s1 = ([], Returns true s2) /\
    (exists mmap2,
       m_loadedMMaps s2 !! packInstanceId mapId instanceId = Some mmap2 /\
       mmapLoadedTiles mmap2 !! packTileID x y = None) /\
    IsMMapTileLoaded s2 mapId instanceId (to_uint32 x) (to_uint32 y) = false /\
    unloadMap mapId instanceId x y s2 = ([], Returns false s2).
Proof.
  intros Hengine Hload.
  apply loadMap_returns in Hload
    as (t0 & b & s0 & Hd & [[[=] _] | [[[=] _] | [_ Hs1]]]).
  destruct Hs1
    as (mmap & mesh & tileRef & data & size & dtResult
        & Hk0 & Ht0 & Hadd & Hst & ->).
  pose proof (loaded_lookup s0 (packInstanceId mapId instanceId)
                (packTileID x y) mmap mesh tileRef) as [Hk1 Ht1].
  pose proof (Hengine _ _ _ _ _ _ Hadd Hst) as Hok.
  pose proof (unloaded_lookup
                (loaded s0 (packInstanceId mapId instanceId) (packTileID x y)
                        mmap mesh tileRef)
                (packInstanceId mapId instanceId) (packTileID x y)
                (tile_added (packTileID x y) mmap mesh tileRef) tileRef)
    as [Hk2 Ht2].
  split; [| split].
  - apply IsMMapTileLoaded_false. intros mmap' Hk.
    apply loadMapData_returns in Hd
      as [(_ & -> & Hn) | [(_ & -> & _) | (_ & Hn & _)]]; congruence.
  - apply IsMMapTileLoaded_lookup. eauto.
  - eexists. split; [| split; [| split]].
    + apply (unloadMap_engine_succeeds _ _ _ _ _ _ _ Hk1 Ht1). exact Hok.
    + eauto.
    + apply IsMMapTileLoaded_false. intros mmap' Hk.
      rewrite Hk2 in Hk. injection Hk as <-. exact Ht2.
    + apply (unloadMap_no_tile _ _ _ _ _ _ Hk2 Ht2).
Qed.

(** *** Loading a tile twice *)

(** C5. When the packed key of the tile is already in the tile set of the
    entry, [loadMap] logs an error and returns [false], and the manager is
    what it was: the tile set, the stored tile references and the
    loaded-tile counter are unchanged. *)
Theorem loadMap_duplicate_fails (w : World) (s : MMapManager)
    (mapId instanceId x y number : Z) (mmap : MMapData) (tileRef : Z) :
  m_loadedMMaps s !! packInstanceId mapId instanceId = Some mmap ->
  mmapLoadedTiles mmap !! packTileID x y = Some tileRef ->
  exists s',
    loadMap MMAP_MAGIC MMAP_VERSION w mapId instanceId x y number s
    = ([EvOutError], Returns false s') /\
    s' = s /\
    m_loadedMMaps s' !! packInstanceId mapId instanceId = Some mmap /\
    m_loadedTiles s' = m_loadedTiles s.
Proof.
  intros Hk Ht. exists s.
  rewrite (loadMap_already_loaded w s mapId instanceId x y number mmap tileRef Hk Ht).
  auto.
Qed.

(** *** Rejecting a bad header *)

Lemma loadMap_bad_header (w : World) (s : MMapManager)
    (mapId instanceId x y number : Z) (file : MmtileFile) :
  tileFile w mapId x y number = Some file ->
  mmapMagic (fileHeader file) <> MMAP_MAGIC
  \/ mmapVersion (fileHeader file) <> MMAP_VERSION ->
  Forall (fun e => uses_size e = false)
    (events (loadMap MMAP_MAGIC MMAP_VERSION w mapId instanceId x y number s)) /\
  forall s', result (loadMap MMAP_MAGIC MMAP_VERSION w mapId instanceId x y number s)
             <> Returns true s'.
Proof.
  intros Hfile Hbad.
  pose proof (loadMapData_events w s mapId instanceId) as Hev.
  unfold loadMap, events, result in *. rewrite bind_run.
  destruct (loadMapData w mapId instanceId s) as [t0 [b s0 |]];
    cbn in Hev; [| split; [exact Hev | intros s'; cbn; discriminate]].
  assert (Hbad' : (mmapMagic (fileHeader file) =? MMAP_MAGIC) = false
                  \/ (mmapVersion (fileHeader file) =? MMAP_VERSION) = false)
    by (destruct Hbad; [left | right]; apply Z.eqb_neq; assumption).
  destruct b; run_call.
  - destruct (m_loadedMMaps s0 !! packInstanceId mapId instanceId) as [mmap |];
      cbn; [| rewrite app_nil_r; split; [exact Hev | intros s'; cbn; discriminate]].
    destruct (mmapLoadedTiles mmap !! packTileID x y); cbn.
    + split; [| intros s'; cbn; discriminate]. apply Forall_app. split; [exact Hev |].
      repeat constructor.
    + rewrite Hfile; cbn.
      destruct (mmapMagic (fileHeader file) =? MMAP_MAGIC); cbn.
      * destruct Hbad' as [[=] | ->]; cbn. split; [| intros s'; cbn; discriminate].
        apply Forall_app. split; [exact Hev |]. repeat constructor.
      * split; [| intros s'; cbn; discriminate].
        apply Forall_app. split; [exact Hev |]. repeat constructor.
  - rewrite app_nil_r. split; [exact Hev | intros s'; cbn; discriminate].
Qed.

Lemma loadGameObject_bad_header (w : World) (s : MMapManager) (displayId : Z)
    (file : MmtileFile) :
  modelFile w displayId = Some file ->
  mmapMagic (fileHeader file) <> MMAP_MAGIC
  \/ mmapVersion (fileHeader file) <> MMAP_VERSION ->
  Forall (fun e => uses_size e = false)
    (events (loadGameObject MMAP_MAGIC MMAP_VERSION w displayId s)) /\
  (m_loadedModels s !! displayId = None ->
   loadGameObject MMAP_MAGIC MMAP_VERSION w displayId s
   = ([EvFopen (ModelFile displayId); EvFreadHeader; EvOutError; EvFclose],
      Returns false s)).
Proof.
  intros Hfile Hbad.
  assert (Hbad' : (mmapMagic (fileHeader file) =? MMAP_MAGIC) = false
                  \/ (mmapVersion (fileHeader file) =? MMAP_VERSION) = false)
    by (destruct Hbad; [left | right]; apply Z.eqb_neq; assumption).
  unfold loadGameObject, events. run_call.
  destruct (m_loadedModels s !! displayId); cbn; [split; [constructor | discriminate] |].
  rewrite Hfile; cbn.
  destruct (mmapMagic (fileHeader file) =? MMAP_MAGIC); cbn.
  - destruct Hbad' as [[=] | ->]; cbn. split; [repeat constructor | reflexivity].
  - split; [repeat constructor | reflexivity].
Qed.

(** C6. A tile file or a model file whose magic number is not [MMAP_MAGIC],
    or whose version is not [MMAP_VERSION], is rejected before the size
    field of its header is used: the run of [loadMap] and of
    [loadGameObject] on it holds no allocation and no read of [size]
    bytes; [loadMap] does not return [true], and [loadGameObject], for a
    model that is not loaded, closes the file and returns [false] with
    the manager unchanged. *)
Theorem bad_header_rejected_before_size (w : World) (s : MMapManager)
    (mapId instanceId x y number displayId : Z) (file : MmtileFile) :
  mmapMagic (fileHeader file) <> MMAP_MAGIC
  \/ mmapVersion (fileHeader file) <> MMAP_VERSION ->
  (tileFile w mapId x y number = Some file ->
   Forall (fun e => uses_size e = false)
     (events (loadMap MMAP_MAGIC MMAP_VERSION w mapId instanceId x y number s)) /\
   forall s', result (loadMap MMAP_MAGIC MMAP_VERSION w mapId instanceId x y number s)
              <> Returns true s') /\
  (modelFile w displayId = Some file ->
   Forall (fun e => uses_size e = false)
     (events (loadGameObject MMAP_MAGIC MMAP_VERSION w displayId s)) /\
   (m_loadedModels s !! displayId = None ->
    loadGameObject MMAP_MAGIC MMAP_VERSION w displayId s
    = ([EvFopen (ModelFile displayId); EvFreadHeader; EvOutError; EvFclose],
       Returns false s))).
Proof.
  intros Hbad. split; intros Hfile.
  - apply (loadMap_bad_header w s mapId instanceId x y number file Hfile Hbad).
  - apply (loadGameObject_bad_header w s displayId file Hfile Hbad).
Qed.

(** *** The fatal path of [unloadMap] *)

(** C7. [unloadMap(mapId, instanceId, x, y)] stops at the failed assertion
    exactly when the tile is resident and [removeTile] reports a failure,
    an error having been logged; when it returns, either the entry or the
    tile was absent (it returns [false], the manager unchanged) or the
    engine removed the tile (it returns [true]). *)
Theorem unloadMap_fatal_iff_removeTile_fails (s : MMapManager)
    (mapId instanceId x y : Z) :
  (unloadMap mapId instanceId x y s = ([EvOutError], AssertFailed) <->
   exists mmap tileRef,
     m_loadedMMaps s !! packInstanceId mapId instanceId = Some mmap /\
     mmapLoadedTiles mmap !! packTileID x y = Some tileRef /\
     dtStatusFailed (fst (removeTile (navMesh mmap) tileRef)) = true) /\
  (result (unloadMap mapId instanceId x y s) = AssertFailed ->
   unloadMap mapId instanceId x y s = ([EvOutError], AssertFailed)) /\
  (forall v s', result (unloadMap mapId instanceId x y s) = Returns v s' ->
     (v = false /\ s' = s /\
      IsMMapTileLoaded s mapId instanceId (to_uint32 x) (to_uint32 y) = false)
     \/ (v = true /\ exists mmap tileRef,
           m_loadedMMaps s !! packInstanceId mapId instanceId = Some mmap /\
           mmapLoadedTiles mmap !! packTileID x y = Some tileRef /\
           dtStatusFailed (fst (removeTile (navMesh mmap) tileRef)) = false)).
Proof.
  destruct (m_loadedMMaps s !! packInstanceId mapId instanceId) as [mmap |] eqn:Hk.
  - destruct (mmapLoadedTiles mmap !! packTileID x y) as [tileRef |] eqn:Ht.
    + destruct (dtStatusFailed (fst (removeTile (navMesh mmap) tileRef))) eqn:Hf.
      * rewrite (unloadMap_engine_fails s mapId instanceId x y mmap tileRef Hk Ht Hf).
        split; [| split].
        -- split; [| reflexivity]. intros _. exists mmap, tileRef. auto.
        -- reflexivity.
        -- discriminate.
      * rewrite (unloadMap_engine_succeeds s mapId instanceId x y mmap tileRef Hk Ht Hf).
        split; [| split].
        -- split; [discriminate |].
           intros (mmap' & tileRef' & [= <-] & Ht' & Hf'). congruence.
        -- discriminate.
        -- intros v s' [= <- <-]. right. split; [reflexivity |].
           exists mmap, tileRef. auto.
    + rewrite (unloadMap_no_tile s mapId instanceId x y mmap Hk Ht).
      split; [| split].
      * split; [discriminate |].
        intros (mmap' & tileRef' & [= <-] & Ht' & _). congruence.
      * discriminate.
      * intros v s' [= <- <-]. left. repeat split.
        apply IsMMapTileLoaded_false. intros mmap' Hk'. congruence.
  - rewrite (unloadMap_no_entry s mapId instanceId x y Hk).
    split; [| split].
    + split; [discriminate |]. intros (mmap' & tileRef' & [=] & _).
    + discriminate.
    + intros v s' [= <- <-]. left. repeat split.
      apply IsMMapTileLoaded_false. intros mmap' Hk'. congruence.
Qed.

(** *** Unloading an instance *)

(** C8. [unloadMapInstance] frees and removes the query of the instance and
    nothing else: the entry stays, with the same mesh and the same tile
    set, and the models and the loaded-tile counter are unchanged. With no
    entry for the packed key, or no query for the instance, it returns
    [false] and the manager is unchanged. *)
Theorem unloadMapInstance_frame (s : MMapManager) (mapId instanceId : Z) :
  (forall mmap query,
     m_loadedMMaps s !! packInstanceId mapId instanceId = Some mmap ->
     navMeshQueries mmap !! instanceId = Some query ->
     unloadMapInstance mapId instanceId s
     = ([EvFreeNavMeshQuery],
        Returns true
          {| m_loadedMMaps :=
               <[packInstanceId mapId instanceId :=
                   {| navMesh := navMesh mmap;
                      navMeshQueries := delete instanceId (navMeshQueries mmap);
                      mmapLoadedTiles := mmapLoadedTiles mmap |}]>
                 (m_loadedMMaps s);
             m_loadedModels := m_loadedModels s;
             m_loadedTiles := m_loadedTiles s |})) /\
  (m_loadedMMaps s !! packInstanceId mapId instanceId = None ->
   unloadMapInstance mapId instanceId s = ([], Returns false s)) /\
  (forall mmap,
     m_loadedMMaps s !! packInstanceId mapId instanceId = Some mmap ->
     navMeshQueries mmap !! instanceId = None ->
     unloadMapInstance mapId instanceId s = ([], Returns false s)).
Proof.
  unfold unloadMapInstance. run_call. repeat split.
  - intros mmap query -> ->. reflexivity.
  - intros ->. reflexivity.
  - intros mmap -> ->. reflexivity.
Qed.

(** *** Colliding tile keys *)

(** C10. [packTileID] does not mask its arguments: with [y = -1] the packed
    key is [0xFFFFFFFF] whatever [x] is, so the tiles [(x1, -1)] and
    [(x2, -1)] share one key. Once one of them is resident,
    [IsMMapTileLoaded] reports the other as loaded, [loadMap] refuses the
    other as already loaded, and [unloadMap] of either does the same
    thing. *)
Theorem packTileID_collision (x1 x2 : Z) :
  packTileID x1 (-1) = 4294967295 /\
  packTileID x2 (-1) = 4294967295 /\
  forall (w : World) (s : MMapManager) (mapId instanceId number : Z),
    IsMMapTileLoaded s mapId instanceId (to_uint32 x1) (to_uint32 (-1)) = true ->
    IsMMapTileLoaded s mapId instanceId (to_uint32 x2) (to_uint32 (-1)) = true /\
    loadMap MMAP_MAGIC MMAP_VERSION w mapId instanceId x2 (-1) number s
    = ([EvOutError], Returns false s) /\
    unloadMap mapId instanceId x2 (-1) s = unloadMap mapId instanceId x1 (-1) s.
Proof.
  split; [apply packTileID_minus_one |].
  split; [apply packTileID_minus_one |].
  intros w s mapId instanceId number Hres.
  apply IsMMapTileLoaded_lookup in Hres as (mmap & tileRef & Hk & Ht).
  rewrite packTileID_minus_one in Ht.
  split; [| split].
  - apply IsMMapTileLoaded_lookup. exists mmap, tileRef.
    rewrite packTileID_minus_one. auto.
  - apply (loadMap_already_loaded w s mapId instanceId x2 (-1) number mmap tileRef Hk).
    rewrite packTileID_minus_one. exact Ht.
  - unfold unloadMap. rewrite !packTileID_minus_one. reflexivity.
Qed.

(** *** Unloading a whole map *)

Lemma decremented_S (n : nat) (c : Z) :
  decremented (S n) c = decremented n (to_uint32 (c - 1)).
Proof.
  unfold decremented. induction n as [| n IH]; [reflexivity |].
  cbn in *. rewrite IH. reflexivity.
Qed.

Lemma decremented_wrap (n : nat) (c : Z) :
  in_uint32 c -> decremented n c = to_uint32 (c - Z.of_nat n).
Proof.
  unfold in_uint32, to_uint32. revert c.
  induction n as [| n IH]; intros c Hc.
  - cbn. rewrite Z.sub_0_r, Z.mod_small by lia. reflexivity.
  - rewrite decremented_S, IH by (apply Z.mod_pos_bound; lia).
    unfold to_uint32. rewrite Zminus_mod_idemp_l. f_equal. lia.
Qed.

Lemma removed_count_all (tiles : list (Z * Z)) (mesh : dtNavMesh) :
  removeTile_succeeds -> removed_count tiles mesh = length tiles.
Proof.
  intros Hok. revert mesh.
  induction tiles as [| [packedGridPos tileRef] rest IH]; intros mesh;
    [reflexivity |].
  cbn. pose proof (Hok mesh tileRef) as Hf.
  destruct (removeTile mesh tileRef) as [dtResult mesh']. cbn in Hf.
  rewrite Hf, IH. reflexivity.
Qed.

Lemma removed_count_le (tiles : list (Z * Z)) (mesh : dtNavMesh) :
  (removed_count tiles mesh <= length tiles)%nat.
Proof.
  revert mesh.
  induction tiles as [| [packedGridPos tileRef] rest IH]; intros mesh;
    [reflexivity |].
  cbn. destruct (removeTile mesh tileRef) as [dtResult mesh'].
  specialize (IH mesh'). destruct (dtStatusFailed dtResult); cbn; lia.
Qed.

(** The inner loop never stops the process: it returns, with the counter
    decremented once per removed tile and the maps untouched. *)
Lemma unloadMap_tiles_run (tiles : list (Z * Z)) (mesh : dtNavMesh)
    (s : MMapManager) :
  exists t,
    unloadMap_tiles tiles mesh s
    = (t, Returns tt (set_loadedTiles (decremented (removed_count tiles mesh)) s)).
Proof.
  revert mesh s.
  induction tiles as [| [packedGridPos tileRef] rest IH]; intros mesh s.
  - exists []. cbn. unfold ret. destruct s; reflexivity.
  - cbn. destruct (removeTile mesh tileRef) as [dtResult mesh'].
    rewrite bind_run.
    destruct (dtStatusFailed dtResult); cbn.
    + destruct (IH mesh' s) as [t ->]. eexists. reflexivity.
    + destruct (IH mesh' (set_loadedTiles (fun n => to_uint32 (n - 1)) s))
        as [t ->].
      eexists. unfold set_loadedTiles.
      cbn [m_loadedTiles m_loadedMMaps m_loadedModels].
      rewrite decremented_S. reflexivity.
Qed.

Lemma unloadMap_entries_miss (mapId : Z) (entries : list (Z * MMapData))
    (success : bool) (s : MMapManager) :
  to_uint64 (Z.shiftl (to_uint64 mapId) 32) ∉ entries.*1 ->
  unloadMap_entries mapId entries success s = ([], Returns success s).
Proof.
  induction entries as [| [key mmap] rest IH]; intros Hn; [reflexivity |].
  cbn in *. apply not_elem_of_cons in Hn as [Hne Hn].
  destruct (Z.eqb_spec key (to_uint64 (Z.shiftl (to_uint64 mapId) 32)));
    [congruence |].
  cbn. apply IH, Hn.
Qed.

Lemma unloadMap_entries_hit (mapId : Z) (before after : list (Z * MMapData))
    (mmap : MMapData) (success : bool) (s : MMapManager) :
  let key := to_uint64 (Z.shiftl (to_uint64 mapId) 32) in
  key ∉ before.*1 -> key ∉ after.*1 ->
  exists t,
    unloadMap_entries mapId (before ++ (key, mmap) :: after) success s
    = (t ++ [EvDeleteMMapData], Returns true (map_unloaded s key mmap)).
Proof.
  intros key Hb Ha.
  induction before as [| [key' mmap'] rest IH].
  - cbn. fold key. rewrite Z.eqb_refl. cbn.
    rewrite bind_run.
    destruct (unloadMap_tiles_run (map_to_list (mmapLoadedTiles mmap))
                (navMesh mmap) s) as [t ->].
    run_call.
    rewrite (unloadMap_entries_miss mapId after true _ Ha).
    exists t. reflexivity.
  - cbn in *. apply not_elem_of_cons in Hb as [Hne Hb].
    fold key. destruct (Z.eqb_spec key' key); [congruence |].
    cbn. apply IH, Hb.
Qed.

(** What [unloadMap(mapId)] does: it acts on the entry under the key
    [uint64(mapId) << 32] alone. *)
Lemma unloadMap_mapId_run (mapId : Z) (s : MMapManager) :
  let key := to_uint64 (Z.shiftl (to_uint64 mapId) 32) in
  match m_loadedMMaps s !! key with
  | None => unloadMap_mapId mapId s = ([], Returns false s)
  | Some mmap =>
      exists t,
        unloadMap_mapId mapId s
        = (t ++ [EvDeleteMMapData], Returns true (map_unloaded s key mmap))
  end.
Proof.
  intros key. unfold unloadMap_mapId. rewrite bind_run. cbn.
  pose proof (NoDup_fst_map_to_list (m_loadedMMaps s)) as Hnd.
  destruct (m_loadedMMaps s !! key) as [mmap |] eqn:Hk.
  - apply elem_of_map_to_list in Hk.
    apply list_elem_of_split in Hk as (before & after & Hl).
    rewrite Hl in Hnd |- *.
    rewrite fmap_app, fmap_cons in Hnd. cbn in Hnd.
    apply NoDup_app in Hnd as (_ & Hdisj & Hnd).
    apply NoDup_cons in Hnd as [Ha _].
    assert (Hb : key ∉ before.*1).
    { intros Hin. apply (Hdisj key Hin). left. }
    destruct (unloadMap_entries_hit mapId before after mmap false s Hb Ha)
      as [t Ht].
    exists t. fold key in Ht. rewrite Ht. reflexivity.
  - rewrite unloadMap_entries_miss; [reflexivity |].
    fold key. intros Hin.
    apply list_elem_of_fmap in Hin as ([key' mmap] & Heq & Hin).
    apply elem_of_map_to_list in Hin. cbn in Heq. rewrite <- Heq in Hin.
    congruence.
Qed.

(** *** The loaded-tile counter *)

Lemma countTiles_delete (entries : gmap Z MMapData) (key : Z) (mmap : MMapData) :
  entries !! key = Some mmap ->
  countTiles entries
  = Z.of_nat (size (mmapLoadedTiles mmap)) + countTiles (delete key entries).
Proof.
  intros Hk. unfold countTiles.
  apply (map_fold_delete_L
           (fun (_ : Z) (d : MMapData) (n : Z) =>
              Z.of_nat (size (mmapLoadedTiles d)) + n)
           0 key mmap entries); [| exact Hk].
  intros. lia.
Qed.

Lemma countTiles_insert_fresh (entries : gmap Z MMapData) (key : Z)
    (mmap : MMapData) :
  entries !! key = None ->
  countTiles (<[key := mmap]> entries)
  = Z.of_nat (size (mmapLoadedTiles mmap)) + countTiles entries.
Proof.
  intros Hk. unfold countTiles.
  apply (map_fold_insert_L
           (fun (_ : Z) (d : MMapData) (n : Z) =>
              Z.of_nat (size (mmapLoadedTiles d)) + n)
           0 key mmap entries); [| exact Hk].
  intros. lia.
Qed.

Lemma countTiles_insert (entries : gmap Z MMapData) (key : Z)
    (old new : MMapData) :
  entries !! key = Some old ->
  countTiles (<[key := new]> entries)
  = countTiles entries - Z.of_nat (size (mmapLoadedTiles old))
    + Z.of_nat (size (mmapLoadedTiles new)).
Proof.
  intros Hk.
  rewrite <- insert_delete_eq.
  rewrite countTiles_insert_fresh by apply lookup_delete_eq.
  rewrite (countTiles_delete entries key old Hk). lia.
Qed.

Lemma tiles_counted_in_range (s : MMapManager) :
  tiles_counted s -> in_uint32 (m_loadedTiles s).
Proof.
  unfold tiles_counted, in_uint32, to_uint32. intros ->.
  apply Z.mod_pos_bound. lia.
Qed.

(** A call that touches neither the tile sets nor the counter. *)
Lemma tiles_counted_frame (s s' : MMapManager) :
  residentTiles s' = residentTiles s ->
  m_loadedTiles s' = m_loadedTiles s ->
  tiles_counted s -> tiles_counted s'.
Proof.
  unfold tiles_counted. intros -> ->. auto.
Qed.

Lemma tiles_counted_same_tiles (s : MMapManager) (key : Z) (old new : MMapData) :
  m_loadedMMaps s !! key = Some old ->
  mmapLoadedTiles new = mmapLoadedTiles old ->
  tiles_counted s ->
  tiles_counted (set_loadedMMaps (insert key new) s).
Proof.
  intros Hk Ht. apply tiles_counted_frame; [| reflexivity].
  unfold residentTiles. cbn.
  rewrite (countTiles_insert _ key old new Hk), Ht. lia.
Qed.

Lemma tiles_counted_registered (s : MMapManager) (key : Z) (mesh : dtNavMesh) :
  m_loadedMMaps s !! key = None ->
  tiles_counted s -> tiles_counted (registered s key mesh).
Proof.
  intros Hk. apply tiles_counted_frame; [| reflexivity].
  unfold residentTiles, registered. cbn.
  rewrite countTiles_insert_fresh by exact Hk. cbn.
  rewrite map_size_empty. lia.
Qed.

Lemma tiles_counted_loaded (s0 : MMapManager) (key packedGridPos : Z)
    (mmap : MMapData) (mesh : dtNavMesh) (tileRef : Z) :
  m_loadedMMaps s0 !! key = Some mmap ->
  mmapLoadedTiles mmap !! packedGridPos = None ->
  tiles_counted s0 ->
  tiles_counted (loaded s0 key packedGridPos mmap mesh tileRef).
Proof.
  unfold tiles_counted, residentTiles. cbn. intros Hk Ht ->.
  rewrite (countTiles_insert _ key mmap _ Hk). cbn.
  rewrite map_size_insert_None by exact Ht.
  unfold to_uint32. rewrite Zplus_mod_idemp_l. f_equal. lia.
Qed.

Lemma tiles_counted_unloaded (s : MMapManager) (key packedGridPos : Z)
    (mmap : MMapData) (tileRef : Z) :
  m_loadedMMaps s !! key = Some mmap ->
  mmapLoadedTiles mmap !! packedGridPos = Some tileRef ->
  tiles_counted s ->
  tiles_counted (unloaded s key packedGridPos mmap tileRef).
Proof.
  unfold tiles_counted, residentTiles. cbn. intros Hk Ht ->.
  rewrite (countTiles_insert _ key mmap _ Hk). cbn.
  rewrite map_size_delete_Some by eauto.
  assert (size (mmapLoadedTiles mmap) <> 0%nat) as Hpos.
  { intros H0. apply map_size_empty_inv in H0. rewrite H0 in Ht.
    rewrite lookup_empty in Ht. discriminate. }
  unfold to_uint32. rewrite Zminus_mod_idemp_l. f_equal. lia.
Qed.

Lemma tiles_counted_map_unloaded (s : MMapManager) (key : Z) (mmap : MMapData) :
  removeTile_succeeds ->
  m_loadedMMaps s !! key = Some mmap ->
  tiles_counted s ->
  tiles_counted (map_unloaded s key mmap).
Proof.
  intros Hok Hk Hs. pose proof (tiles_counted_in_range s Hs) as Hr.
  unfold tiles_counted, residentTiles in *. cbn.
  rewrite removed_count_all, length_map_to_list by exact Hok.
  rewrite decremented_wrap by exact Hr.
  rewrite Hs, (countTiles_delete _ key mmap Hk).
  unfold to_uint32. rewrite Zminus_mod_idemp_l. f_equal. lia.
Qed.

Lemma countTiles_nonneg (entries : gmap Z MMapData) : 0 <= countTiles entries.
Proof.
  induction entries as [| key mmap entries Hk IH] using map_ind.
  - unfold countTiles. rewrite map_fold_empty. lia.
  - rewrite countTiles_insert_fresh by exact Hk. lia.
Qed.

Lemma loadMapData_counted (w : World) (s s' : MMapManager) (mapId instanceId : Z)
    (t : list Event) (v : bool) :
  tiles_counted s ->
  loadMapData w mapId instanceId s = (t, Returns v s') ->
  tiles_counted s'.
Proof.
  intros Hs Hrun.
  apply loadMapData_returns in Hrun
    as [(_ & -> & _) | [(_ & -> & _) | (_ & Hk & mesh & ->)]]; auto.
  apply tiles_counted_registered; assumption.
Qed.

Lemma loadMap_counted (w : World) (s s' : MMapManager)
    (mapId instanceId x y number : Z) (t : list Event) (v : bool) :
  tiles_counted s ->
  loadMap MMAP_MAGIC MMAP_VERSION w mapId instanceId x y number s
  = (t, Returns v s') ->
  tiles_counted s'.
Proof.
  intros Hs Hrun.
  apply loadMap_returns in Hrun as (t0 & b & s0 & Hd & Hcases).
  pose proof (loadMapData_counted w s s0 mapId instanceId t0 b Hs Hd) as Hs0.
  destruct Hcases
    as [[_ ->] | [(_ & mmap & mesh & Hk & ->)
                 | (_ & mmap & mesh & tileRef & data & size & dtResult
                    & Hk & Ht & _ & _ & ->)]].
  - exact Hs0.
  - apply (tiles_counted_same_tiles s0 _ mmap); auto.
  - apply tiles_counted_loaded; assumption.
Qed.

Lemma unloadMap_counted (s s' : MMapManager) (mapId instanceId x y : Z)
    (t : list Event) (v : bool) :
  tiles_counted s ->
  unloadMap mapId instanceId x y s = (t, Returns v s') ->
  tiles_counted s'.
Proof.
  intros Hs.
  destruct (m_loadedMMaps s !! packInstanceId mapId instanceId) as [mmap |] eqn:Hk.
  - destruct (mmapLoadedTiles mmap !! packTileID x y) as [tileRef |] eqn:Ht.
    + destruct (dtStatusFailed (fst (removeTile (navMesh mmap) tileRef))) eqn:Hf.
      * rewrite (unloadMap_engine_fails s mapId instanceId x y mmap tileRef Hk Ht Hf).
        discriminate.
      * rewrite (unloadMap_engine_succeeds s mapId instanceId x y mmap tileRef Hk Ht Hf).
        intros [= <- <- <-]. apply tiles_counted_unloaded; assumption.
    + rewrite (unloadMap_no_tile s mapId instanceId x y mmap Hk Ht).
      intros [= <- <- <-]. exact Hs.
  - rewrite (unloadMap_no_entry s mapId instanceId x y Hk).
    intros [= <- <- <-]. exact Hs.
Qed.

Lemma unloadMap_mapId_counted (s s' : MMapManager) (mapId : Z)
    (t : list Event) (v : bool) :
  removeTile_succeeds ->
  tiles_counted s ->
  unloadMap_mapId mapId s = (t, Returns v s') ->
  tiles_counted s'.
Proof.
  intros Hok Hs. pose proof (unloadMap_mapId_run mapId s) as Hrun.
  cbv zeta in Hrun.
  destruct (m_loadedMMaps s !! to_uint64 (Z.shiftl (to_uint64 mapId) 32))
    as [mmap |] eqn:Hk.
  - destruct Hrun as [t' ->]. intros [= <- <- <-].
    apply tiles_counted_map_unloaded; assumption.
  - rewrite Hrun. intros [= <- <- <-]. exact Hs.
Qed.

Lemma unloadMapInstance_counted (s s' : MMapManager) (mapId instanceId : Z)
    (t : list Event) (v : bool) :
  tiles_counted s ->
  unloadMapInstance mapId instanceId s = (t, Returns v s') ->
  tiles_counted s'.
Proof.
  intros Hs. unfold unloadMapInstance. run_call.
  destruct (m_loadedMMaps s !! packInstanceId mapId instanceId) as [mmap |] eqn:Hk;
    [| intros [= <- <- <-]; exact Hs].
  destruct (navMeshQueries mmap !! instanceId); cbn; intros [= <- <- <-];
    [| exact Hs].
  apply (tiles_counted_same_tiles s _ mmap); auto.
Qed.

Lemma GetNavMeshQuery_counted (w : World) (s s' : MMapManager)
    (mapId instanceId : Z) (t : list Event) (v : option dtNavMeshQuery) :
  tiles_counted s ->
  GetNavMeshQuery w mapId instanceId s = (t, Returns v s') ->
  tiles_counted s'.
Proof.
  intros Hs. unfold GetNavMeshQuery. run_call.
  destruct (m_loadedMMaps s !! packInstanceId mapId instanceId) as [mmap |] eqn:Hk;
    [| intros [= <- <- <-]; exact Hs].
  destruct (navMeshQueries mmap !! instanceId); cbn;
    [intros [= <- <- <-]; exact Hs |].
  destruct (dtAllocNavMeshQuery_ok w); cbn; [| discriminate].
  destruct (dtNavMeshQuery_init (navMesh mmap) 1024) as [dtResult query].
  destruct (dtStatusFailed dtResult); cbn; intros [= <- <- <-]; [exact Hs |].
  apply (tiles_counted_same_tiles s _ mmap); auto.
Qed.

Lemma GetModelNavMeshQuery_counted (w : World) (s s' : MMapManager)
    (threadId displayId : Z) (t : list Event) (v : option dtNavMeshQuery) :
  tiles_counted s ->
  GetModelNavMeshQuery w threadId displayId s = (t, Returns v s') ->
  tiles_counted s'.
Proof.
  intros Hs. unfold GetModelNavMeshQuery. run_call.
  destruct (m_loadedModels s !! displayId) as [mmap |];
    [| intros [= <- <- <-]; exact Hs].
  destruct (navMeshGOQueries mmap !! threadId); cbn;
    [intros [= <- <- <-]; exact Hs |].
  destruct (dtAllocNavMeshQuery_ok w); cbn; [| discriminate].
  destruct (dtNavMeshQuery_init (goNavMesh mmap) 2048) as [status query].
  destruct (dtStatusFailed status); cbn; intros [= <- <- <-]; exact Hs.
Qed.

Lemma loadGameObject_counted (w : World) (s s' : MMapManager) (displayId : Z)
    (t : list Event) (v : bool) :
  tiles_counted s ->
  loadGameObject MMAP_MAGIC MMAP_VERSION w displayId s = (t, Returns v s') ->
  tiles_counted s'.
Proof.
  intros Hs. unfold loadGameObject. run_call.
  destruct (m_loadedModels s !! displayId); [intros [= <- <- <-]; exact Hs |].
  destruct (modelFile w displayId) as [file |]; cbn;
    [| intros [= <- <- <-]; exact Hs].
  destruct (mmapMagic (fileHeader file) =? MMAP_MAGIC); cbn;
    [| intros [= <- <- <-]; exact Hs].
  destruct (mmapVersion (fileHeader file) =? MMAP_VERSION); cbn;
    [| intros [= <- <- <-]; exact Hs].
  destruct (dtAlloc_ok w (payloadSize (fileHeader file))); cbn; [| discriminate].
  destruct (fread_data file (payloadSize (fileHeader file))) as [data |]; cbn;
    [| intros [= <- <- <-]; exact Hs].
  destruct (dtAllocNavMesh_ok w); cbn; [| discriminate].
  destruct (dtNavMesh_initSingle data (to_int32 (payloadSize (fileHeader file))))
    as [r mesh].
  destruct (dtStatusFailed r); cbn; intros [= <- <- <-]; exact Hs.
Qed.

Lemma loadAllGameObjectModels_counted (w : World) (displayIds : list Z)
    (s s' : MMapManager) (t : list Event) (v : unit) :
  tiles_counted s ->
  loadAllGameObjectModels MMAP_MAGIC MMAP_VERSION w displayIds s
  = (t, Returns v s') ->
  tiles_counted s'.
Proof.
  revert s t. induction displayIds as [| displayId rest IH]; intros s t Hs.
  - cbn. intros H. inversion H; subst. exact Hs.
  - cbn. rewrite bind_run.
    destruct (loadGameObject MMAP_MAGIC MMAP_VERSION w displayId s)
      as [t0 [b s0 |]] eqn:Hg; [| discriminate].
    destruct (loadAllGameObjectModels MMAP_MAGIC MMAP_VERSION w rest s0)
      as [t1 [u s1 |]] eqn:Hrest; [| discriminate].
    intros [= <- <- <-].
    apply (IH s0 t1); [| exact Hrest].
    apply (loadGameObject_counted w s s0 displayId t0 b Hs Hg).
Qed.

(** A call that returns keeps the counter in step with the tile sets. *)
Lemma exec_counted (c : Call) (s s' : MMapManager) (t : list Event) :
  removeTile_succeeds ->
  tiles_counted s ->
  exec MMAP_MAGIC MMAP_VERSION c s = (t, Returns tt s') ->
  tiles_counted s'.
Proof.
  intros Hok Hs.
  destruct c as [w mapId instanceId tx ty tileNumber | w mapId instanceId
                 | w mapId instanceId x y number | w displayIds | w displayId
                 | mapId instanceId x y | mapId | mapId instanceId
                 | w mapId instanceId | w threadId displayId];
    cbn [exec]; try unfold ChangeTile; rewrite ?bind_run.
  - destruct (unloadMap mapId instanceId (to_int32 tx) (to_int32 ty) s)
      as [t0 [b s0 |]] eqn:Hu; [| discriminate].
    rewrite bind_run.
    destruct (loadMap MMAP_MAGIC MMAP_VERSION w mapId instanceId
                (to_int32 tx) (to_int32 ty) tileNumber s0)
      as [t1 [b1 s1 |]] eqn:Hl; [| discriminate].
    cbn. intros [= <- <-].
    eapply loadMap_counted; [| exact Hl].
    eapply unloadMap_counted; [exact Hs | exact Hu].
  - destruct (loadMapData w mapId instanceId s) as [t0 [b s0 |]] eqn:Hrun;
      [| discriminate].
    cbn. intros [= <- <-]. eapply loadMapData_counted; eauto.
  - destruct (loadMap MMAP_MAGIC MMAP_VERSION w mapId instanceId x y number s)
      as [t0 [b s0 |]] eqn:Hrun; [| discriminate].
    cbn. intros [= <- <-]. eapply loadMap_counted; eauto.
  - intros Hrun. eapply loadAllGameObjectModels_counted; eauto.
  - destruct (loadGameObject MMAP_MAGIC MMAP_VERSION w displayId s)
      as [t0 [b s0 |]] eqn:Hrun; [| discriminate].
    cbn. intros [= <- <-]. eapply loadGameObject_counted; eauto.
  - destruct (unloadMap mapId instanceId x y s) as [t0 [b s0 |]] eqn:Hrun;
      [| discriminate].
    cbn. intros [= <- <-]. eapply unloadMap_counted; eauto.
  - destruct (unloadMap_mapId mapId s) as [t0 [b s0 |]] eqn:Hrun;
      [| discriminate].
    cbn. intros [= <- <-]. eapply unloadMap_mapId_counted; eauto.
  - destruct (unloadMapInstance mapId instanceId s) as [t0 [b s0 |]] eqn:Hrun;
      [| discriminate].
    cbn. intros [= <- <-]. eapply unloadMapInstance_counted; eauto.
  - destruct (GetNavMeshQuery w mapId instanceId s) as [t0 [b s0 |]] eqn:Hrun;
      [| discriminate].
    cbn. intros [= <- <-]. eapply GetNavMeshQuery_counted; eauto.
  - destruct (GetModelNavMeshQuery w threadId displayId s)
      as [t0 [b s0 |]] eqn:Hrun; [| discriminate].
    cbn. intros [= <- <-]. eapply GetModelNavMeshQuery_counted; eauto.
Qed.

(** C3. Provided the engine removes every tile it is asked to remove, in
    every state the manager is in between calls, starting from the new
    manager, the counter [m_loadedTiles] is the number of tile keys over
    all the entries of [m_loadedMMaps]: as a [uint32], and so exactly as
    long as that number fits the 32 bits of the counter. Every call that
    returns moves the counter by the number of tile keys it has inserted
    less the number it has removed. *)
Theorem loaded_tiles_counter_invariant (s : MMapManager) :
  removeTile_succeeds ->
  reachable MMAP_MAGIC MMAP_VERSION s ->
  m_loadedTiles s = to_uint32 (residentTiles s) /\
  (residentTiles s < 2 ^ 32 -> m_loadedTiles s = residentTiles s) /\
  (forall (c : Call) (t : list Event) (s' : MMapManager),
     exec MMAP_MAGIC MMAP_VERSION c s = (t, Returns tt s') ->
     m_loadedTiles s'
     = to_uint32 (m_loadedTiles s + (residentTiles s' - residentTiles s))).
Proof.
  intros Hok Hreach.
  assert (Hs : tiles_counted s).
  { induction Hreach as [| c s s' t _ IH Hrun].
    - reflexivity.
    - apply (exec_counted c s s' t Hok IH Hrun). }
  split; [exact Hs | split].
  - intros Hlt. rewrite Hs. unfold to_uint32.
    apply Z.mod_small. split; [apply countTiles_nonneg | exact Hlt].
  - intros c t s' Hrun.
    pose proof (exec_counted c s s' t Hok Hs Hrun) as Hs'.
    unfold tiles_counted in Hs, Hs'. rewrite Hs', Hs.
    unfold to_uint32. rewrite Zplus_mod_idemp_l. f_equal. lia.
Qed.

(** Without that proviso the counter drifts: [unloadMap(mapId)] drops the
    tile keys of the entry whether or not the engine removed the tiles,
    and decrements the counter for the removed ones only. *)
Lemma unloadMap_mapId_counter (s : MMapManager) (mapId : Z) (mmap : MMapData) :
  m_loadedMMaps s !! to_uint64 (Z.shiftl (to_uint64 mapId) 32) = Some mmap ->
  exists t s',
    unloadMap_mapId mapId s = (t, Returns true s') /\
    m_loadedMMaps s' = delete (to_uint64 (Z.shiftl (to_uint64 mapId) 32))
                              (m_loadedMMaps s) /\
    m_loadedTiles s'
    = decremented
        (removed_count (map_to_list (mmapLoadedTiles mmap)) (navMesh mmap))
        (m_loadedTiles s).
Proof.
  intros Hk. pose proof (unloadMap_mapId_run mapId s) as Hrun.
  cbv zeta in Hrun. rewrite Hk in Hrun. destruct Hrun as [t ->].
  eexists _, _. split; [reflexivity | split; reflexivity].
Qed.

End Proofs.

(** ** The packed keys *)

(** C2. Over the valid ranges the packings are injective and can be undone:
    for [mapId] and [instanceId] below [2^32] the high 32 bits of
    [packInstanceId mapId instanceId] are [mapId] and the low 32 bits are
    [instanceId]; for [x] and [y] below [2^16] the high 16 bits of
    [packTileID x y] are [x] and the low 16 bits are [y]; two pairs with
    the same packed key are the same pair. *)
Theorem packing_bijective (mapId instanceId mapId' instanceId' x y x' y' : Z) :
  in_uint32 mapId -> in_uint32 instanceId ->
  in_uint32 mapId' -> in_uint32 instanceId' ->
  in_uint16 x -> in_uint16 y -> in_uint16 x' -> in_uint16 y' ->
  (Z.shiftr (packInstanceId mapId instanceId) 32 = mapId /\
   Z.land (packInstanceId mapId instanceId) (2 ^ 32 - 1) = instanceId) /\
  (packInstanceId mapId instanceId = packInstanceId mapId' instanceId' ->
   mapId = mapId' /\ instanceId = instanceId') /\
  (tileX (packTileID x y) = x /\ tileY (packTileID x y) = y) /\
  (packTileID x y = packTileID x' y' -> x = x' /\ y = y').
Proof.
  intros Hm Hi Hm' Hi' Hx Hy Hx' Hy'.
  split; [| split; [| split]].
  - split; [apply packInstanceId_high | apply packInstanceId_low]; assumption.
  - intros Heq. split.
    + rewrite <- (packInstanceId_high mapId instanceId Hm Hi), Heq.
      apply packInstanceId_high; assumption.
    + rewrite <- (packInstanceId_low mapId instanceId Hm Hi), Heq.
      apply packInstanceId_low; assumption.
  - split; [apply packTileID_high | apply packTileID_low]; assumption.
  - intros Heq. split.
    + rewrite <- (packTileID_high x y Hx Hy), Heq.
      apply packTileID_high; assumption.
    + rewrite <- (packTileID_low x y Hx Hy), Heq.
      apply packTileID_low; assumption.
Qed.

Lemma packing_bijective_witness :
  (Z.shiftr (packInstanceId 571 4294967295) 32 = 571 /\
   Z.land (packInstanceId 571 4294967295) (2 ^ 32 - 1) = 4294967295) /\
  (packInstanceId 571 4294967295 = packInstanceId 0 7 ->
   571 = 0 /\ 4294967295 = 7) /\
  (tileX (packTileID 65535 30) = 65535 /\ tileY (packTileID 65535 30) = 30) /\
  (packTileID 65535 30 = packTileID 30 65535 -> 65535 = 30 /\ 30 = 65535).
Proof.
  apply (packing_bijective 571 4294967295 0 7 65535 30 30 65535);
    unfold in_uint32, in_uint16; lia.
Defined.

(** ** [unloadMap(mapId)] and the instances of a map *)

(** What [unloadMap(mapId)] leaves behind: an entry of the map under an
    instance other than 0 is not unloaded. *)
Lemma unloadMap_mapId_keeps_instance `{Engine : Detour} (s : MMapManager)
    (mapId instanceId : Z) (mmap : MMapData) :
  in_uint32 mapId -> in_uint32 instanceId -> instanceId <> 0 ->
  m_loadedMMaps s !! packInstanceId mapId instanceId = Some mmap ->
  exists t v s',
    unloadMap_mapId mapId s = (t, Returns v s') /\
    m_loadedMMaps s' !! packInstanceId mapId instanceId = Some mmap.
Proof.
  intros Hm Hi Hne Hk.
  assert (Hkey : to_uint64 (Z.shiftl (to_uint64 mapId) 32)
                 <> packInstanceId mapId instanceId).
  { intros Heq. apply Hne.
    rewrite <- (packInstanceId_low mapId instanceId Hm Hi), <- Heq.
    rewrite <- (Z.lor_0_r (to_uint64 (Z.shiftl (to_uint64 mapId) 32))).
    fold (packInstanceId mapId 0).
    apply packInstanceId_low; [assumption | unfold in_uint32; lia]. }
  pose proof (unloadMap_mapId_run mapId s) as Hrun. cbv zeta in Hrun.
  destruct (m_loadedMMaps s !! to_uint64 (Z.shiftl (to_uint64 mapId) 32))
    as [mmap0 |].
  - destruct Hrun as [t ->]. eexists _, _, _. split; [reflexivity |].
    cbn. rewrite lookup_delete_ne by exact Hkey. exact Hk.
  - rewrite Hrun. eexists _, _, _. split; [reflexivity | exact Hk].
Qed.

(** C1 (the code departs from it). A manager holds one entry, for map 1 and
    instance 5, with the tile [(30, 30)] resident. [unloadMap(1)] finds
    nothing to unload: it returns [false], and the entry, its tile and the
    counter are what they were, as the loop compares the whole key with
    [uint64(mapId) << 32], the key of instance 0. *)
Theorem unloadMap_mapId_misses_instance :
  m_loadedMMaps s1 !! packInstanceId 1 5 = Some mmap1 /\
  Z.shiftr (packInstanceId 1 5) 32 = 1 /\
  IsMMapTileLoaded s1 1 5 30 30 = true /\
  unloadMap_mapId 1 s1 = ([], Returns false s1) /\
  m_loadedTiles s1 = 1.
Proof.
  split; [| split; [| split; [| split]]]; vm_compute; reflexivity.
Qed.

(** ** The theorems at work on the small engine *)

Lemma load_unload_cycle_witness :
  @removes_added_tile engine0 /\
  loadMap magic0 version0 w0 1 5 30 30 0 new0 = (events run1, Returns true s1) /\
  IsMMapTileLoaded new0 1 5 (to_uint32 30) (to_uint32 30) = false /\
  IsMMapTileLoaded s1 1 5 (to_uint32 30) (to_uint32 30) = true /\
  exists s2,
    unloadMap 1 5 30 30 s1 = ([], Returns true s2) /\
    (exists mmap2,
       m_loadedMMaps s2 !! packInstanceId 1 5 = Some mmap2 /\
       mmapLoadedTiles mmap2 !! packTileID 30 30 = None) /\
    IsMMapTileLoaded s2 1 5 (to_uint32 30) (to_uint32 30) = false /\
    unloadMap 1 5 30 30 s2 = ([], Returns false s2).
Proof.
  assert (Hengine : @removes_added_tile engine0)
    by (intros mesh mesh' data size dtResult tileRef _ _; reflexivity).
  assert (Hload : loadMap magic0 version0 w0 1 5 30 30 0 new0
                  = (events run1, Returns true s1))
    by (vm_compute; reflexivity).
  split; [exact Hengine | split; [exact Hload |]].
  exact (load_unload_cycle magic0 version0 w0 new0 s1 1 5 30 30 0 (events run1)
           Hengine Hload).
Defined.

Lemma loadMap_duplicate_fails_witness :
  m_loadedMMaps s1 !! packInstanceId 1 5 = Some mmap1 /\
  mmapLoadedTiles mmap1 !! packTileID 30 30 = Some 1 /\
  exists s',
    loadMap magic0 version0 w0 1 5 30 30 0 s1 = ([EvOutError], Returns false s') /\
    s' = s1 /\
    m_loadedMMaps s' !! packInstanceId 1 5 = Some mmap1 /\
    m_loadedTiles s' = m_loadedTiles s1.
Proof.
  assert (Hk : m_loadedMMaps s1 !! packInstanceId 1 5 = Some mmap1)
    by (vm_compute; reflexivity).
  assert (Ht : mmapLoadedTiles mmap1 !! packTileID 30 30 = Some 1)
    by (vm_compute; reflexivity).
  split; [exact Hk | split; [exact Ht |]].
  exact (loadMap_duplicate_fails magic0 version0 w0 s1 1 5 30 30 0 mmap1 1 Hk Ht).
Defined.

Lemma bad_header_rejected_before_size_witness :
  (mmapMagic (fileHeader badTile) <> magic0
   \/ mmapVersion (fileHeader badTile) <> version0) /\
  tileFile wBad 1 30 30 0 = Some badTile /\
  modelFile wBad 1 = Some badTile /\
  Forall (fun e => uses_size e = false)
    (events (loadMap magic0 version0 wBad 1 5 30 30 0 new0)) /\
  Forall (fun e => uses_size e = false)
    (events (loadGameObject magic0 version0 wBad 1 new0)).
Proof.
  assert (Hbad : mmapMagic (fileHeader badTile) <> magic0
                 \/ mmapVersion (fileHeader badTile) <> version0)
    by (left; discriminate).
  assert (Htile : tileFile wBad 1 30 30 0 = Some badTile) by reflexivity.
  assert (Hmodel : modelFile wBad 1 = Some badTile) by reflexivity.
  destruct (bad_header_rejected_before_size magic0 version0 wBad new0
              1 5 30 30 0 1 badTile Hbad) as [Hl Hg].
  repeat split; [exact Hbad | exact (proj1 (Hl Htile)) | exact (proj1 (Hg Hmodel))].
Defined.

Lemma unloadMap_fatal_iff_removeTile_fails_witness :
  m_loadedMMaps sF !! packInstanceId 1 5 = Some mmapF /\
  mmapLoadedTiles mmapF !! packTileID 30 30 = Some 1 /\
  @dtStatusFailed engineF (fst (removeTile (navMesh mmapF) 1)) = true /\
  unloadMap 1 5 30 30 sF = ([EvOutError], AssertFailed).
Proof.
  assert (Hk : m_loadedMMaps sF !! packInstanceId 1 5 = Some mmapF)
    by (vm_compute; reflexivity).
  assert (Ht : mmapLoadedTiles mmapF !! packTileID 30 30 = Some 1)
    by (vm_compute; reflexivity).
  assert (Hf : @dtStatusFailed engineF (fst (removeTile (navMesh mmapF) 1)) = true)
    by reflexivity.
  split; [exact Hk | split; [exact Ht | split; [exact Hf |]]].
  apply (proj1 (unloadMap_fatal_iff_removeTile_fails sF 1 5 30 30)).
  exists mmapF, 1. auto.
Defined.

Lemma unloadMapInstance_frame_witness :
  m_loadedMMaps s1q !! packInstanceId 1 5 = Some mmap1q /\
  navMeshQueries mmap1q !! 5 = Some 1024 /\
  m_loadedMMaps s1q !! packInstanceId 1 6 = None /\
  unloadMapInstance 1 5 s1q
  = ([EvFreeNavMeshQuery],
     Returns true
       {| m_loadedMMaps :=
            <[packInstanceId 1 5 :=
                {| navMesh := navMesh mmap1q;
                   navMeshQueries := delete 5 (navMeshQueries mmap1q);
                   mmapLoadedTiles := mmapLoadedTiles mmap1q |}]>
              (m_loadedMMaps s1q);
          m_loadedModels := m_loadedModels s1q;
          m_loadedTiles := m_loadedTiles s1q |}) /\
  unloadMapInstance 1 6 s1q = ([], Returns false s1q).
Proof.
  assert (Hk : m_loadedMMaps s1q !! packInstanceId 1 5 = Some mmap1q)
    by (vm_compute; reflexivity).
  assert (Hq : navMeshQueries mmap1q !! 5 = Some 1024)
    by (vm_compute; reflexivity).
  assert (Hn : m_loadedMMaps s1q !! packInstanceId 1 6 = None)
    by (vm_compute; reflexivity).
  split; [exact Hk | split; [exact Hq | split; [exact Hn | split]]].
  - exact (proj1 (unloadMapInstance_frame s1q 1 5) mmap1q 1024 Hk Hq).
  - exact (proj1 (proj2 (unloadMapInstance_frame s1q 1 6)) Hn).
Defined.

Lemma packTileID_collision_witness :
  IsMMapTileLoaded s3 1 0 (to_uint32 3) (to_uint32 (-1)) = true /\
  IsMMapTileLoaded s3 1 0 (to_uint32 7) (to_uint32 (-1)) = true /\
  loadMap magic0 version0 w0 1 0 7 (-1) 0 s3 = ([EvOutError], Returns false s3) /\
  unloadMap 1 0 7 (-1) s3 = unloadMap 1 0 3 (-1) s3.
Proof.
  assert (Hres : IsMMapTileLoaded s3 1 0 (to_uint32 3) (to_uint32 (-1)) = true)
    by (vm_compute; reflexivity).
  split; [exact Hres |].
  exact (proj2 (proj2 (packTileID_collision magic0 version0 3 7)) w0 s3 1 0 0 Hres).
Defined.

Lemma loaded_tiles_counter_invariant_witness :
  @removeTile_succeeds engine0 /\
  reachable magic0 version0 s1 /\
  m_loadedTiles s1 = to_uint32 (residentTiles s1) /\
  (residentTiles s1 < 2 ^ 32 -> m_loadedTiles s1 = residentTiles s1) /\
  (forall (c : Call) (t : list Event) (s' : MMapManager),
     exec magic0 version0 c s1 = (t, Returns tt s') ->
     m_loadedTiles s'
     = to_uint32 (m_loadedTiles s1 + (residentTiles s' - residentTiles s1))).
Proof.
  assert (Hok : @removeTile_succeeds engine0) by (intros mesh tileRef; reflexivity).
  assert (Hreach : reachable magic0 version0 s1).
  { apply (reachable_call magic0 version0 (CallLoadMap w0 1 5 30 30 0)
             new0 s1 (events run1)); [apply reachable_new |].
    vm_compute; reflexivity. }
  split; [exact Hok | split; [exact Hreach |]].
  exact (loaded_tiles_counter_invariant magic0 version0 s1 Hok Hreach).
Defined.

(** With the engine that refuses every removal, [unloadMap(1)] on a manager
    with the tile [(30, 30)] of map 1, instance 0, drops the entry and
    leaves the counter at 1. *)
Example counter_drifts_when_removal_fails :
  result (unloadMap_mapId 1 sF0) = Returns true sF1 /\
  m_loadedTiles sF1 = 1 /\ residentTiles sF1 = 0.
Proof.
  split; [| split]; vm_compute; reflexivity.
Qed.

(** ** More on the packed keys *)

Lemma testbit_negative_high (y k n : Z) :
  - 2 ^ k <= y < 0 -> 0 <= k <= n -> Z.testbit y n = true.
Proof.
  intros Hy Hk.
  replace y with (- (- y - 1 + 1)) by lia.
  rewrite Z.bits_opp by lia.
  replace (Z.pred (- y - 1 + 1)) with (- y - 1) by lia.
  rewrite (testbit_above (- y - 1) k n) by lia. reflexivity.
Qed.

(** X1. As numbers: [packInstanceId] of two [uint32] is [mapId * 2^32 +
    instanceId], a [uint64]; [packTileID] of two 16-bit coordinates is
    [x * 65536 + y]. *)
Theorem packed_keys_arith (mapId instanceId x y : Z) :
  in_uint32 mapId -> in_uint32 instanceId -> in_uint16 x -> in_uint16 y ->
  packInstanceId mapId instanceId = mapId * 2 ^ 32 + instanceId /\
  0 <= packInstanceId mapId instanceId < 2 ^ 64 /\
  packTileID x y = x * 65536 + y.
Proof.
  intros Hm Hi Hx Hy.
  assert (Hk : packInstanceId mapId instanceId = mapId * 2 ^ 32 + instanceId).
  { pose proof (packInstanceId_high mapId instanceId Hm Hi) as Hh.
    pose proof (packInstanceId_low mapId instanceId Hm Hi) as Hl.
    change (2 ^ 32 - 1) with (Z.ones 32) in Hl.
    rewrite Z.land_ones in Hl by lia.
    rewrite Z.shiftr_div_pow2 in Hh by lia.
    rewrite (Z.div_mod (packInstanceId mapId instanceId) (2 ^ 32)) by lia.
    rewrite Hh, Hl. lia. }
  split; [exact Hk | split].
  - rewrite Hk. unfold in_uint32 in *. lia.
  - pose proof (packTileID_high x y Hx Hy) as Hh.
    pose proof (packTileID_low x y Hx Hy) as Hl.
    unfold tileX, tileY in *.
    change 65535 with (Z.ones 16) in Hl.
    rewrite Z.land_ones in Hl by lia.
    rewrite Z.shiftr_div_pow2 in Hh by lia.
    rewrite (Z.div_mod (packTileID x y) (2 ^ 16)) by lia.
    rewrite Hh, Hl. lia.
Qed.

Lemma packed_keys_arith_witness :
  packInstanceId 571 7 = 571 * 2 ^ 32 + 7 /\
  0 <= packInstanceId 571 7 < 2 ^ 64 /\
  packTileID 30 31 = 30 * 65536 + 31.
Proof.
  apply (packed_keys_arith 571 7 30 31); unfold in_uint32, in_uint16; lia.
Defined.

(** X2. Outside the 16-bit range the tile key loses information: it is always
    a [uint32]; it depends on [x] through [x mod 2^16] only; and for a
    negative [y], down to [-65536], it does not depend on [x] at all. *)
Theorem packTileID_out_of_range (x x' y : Z) :
  0 <= packTileID x y < 2 ^ 32 /\
  (x mod 65536 = x' mod 65536 -> packTileID x y = packTileID x' y) /\
  (- 65536 <= y < 0 -> packTileID x y = 2 ^ 32 + y).
Proof.
  split; [| split].
  - unfold packTileID, to_uint32. apply Z.mod_pos_bound. lia.
  - intros Hmod. apply Z.bits_inj'. intros n Hn.
    rewrite !packTileID_testbit by lia.
    destruct (Z.ltb_spec n 32) as [Hlt | Hge]; [| reflexivity].
    f_equal.
    destruct (Z.ltb_spec n 16) as [Hlo | Hhi].
    + rewrite !(Z.testbit_neg_r _ (n - 16)) by lia. reflexivity.
    + rewrite <- (Z.mod_pow2_bits_low x 16 (n - 16)) by lia.
      rewrite <- (Z.mod_pow2_bits_low x' 16 (n - 16)) by lia.
      change (2 ^ 16) with 65536. rewrite Hmod. reflexivity.
  - intros Hy.
    replace (2 ^ 32 + y) with (y mod 2 ^ 32)
      by (rewrite <- (Z.mod_small (2 ^ 32 + y) (2 ^ 32)) by lia;
          rewrite <- Z.add_mod_idemp_l, Z.mod_same by lia; reflexivity).
    apply Z.bits_inj'. intros n Hn.
    rewrite packTileID_testbit by lia.
    destruct (Z.ltb_spec n 32) as [Hlt | Hge].
    + rewrite Z.mod_pow2_bits_low by lia.
      destruct (Z.ltb_spec n 16) as [Hlo | Hhi].
      * rewrite (Z.testbit_neg_r _ (n - 16)) by lia. reflexivity.
      * rewrite (testbit_negative_high y 16 n) by lia. apply orb_true_r.
    + rewrite Z.mod_pow2_bits_high by lia. reflexivity.
Qed.

Lemma packTileID_out_of_range_witness :
  0 <= packTileID 3 (-5) < 2 ^ 32 /\
  packTileID 3 (-5) = packTileID 65539 (-5) /\
  packTileID 3 (-5) = 2 ^ 32 + -5.
Proof.
  destruct (packTileID_out_of_range 3 65539 (-5)) as (Hr & Hx & Hy).
  split; [exact Hr | split; [apply Hx; reflexivity | apply Hy; lia]].
Defined.

Lemma packTileID_range (x y : Z) : 0 <= packTileID x y < 2 ^ 32.
Proof. unfold packTileID, to_uint32. apply Z.mod_pos_bound. lia. Qed.

Lemma packed_key_decompose (k : Z) :
  0 <= k < 2 ^ 32 ->
  packTileID (tileX k) (tileY k) = k /\ k = tileX k * 65536 + tileY k.
Proof.
  intros Hk.
  assert (Hx : in_uint16 (tileX k)).
  { unfold in_uint16, tileX. rewrite Z.shiftr_div_pow2 by lia.
    split; [apply Z.div_pos; lia | apply Z.div_lt_upper_bound; lia]. }
  assert (Hy : in_uint16 (tileY k)).
  { unfold in_uint16, tileY. change 65535 with (Z.ones 16).
    rewrite Z.land_ones by lia. apply Z.mod_pos_bound. lia. }
  assert (Hsum : k = tileX k * 65536 + tileY k).
  { unfold tileX, tileY. change 65535 with (Z.ones 16).
    rewrite Z.land_ones, Z.shiftr_div_pow2 by lia.
    rewrite (Z.div_mod k (2 ^ 16)) at 1 by lia. lia. }
  split; [| exact Hsum].
  pose proof (packTileID_high _ _ Hx Hy) as Hh.
  pose proof (packTileID_low _ _ Hx Hy) as Hl.
  remember (packTileID (tileX k) (tileY k)) as P eqn:HP.
  unfold tileX at 1 in Hh. unfold tileY at 1 in Hl.
  change 65535 with (Z.ones 16) in Hl.
  rewrite Z.land_ones in Hl by lia. rewrite Z.shiftr_div_pow2 in Hh by lia.
  pose proof (Z.div_mod P (2 ^ 16)) as Hdm.
  rewrite Hh, Hl in Hdm. lia.
Qed.

(** ** More on the operations *)

Section MoreProofs.

Context `{Engine : Detour}.
Variable MMAP_MAGIC : Z.
Variable MMAP_VERSION : Z.

(** *** [loadMapData] *)



Lemma IsMMapTileLoaded_raw (s : MMapManager) (mapId instanceId x y : Z) :
  IsMMapTileLoaded s mapId instanceId x y
  = match m_loadedMMaps s !! packInstanceId mapId instanceId with
    | Some mmap =>
        bool_decide
          (is_Some (mmapLoadedTiles mmap !! packTileID (to_int32 x) (to_int32 y)))
    | None => false
    end.
Proof.
  unfold IsMMapTileLoaded.
  destruct (m_loadedMMaps s !! packInstanceId mapId instanceId) as [mmap |];
    [| reflexivity].
  destruct (mmapLoadedTiles mmap !! packTileID (to_int32 x) (to_int32 y)) eqn:Ht.
  - symmetry. apply bool_decide_eq_true. eauto.
  - symmetry. apply bool_decide_eq_false. intros [? ?]. discriminate.
Qed.



(** *** [loadMap] *)

(** The tile set stored under a key, empty when there is no entry. *)
Lemma IsMMapTileLoaded_tiles_ext (s s' : MMapManager) :
  (forall key,
     default ∅ (mmapLoadedTiles <$> m_loadedMMaps s' !! key)
     = default ∅ (mmapLoadedTiles <$> m_loadedMMaps s !! key)) ->
  forall mapId instanceId x y,
    IsMMapTileLoaded s' mapId instanceId x y
    = IsMMapTileLoaded s mapId instanceId x y.
Proof.
  intros Hext mapId instanceId x y. rewrite !IsMMapTileLoaded_raw.
  specialize (Hext (packInstanceId mapId instanceId)).
  destruct (m_loadedMMaps s' !! packInstanceId mapId instanceId) as [d' |],
           (m_loadedMMaps s !! packInstanceId mapId instanceId) as [d |];
    cbn in Hext.
  - rewrite Hext. reflexivity.
  - rewrite Hext, lookup_empty. apply bool_decide_eq_false.
    intros [? ?]. discriminate.
  - rewrite <- Hext, lookup_empty. symmetry. apply bool_decide_eq_false.
    intros [? ?]. discriminate.
  - reflexivity.
Qed.

Lemma tiles_view_insert_same (entries : gmap Z MMapData) (key key' : Z)
    (old new : MMapData) :
  entries !! key = Some old ->
  mmapLoadedTiles new = mmapLoadedTiles old ->
  default ∅ (mmapLoadedTiles <$> <[key := new]> entries !! key')
  = default ∅ (mmapLoadedTiles <$> entries !! key').
Proof.
  intros Hk Ht. destruct (decide (key = key')) as [<- | Hne].
  - rewrite lookup_insert_eq, Hk. cbn. exact Ht.
  - rewrite lookup_insert_ne by exact Hne. reflexivity.
Qed.

Lemma tiles_view_insert_empty (entries : gmap Z MMapData) (key key' : Z)
    (new : MMapData) :
  entries !! key = None ->
  mmapLoadedTiles new = ∅ ->
  default ∅ (mmapLoadedTiles <$> <[key := new]> entries !! key')
  = default ∅ (mmapLoadedTiles <$> entries !! key').
Proof.
  intros Hk Ht. destruct (decide (key = key')) as [<- | Hne].
  - rewrite lookup_insert_eq, Hk. cbn. exact Ht.
  - rewrite lookup_insert_ne by exact Hne. reflexivity.
Qed.

(** What [loadMapData] leaves as it was, whatever it returns. *)
Lemma loadMapData_frame (w : World) (s s0 : MMapManager) (mapId instanceId : Z)
    (t : list Event) (b : bool) :
  loadMapData w mapId instanceId s = (t, Returns b s0) ->
  m_loadedTiles s0 = m_loadedTiles s /\
  m_loadedModels s0 = m_loadedModels s /\
  residentTiles s0 = residentTiles s /\
  (forall key, key <> packInstanceId mapId instanceId ->
               m_loadedMMaps s0 !! key = m_loadedMMaps s !! key) /\
  (forall mmap, m_loadedMMaps s !! packInstanceId mapId instanceId = Some mmap ->
                m_loadedMMaps s0 !! packInstanceId mapId instanceId = Some mmap) /\
  (forall key,
     default ∅ (mmapLoadedTiles <$> m_loadedMMaps s0 !! key)
     = default ∅ (mmapLoadedTiles <$> m_loadedMMaps s !! key)).
Proof.
  intros Hrun.
  apply loadMapData_returns in Hrun
    as [(_ & -> & _) | [(_ & -> & _) | (_ & Hk & mesh & ->)]];
    try (repeat split; auto; fail).
  split; [reflexivity | split; [reflexivity | split; [| split; [| split]]]].
  - unfold residentTiles, registered. cbn.
    rewrite countTiles_insert_fresh by exact Hk. cbn.
    rewrite map_size_empty. lia.
  - intros key Hne. cbn. apply lookup_insert_ne. congruence.
  - intros mmap Hk'. congruence.
  - intros key. cbn. apply tiles_view_insert_empty; [exact Hk | reflexivity].
Qed.

(** X6. A [loadMap] that returns [false] has loaded nothing: the counter, the
    models, every entry under another key and the answer of
    [IsMMapTileLoaded] for every map, instance and coordinate are what
    they were. *)
Theorem loadMap_failure_frame (w : World) (s s' : MMapManager)
    (mapId instanceId x y number : Z) (t : list Event) :
  loadMap MMAP_MAGIC MMAP_VERSION w mapId instanceId x y number s
  = (t, Returns false s') ->
  m_loadedTiles s' = m_loadedTiles s /\
  residentTiles s' = residentTiles s /\
  m_loadedModels s' = m_loadedModels s /\
  (forall key, key <> packInstanceId mapId instanceId ->
               m_loadedMMaps s' !! key = m_loadedMMaps s !! key) /\
  (forall mapId' instanceId' x' y',
     IsMMapTileLoaded s' mapId' instanceId' x' y'
     = IsMMapTileLoaded s mapId' instanceId' x' y').
Proof.
  intros Hrun.
  apply loadMap_returns in Hrun as (t0 & b & s0 & Hd & Hcases).
  apply loadMapData_frame in Hd as (Hc & Hm & Hr & Hother & _ & Hview).
  destruct Hcases
    as [[_ ->] | [(_ & mmap & mesh & Hk & ->) | ([=] & _)]].
  - repeat split; auto. apply IsMMapTileLoaded_tiles_ext. exact Hview.
  - split; [exact Hc | split; [| split; [exact Hm | split]]].
    + rewrite <- Hr. unfold residentTiles. cbn.
      rewrite (countTiles_insert _ _ mmap _ Hk). cbn. lia.
    + intros key Hne. cbn. rewrite lookup_insert_ne by congruence.
      apply Hother, Hne.
    + apply IsMMapTileLoaded_tiles_ext. intros key. cbn.
      rewrite (tiles_view_insert_same _ _ key mmap _ Hk) by reflexivity.
      apply Hview.
Qed.

(** X7. A [loadMap] that returns [true] has loaded exactly the tile it was
    asked for: the counter has gone up by one, the entry exists, the tile
    is resident next to the tiles resident before, and the models and the
    entries under other keys are unchanged. *)
Theorem loadMap_success_effect (w : World) (s s' : MMapManager)
    (mapId instanceId x y number : Z) (t : list Event) :
  loadMap MMAP_MAGIC MMAP_VERSION w mapId instanceId x y number s
  = (t, Returns true s') ->
  m_loadedTiles s' = to_uint32 (m_loadedTiles s + 1) /\
  residentTiles s' = residentTiles s + 1 /\
  m_loadedModels s' = m_loadedModels s /\
  is_Some (GetNavMesh s' mapId instanceId) /\
  (forall key, key <> packInstanceId mapId instanceId ->
               m_loadedMMaps s' !! key = m_loadedMMaps s !! key) /\
  (forall x' y',
     IsMMapTileLoaded s' mapId instanceId x' y'
     = IsMMapTileLoaded s mapId instanceId x' y'
       || (packTileID (to_int32 x') (to_int32 y') =? packTileID x y)).
Proof.
  intros Hrun.
  apply loadMap_returns in Hrun as (t0 & b & s0 & Hd & Hcases).
  apply loadMapData_frame in Hd as (Hc & Hm & Hr & Hother & _ & Hview).
  destruct Hcases
    as [[[=] _] | [([=] & _)
                  | (_ & mmap & mesh & tileRef & data & size & dtResult
                     & Hk & Ht & _ & _ & ->)]].
  split; [cbn; rewrite Hc; reflexivity | split; [| split; [exact Hm | split; [| split]]]].
  - rewrite <- Hr. unfold residentTiles. cbn.
    rewrite (countTiles_insert _ _ mmap _ Hk). cbn.
    rewrite map_size_insert_None by exact Ht. lia.
  - unfold GetNavMesh. cbn. rewrite lookup_insert_eq. eauto.
  - intros key Hne. cbn. rewrite lookup_insert_ne by congruence.
    apply Hother, Hne.
  - intros x' y'. rewrite !IsMMapTileLoaded_raw. cbn.
    rewrite lookup_insert_eq. cbn.
    specialize (Hview (packInstanceId mapId instanceId)).
    rewrite Hk in Hview. cbn in Hview.
    destruct (Z.eqb_spec (packTileID (to_int32 x') (to_int32 y')) (packTileID x y))
      as [-> | Hne].
    + rewrite lookup_insert_eq, orb_true_r.
      apply bool_decide_eq_true. eauto.
    + rewrite lookup_insert_ne by congruence. rewrite orb_false_r.
      destruct (m_loadedMMaps s !! packInstanceId mapId instanceId) as [d |];
        cbn in Hview.
      * rewrite Hview. reflexivity.
      * rewrite Hview, lookup_empty. apply bool_decide_eq_false.
        intros [? ?]. discriminate.
Qed.


(** X9. A tile file with a good header whose payload is shorter than the size
    the header gives, or whose size is zero, is refused after the buffer
    has been allocated: [loadMap] logs an error, closes the file and
    returns [false] with the manager unchanged; the buffer is neither
    handed to the engine nor freed. *)
Theorem loadMap_truncated_payload (w : World) (s : MMapManager)
    (mapId instanceId x y number : Z) (mmap : MMapData) (file : MmtileFile) :
  m_loadedMMaps s !! packInstanceId mapId instanceId = Some mmap ->
  mmapLoadedTiles mmap !! packTileID x y = None ->
  tileFile w mapId x y number = Some file ->
  mmapMagic (fileHeader file) = MMAP_MAGIC ->
  mmapVersion (fileHeader file) = MMAP_VERSION ->
  dtAlloc_ok w (payloadSize (fileHeader file)) = true ->
  payloadSize (fileHeader file) <= 0
  \/ Z.of_nat (length (payload file)) < payloadSize (fileHeader file) ->
  loadMap MMAP_MAGIC MMAP_VERSION w mapId instanceId x y number s
  = ([EvFopen (TileFile mapId x y number); EvFreadHeader;
      EvDtAlloc (payloadSize (fileHeader file));
      EvFreadData (payloadSize (fileHeader file));
      EvOutError; EvFclose],
     Returns false s).
Proof.
  intros Hk Ht Hfile Hmagic Hversion Halloc Hshort.
  assert (Hread : fread_data file (payloadSize (fileHeader file)) = None).
  { unfold fread_data.
    destruct (Z.ltb_spec 0 (payloadSize (fileHeader file))) as [Hpos | Hneg];
      [| reflexivity].
    destruct (Z.leb_spec (payloadSize (fileHeader file))
                         (Z.of_nat (length (payload file)))); [lia | reflexivity]. }
  unfold loadMap. rewrite bind_run.
  rewrite (loadMapData_loaded w s mapId instanceId mmap Hk).
  run_call. rewrite Hk, Ht. cbn. rewrite Hfile. cbn.
  rewrite Hmagic, Hversion, !Z.eqb_refl. cbn.
  rewrite Halloc. cbn. rewrite Hread. reflexivity.
Qed.

(** X10. When the engine refuses the tile, [loadMap] logs an error, frees the
    buffer and returns [false]: no tile key is recorded and the counter
    is unchanged; the entry keeps the mesh as the engine left it. *)
Theorem loadMap_addTile_fails (w : World) (s : MMapManager)
    (mapId instanceId x y number : Z) (mmap : MMapData) (file : MmtileFile)
    (data : list Byte.byte) (dtResult tileRef : Z) (mesh : dtNavMesh) :
  m_loadedMMaps s !! packInstanceId mapId instanceId = Some mmap ->
  mmapLoadedTiles mmap !! packTileID x y = None ->
  tileFile w mapId x y number = Some file ->
  mmapMagic (fileHeader file) = MMAP_MAGIC ->
  mmapVersion (fileHeader file) = MMAP_VERSION ->
  dtAlloc_ok w (payloadSize (fileHeader file)) = true ->
  fread_data file (payloadSize (fileHeader file)) = Some data ->
  addTile (navMesh mmap) data (to_int32 (payloadSize (fileHeader file)))
  = (dtResult, tileRef, mesh) ->
  dtStatusFailed dtResult = true ->
  exists s',
    loadMap MMAP_MAGIC MMAP_VERSION w mapId instanceId x y number s
    = ([EvFopen (TileFile mapId x y number); EvFreadHeader;
        EvDtAlloc (payloadSize (fileHeader file));
        EvFreadData (payloadSize (fileHeader file));
        EvFclose; EvAddTile (to_int32 (payloadSize (fileHeader file)));
        EvOutError; EvDtFree],
       Returns false s') /\
    m_loadedMMaps s' !! packInstanceId mapId instanceId
    = Some {| navMesh := mesh;
              navMeshQueries := navMeshQueries mmap;
              mmapLoadedTiles := mmapLoadedTiles mmap |} /\
    m_loadedTiles s' = m_loadedTiles s /\
    IsMMapTileLoaded s' mapId instanceId (to_uint32 x) (to_uint32 y) = false.
Proof.
  intros Hk Ht Hfile Hmagic Hversion Halloc Hread Hadd Hst.
  eexists. split; [| split; [| split]].
  - unfold loadMap. rewrite bind_run.
    rewrite (loadMapData_loaded w s mapId instanceId mmap Hk).
    run_call. rewrite Hk, Ht. cbn. rewrite Hfile. cbn.
    rewrite Hmagic, Hversion, !Z.eqb_refl. cbn.
    rewrite Halloc. cbn. rewrite Hread. cbn. rewrite Hadd. cbn.
    rewrite Hst. cbn. reflexivity.
  - cbn. apply lookup_insert_eq.
  - reflexivity.
  - apply IsMMapTileLoaded_false. intros mmap' Hk'. cbn in Hk'.
    rewrite lookup_insert_eq in Hk'. injection Hk' as <-. exact Ht.
Qed.

(** *** [unloadMap] of one tile *)

Lemma unloadMap_returns_true (s s' : MMapManager) (mapId instanceId x y : Z)
    (t : list Event) :
  unloadMap mapId instanceId x y s = (t, Returns true s') ->
  exists mmap tileRef,
    m_loadedMMaps s !! packInstanceId mapId instanceId = Some mmap /\
    mmapLoadedTiles mmap !! packTileID x y = Some tileRef /\
    dtStatusFailed (fst (removeTile (navMesh mmap) tileRef)) = false /\
    t = [] /\
    s' = unloaded s (packInstanceId mapId instanceId) (packTileID x y) mmap tileRef.
Proof.
  destruct (m_loadedMMaps s !! packInstanceId mapId instanceId) as [mmap |] eqn:Hk.
  - destruct (mmapLoadedTiles mmap !! packTileID x y) as [tileRef |] eqn:Ht.
    + destruct (dtStatusFailed (fst (removeTile (navMesh mmap) tileRef))) eqn:Hf.
      * rewrite (unloadMap_engine_fails s mapId instanceId x y mmap tileRef Hk Ht Hf).
        discriminate.
      * rewrite (unloadMap_engine_succeeds s mapId instanceId x y mmap tileRef Hk Ht Hf).
        intros [= <- <-]. exists mmap, tileRef. auto.
    + rewrite (unloadMap_no_tile s mapId instanceId x y mmap Hk Ht). discriminate.
  - rewrite (unloadMap_no_entry s mapId instanceId x y Hk). discriminate.
Qed.

(** X11. An [unloadMap] that returns [true] has unloaded exactly the tile it
    was asked for: the counter has gone down by one, the entry is still
    there with its queries, the other tiles of the entry are resident as
    before, and the models and the entries under other keys are
    unchanged. *)
Theorem unloadMap_success_effect (s s' : MMapManager) (mapId instanceId x y : Z)
    (t : list Event) :
  unloadMap mapId instanceId x y s = (t, Returns true s') ->
  m_loadedTiles s' = to_uint32 (m_loadedTiles s - 1) /\
  residentTiles s' = residentTiles s - 1 /\
  m_loadedModels s' = m_loadedModels s /\
  is_Some (GetNavMesh s' mapId instanceId) /\
  (forall mmap mmap',
     m_loadedMMaps s !! packInstanceId mapId instanceId = Some mmap ->
     m_loadedMMaps s' !! packInstanceId mapId instanceId = Some mmap' ->
     navMeshQueries mmap' = navMeshQueries mmap) /\
  (forall key, key <> packInstanceId mapId instanceId ->
               m_loadedMMaps s' !! key = m_loadedMMaps s !! key) /\
  (forall x' y',
     IsMMapTileLoaded s' mapId instanceId x' y'
     = IsMMapTileLoaded s mapId instanceId x' y'
       && negb (packTileID (to_int32 x') (to_int32 y') =? packTileID x y)).
Proof.
  intros Hrun.
  apply unloadMap_returns_true in Hrun
    as (mmap & tileRef & Hk & Ht & _ & _ & ->).
  split; [reflexivity | split; [| split; [reflexivity | split; [| split; [| split]]]]].
  - unfold residentTiles. cbn.
    rewrite (countTiles_insert _ _ mmap _ Hk). cbn.
    rewrite map_size_delete_Some by eauto.
    assert (size (mmapLoadedTiles mmap) <> 0%nat) as Hpos.
    { intros H0. apply map_size_empty_inv in H0. rewrite H0 in Ht.
      rewrite lookup_empty in Ht. discriminate. }
    lia.
  - unfold GetNavMesh. cbn. rewrite lookup_insert_eq. eauto.
  - intros d d' Hd Hd'. cbn in Hd'. rewrite lookup_insert_eq in Hd'.
    injection Hd' as <-. rewrite Hk in Hd. injection Hd as <-. reflexivity.
  - intros key Hne. cbn. apply lookup_insert_ne. congruence.
  - intros x' y'. rewrite !IsMMapTileLoaded_raw. cbn.
    rewrite lookup_insert_eq, Hk. cbn.
    destruct (Z.eqb_spec (packTileID (to_int32 x') (to_int32 y')) (packTileID x y))
      as [-> | Hne]; cbn.
    + rewrite lookup_delete_eq, andb_false_r.
      apply bool_decide_eq_false. intros [? ?]. discriminate.
    + rewrite lookup_delete_ne by congruence. rewrite andb_true_r. reflexivity.
Qed.

(** *** [unloadMap] of a whole map *)

Lemma removed_refused_count (tiles : list (Z * Z)) (mesh : dtNavMesh) :
  (removed_count tiles mesh + refused_count tiles mesh = length tiles)%nat.
Proof.
  revert mesh.
  induction tiles as [| [packedGridPos tileRef] rest IH]; intros mesh;
    [reflexivity |].
  cbn. destruct (removeTile mesh tileRef) as [dtResult mesh'].
  specialize (IH mesh'). destruct (dtStatusFailed dtResult); cbn; lia.
Qed.

Lemma unloadMap_tiles_trace (tiles : list (Z * Z)) (mesh : dtNavMesh)
    (s : MMapManager) :
  unloadMap_tiles tiles mesh s
  = (replicate (refused_count tiles mesh) EvOutError,
     Returns tt (set_loadedTiles (decremented (removed_count tiles mesh)) s)).
Proof.
  revert mesh s.
  induction tiles as [| [packedGridPos tileRef] rest IH]; intros mesh s.
  - cbn. unfold ret. destruct s; reflexivity.
  - cbn. destruct (removeTile mesh tileRef) as [dtResult mesh'].
    rewrite bind_run.
    destruct (dtStatusFailed dtResult); cbn.
    + rewrite IH. reflexivity.
    + rewrite IH. unfold set_loadedTiles.
      cbn [m_loadedTiles m_loadedMMaps m_loadedModels].
      rewrite decremented_S. reflexivity.
Qed.

Lemma unloadMap_entries_hit_trace (mapId : Z) (before after : list (Z * MMapData))
    (mmap : MMapData) (success : bool) (s : MMapManager) :
  to_uint64 (Z.shiftl (to_uint64 mapId) 32) ∉ before.*1 ->
  to_uint64 (Z.shiftl (to_uint64 mapId) 32) ∉ after.*1 ->
  unloadMap_entries mapId
    (before ++ (to_uint64 (Z.shiftl (to_uint64 mapId) 32), mmap) :: after)
    success s
  = (replicate
       (refused_count (map_to_list (mmapLoadedTiles mmap)) (navMesh mmap))
       EvOutError ++ [EvDeleteMMapData],
     Returns true
       (map_unloaded s (to_uint64 (Z.shiftl (to_uint64 mapId) 32)) mmap)).
Proof.
  intros Hb Ha.
  induction before as [| [key' mmap'] rest IH].
  - cbn. rewrite Z.eqb_refl. cbn. rewrite bind_run, unloadMap_tiles_trace.
    run_call.
    rewrite (unloadMap_entries_miss mapId after true _ Ha). reflexivity.
  - cbn in *. apply not_elem_of_cons in Hb as [Hne Hb].
    destruct (Z.eqb_spec key' (to_uint64 (Z.shiftl (to_uint64 mapId) 32)));
      [congruence |].
    cbn. apply IH, Hb.
Qed.

Lemma unloadMap_mapId_trace (mapId : Z) (s : MMapManager) (mmap : MMapData) :
  m_loadedMMaps s !! to_uint64 (Z.shiftl (to_uint64 mapId) 32) = Some mmap ->
  unloadMap_mapId mapId s
  = (replicate
       (refused_count (map_to_list (mmapLoadedTiles mmap)) (navMesh mmap))
       EvOutError ++ [EvDeleteMMapData],
     Returns true
       (map_unloaded s (to_uint64 (Z.shiftl (to_uint64 mapId) 32)) mmap)).
Proof.
  intros Hk. unfold unloadMap_mapId. rewrite bind_run. cbn.
  pose proof (NoDup_fst_map_to_list (m_loadedMMaps s)) as Hnd.
  apply elem_of_map_to_list in Hk.
  apply list_elem_of_split in Hk as (before & after & Hl).
  rewrite Hl in Hnd |- *.
  rewrite fmap_app, fmap_cons in Hnd. cbn in Hnd.
  apply NoDup_app in Hnd as (_ & Hdisj & Hnd).
  apply NoDup_cons in Hnd as [Ha _].
  assert (Hb : to_uint64 (Z.shiftl (to_uint64 mapId) 32) ∉ before.*1).
  { intros Hin. apply (Hdisj _ Hin). left. }
  rewrite (unloadMap_entries_hit_trace mapId before after mmap false s Hb Ha).
  reflexivity.
Qed.

(** X12. [unloadMap(mapId)] never stops the process, whatever the engine
    answers. With no entry under the key [uint64(mapId) << 32] it returns
    [false] and changes nothing. With one, it returns [true] after one
    error per tile the engine refused to remove; the entry is gone with
    all its tile keys, and the counter has gone down once per tile the
    engine did remove. *)
Theorem unloadMap_mapId_total (s : MMapManager) (mapId : Z) :
  match m_loadedMMaps s !! to_uint64 (Z.shiftl (to_uint64 mapId) 32) with
  | None => unloadMap_mapId mapId s = ([], Returns false s)
  | Some mmap =>
      let tiles := map_to_list (mmapLoadedTiles mmap) in
      exists s',
        unloadMap_mapId mapId s
        = (replicate (refused_count tiles (navMesh mmap)) EvOutError
             ++ [EvDeleteMMapData],
           Returns true s') /\
        m_loadedMMaps s'
        = delete (to_uint64 (Z.shiftl (to_uint64 mapId) 32)) (m_loadedMMaps s) /\
        m_loadedModels s' = m_loadedModels s /\
        m_loadedTiles s'
        = decremented (removed_count tiles (navMesh mmap)) (m_loadedTiles s) /\
        (removed_count tiles (navMesh mmap) + refused_count tiles (navMesh mmap)
         = size (mmapLoadedTiles mmap))%nat
  end.
Proof.
  destruct (m_loadedMMaps s !! to_uint64 (Z.shiftl (to_uint64 mapId) 32))
    as [mmap |] eqn:Hk.
  - cbv zeta. eexists. split; [apply (unloadMap_mapId_trace mapId s mmap Hk) |].
    split; [reflexivity | split; [reflexivity | split; [reflexivity |]]].
    rewrite removed_refused_count. apply length_map_to_list.
  - pose proof (unloadMap_mapId_run mapId s) as Hrun. cbv zeta in Hrun.
    rewrite Hk in Hrun. exact Hrun.
Qed.

(** X13. The entry [unloadMap(mapId)] unloads is the one of instance 0: it
    returns [true] exactly when that entry exists; afterwards there is no
    mesh and no tile for instance 0 of the map, and every entry under
    another key, and every model, is as before. *)
Theorem unloadMap_mapId_instance_zero (s s' : MMapManager) (mapId : Z)
    (t : list Event) (v : bool) :
  unloadMap_mapId mapId s = (t, Returns v s') ->
  (v = true <-> is_Some (GetNavMesh s mapId 0)) /\
  GetNavMesh s' mapId 0 = None /\
  (forall x y, IsMMapTileLoaded s' mapId 0 x y = false) /\
  (forall key, key <> packInstanceId mapId 0 ->
               m_loadedMMaps s' !! key = m_loadedMMaps s !! key) /\
  m_loadedModels s' = m_loadedModels s.
Proof.
  assert (Hkey : packInstanceId mapId 0 = to_uint64 (Z.shiftl (to_uint64 mapId) 32))
    by (unfold packInstanceId; apply Z.lor_0_r).
  pose proof (unloadMap_mapId_run mapId s) as Hrun. cbv zeta in Hrun.
  unfold GetNavMesh. setoid_rewrite IsMMapTileLoaded_raw. rewrite Hkey.
  destruct (m_loadedMMaps s !! to_uint64 (Z.shiftl (to_uint64 mapId) 32))
    as [mmap |] eqn:Hk.
  - destruct Hrun as [t' ->]. intros [= <- <- <-]. cbn.
    rewrite lookup_delete_eq.
    split; [split; eauto | split; [reflexivity | split; [reflexivity | split]]].
    + intros key Hne. apply lookup_delete_ne. congruence.
    + reflexivity.
  - rewrite Hrun. intros [= <- <- <-]. rewrite Hk.
    split; [split; [discriminate | intros [? [=]]] |].
    repeat split; reflexivity.
Qed.

(** *** The query of an instance *)

Lemma GetNavMeshQuery_returns (w : World) (s s' : MMapManager)
    (mapId instanceId : Z) (t : list Event) (v : option dtNavMeshQuery) :
  GetNavMeshQuery w mapId instanceId s = (t, Returns v s') ->
  (v = None /\ s' = s)
  \/ (exists mmap query,
        m_loadedMMaps s !! packInstanceId mapId instanceId = Some mmap /\
        navMeshQueries mmap !! instanceId = Some query /\
        v = Some query /\ t = [] /\ s' = s)
  \/ (exists mmap,
        m_loadedMMaps s !! packInstanceId mapId instanceId = Some mmap /\
        navMeshQueries mmap !! instanceId = None /\
        v = Some (snd (dtNavMeshQuery_init (navMesh mmap) 1024)) /\
        t = [] /\
        s' = set_loadedMMaps
               (insert (packInstanceId mapId instanceId)
                  (set_navMeshQueries
                     (insert instanceId
                        (snd (dtNavMeshQuery_init (navMesh mmap) 1024)))
                     mmap)) s).
Proof.
  unfold GetNavMeshQuery. run_call.
  destruct (m_loadedMMaps s !! packInstanceId mapId instanceId) as [mmap |] eqn:Hk;
    [| intros [= <- <- <-]; left; auto].
  destruct (navMeshQueries mmap !! instanceId) as [query |] eqn:Hq; cbn.
  - intros [= <- <- <-]. right; left. exists mmap, query. auto.
  - destruct (dtAllocNavMeshQuery_ok w); cbn; [| discriminate].
    destruct (dtNavMeshQuery_init (navMesh mmap) 1024) as [dtResult query]
      eqn:Hinit.
    destruct (dtStatusFailed dtResult); cbn; intros [= <- <- <-].
    + left. auto.
    + right; right. exists mmap. rewrite Hinit. repeat split; auto.
      unfold set_navMeshQueries, emplace. rewrite Hq. reflexivity.
Qed.


(** X15. A [GetNavMeshQuery] that returns no query has changed nothing. With
    no entry for the map and the instance it returns none at once; when
    the engine fails to initialise the new query, the query is freed, an
    error is logged, none is returned and nothing is cached. *)
Theorem GetNavMeshQuery_none (w : World) (s : MMapManager) (mapId instanceId : Z) :
  (forall t s', GetNavMeshQuery w mapId instanceId s = (t, Returns None s') ->
                s' = s) /\
  (m_loadedMMaps s !! packInstanceId mapId instanceId = None ->
   GetNavMeshQuery w mapId instanceId s = ([], Returns None s)) /\
  (forall mmap,
     m_loadedMMaps s !! packInstanceId mapId instanceId = Some mmap ->
     navMeshQueries mmap !! instanceId = None ->
     dtAllocNavMeshQuery_ok w = true ->
     dtStatusFailed (fst (dtNavMeshQuery_init (navMesh mmap) 1024)) = true ->
     GetNavMeshQuery w mapId instanceId s
     = ([EvFreeNavMeshQuery; EvOutError], Returns None s)).
Proof.
  split; [| split].
  - intros t s' Hrun.
    apply GetNavMeshQuery_returns in Hrun
      as [(_ & ->) | [(mmap & q & _ & _ & [=] & _) | (mmap & _ & _ & [=] & _)]].
    reflexivity.
  - intros Hk. unfold GetNavMeshQuery. run_call. rewrite Hk. reflexivity.
  - intros mmap Hk Hq Halloc Hst. unfold GetNavMeshQuery. run_call.
    rewrite Hk, Hq, Halloc. cbn.
    destruct (dtNavMeshQuery_init (navMesh mmap) 1024) as [dtResult query].
    cbn in Hst. rewrite Hst. reflexivity.
Qed.

(** X16. Creating the query of an instance and unloading the instance undo each
    other: when [GetNavMeshQuery] has created a query, the
    [unloadMapInstance] that follows frees it, returns [true], and leaves
    the manager exactly as it was before the query was asked for. *)
Theorem GetNavMeshQuery_unloadMapInstance (w : World) (s s' : MMapManager)
    (mapId instanceId : Z) (t : list Event) (query : dtNavMeshQuery)
    (mmap : MMapData) :
  m_loadedMMaps s !! packInstanceId mapId instanceId = Some mmap ->
  navMeshQueries mmap !! instanceId = None ->
  GetNavMeshQuery w mapId instanceId s = (t, Returns (Some query) s') ->
  unloadMapInstance mapId instanceId s' = ([EvFreeNavMeshQuery], Returns true s).
Proof.
  intros Hk Hq Hrun.
  apply GetNavMeshQuery_returns in Hrun
    as [([=] & _) | [(mmap' & q & Hk' & Hq' & _) | (mmap' & Hk' & _ & _ & _ & ->)]].
  - congruence.
  - rewrite Hk in Hk'. injection Hk' as <-.
    unfold unloadMapInstance. run_call.
    rewrite lookup_insert_eq. cbn. rewrite lookup_insert_eq. cbn.
    unfold set_loadedMMaps, set_navMeshQueries. cbn.
    rewrite insert_insert_eq, delete_insert_id by exact Hq.
    destruct mmap as [mesh queries tiles]. cbn in *.
    rewrite insert_id by exact Hk. destruct s; reflexivity.
Qed.

(** *** The queries of a model *)

Lemma GetModelNavMeshQuery_returns (w : World) (s s' : MMapManager)
    (threadId displayId : Z) (t : list Event) (v : option dtNavMeshQuery) :
  GetModelNavMeshQuery w threadId displayId s = (t, Returns v s') ->
  (v = None /\ s' = s)
  \/ (exists mmap query,
        m_loadedModels s !! displayId = Some mmap /\
        navMeshGOQueries mmap !! threadId = Some query /\
        v = Some query /\ t = [] /\ s' = s)
  \/ (exists mmap,
        m_loadedModels s !! displayId = Some mmap /\
        navMeshGOQueries mmap !! threadId = None /\
        v = Some (snd (dtNavMeshQuery_init (goNavMesh mmap) 2048)) /\
        t = [EvLock; EvUnlock] /\
        s' = set_loadedModels
               (insert displayId
                  (set_navMeshGOQueries
                     (insert threadId
                        (snd (dtNavMeshQuery_init (goNavMesh mmap) 2048)))
                     mmap)) s).
Proof.
  unfold GetModelNavMeshQuery. run_call.
  destruct (m_loadedModels s !! displayId) as [mmap |] eqn:Hk;
    [| intros [= <- <- <-]; left; auto].
  destruct (navMeshGOQueries mmap !! threadId) as [query |] eqn:Hq; cbn.
  - intros [= <- <- <-]. right; left. exists mmap, query. auto.
  - destruct (dtAllocNavMeshQuery_ok w); cbn; [| discriminate].
    destruct (dtNavMeshQuery_init (goNavMesh mmap) 2048) as [status query]
      eqn:Hinit.
    destruct (dtStatusFailed status); cbn; intros [= <- <- <-].
    + left. auto.
    + right; right. exists mmap. rewrite Hinit. repeat split; auto.
      unfold set_navMeshGOQueries, emplace. rewrite Hq. reflexivity.
Qed.

(** X17. With one thread running at a time: once [GetModelNavMeshQuery] has
    returned a query to a thread for a model, every later call by that
    thread returns the same query without taking the mutex, without a call
    to the engine and without changing the manager. The call that
    creates the query takes and releases the mutex once and binds the
    query to the mesh of the model with 2048 nodes; it leaves the queries
    of the other threads, the mesh of the model, the other models, the
    map entries and the counter as they were. *)
Theorem GetModelNavMeshQuery_per_thread (w : World) (s s' : MMapManager)
    (threadId displayId : Z) (t : list Event) (query : dtNavMeshQuery) :
  GetModelNavMeshQuery w threadId displayId s = (t, Returns (Some query) s') ->
  (forall w', GetModelNavMeshQuery w' threadId displayId s'
              = ([], Returns (Some query) s')) /\
  (forall mmap,
     m_loadedModels s !! displayId = Some mmap ->
     navMeshGOQueries mmap !! threadId = None ->
     query = snd (dtNavMeshQuery_init (goNavMesh mmap) 2048) /\
     t = [EvLock; EvUnlock]) /\
  (forall mmap, m_loadedModels s !! displayId = Some mmap ->
     exists mmap',
       m_loadedModels s' !! displayId = Some mmap' /\
       goNavMesh mmap' = goNavMesh mmap /\
       forall threadId', threadId' <> threadId ->
         navMeshGOQueries mmap' !! threadId' = navMeshGOQueries mmap !! threadId') /\
  (forall displayId', displayId' <> displayId ->
     m_loadedModels s' !! displayId' = m_loadedModels s !! displayId') /\
  m_loadedMMaps s' = m_loadedMMaps s /\
  m_loadedTiles s' = m_loadedTiles s.
Proof.
  intros Hrun.
  apply GetModelNavMeshQuery_returns in Hrun
    as [([=] & _) | [(mmap & q & Hk & Hq & [= <-] & -> & ->)
                    | (mmap & Hk & Hq & [= ->] & -> & ->)]].
  - split; [| split; [| split; [| repeat split]]].
    + intros w'. unfold GetModelNavMeshQuery. run_call. rewrite Hk, Hq.
      reflexivity.
    + intros mmap' Hk' Hq'. congruence.
    + intros mmap' Hk'. exists mmap'. auto.
  - split; [| split; [| split; [| split; [| split]]]].
    + intros w'. unfold GetModelNavMeshQuery. run_call.
      rewrite lookup_insert_eq. cbn. rewrite lookup_insert_eq. reflexivity.
    + intros mmap' Hk' _. split; congruence.
    + intros mmap' Hk'. rewrite Hk in Hk'. injection Hk' as <-.
      eexists. split; [cbn; apply lookup_insert_eq | split; [reflexivity |]].
      intros threadId' Hne. cbn. apply lookup_insert_ne. congruence.
    + intros displayId' Hne. cbn. apply lookup_insert_ne. congruence.
    + reflexivity.
    + reflexivity.
Qed.

(** *** Models *)

Lemma loadGameObject_returns (w : World) (s s' : MMapManager) (displayId : Z)
    (t : list Event) (v : bool) :
  loadGameObject MMAP_MAGIC MMAP_VERSION w displayId s = (t, Returns v s') ->
  (is_Some (m_loadedModels s !! displayId) /\ v = true /\ t = [] /\ s' = s)
  \/ (m_loadedModels s !! displayId = None /\ v = false /\ s' = s)
  \/ (m_loadedModels s !! displayId = None /\ v = true /\
      model_loadable MMAP_MAGIC MMAP_VERSION w displayId /\
      exists mesh,
        s' = set_loadedModels
               (insert displayId
                  {| goNavMesh := mesh; navMeshGOQueries := ∅ |}) s).
Proof.
  unfold loadGameObject. run_call.
  destruct (m_loadedModels s !! displayId) as [mmap |] eqn:Hk;
    [intros [= <- <- <-]; left; eauto |].
  destruct (modelFile w displayId) as [file |] eqn:Hfile; cbn;
    [| intros [= <- <- <-]; right; left; auto].
  destruct (Z.eqb_spec (mmapMagic (fileHeader file)) MMAP_MAGIC) as [Hmagic |];
    cbn; [| intros [= <- <- <-]; right; left; auto].
  destruct (Z.eqb_spec (mmapVersion (fileHeader file)) MMAP_VERSION) as [Hversion |];
    cbn; [| intros [= <- <- <-]; right; left; auto].
  destruct (dtAlloc_ok w (payloadSize (fileHeader file))); cbn; [| discriminate].
  destruct (fread_data file (payloadSize (fileHeader file))) as [data |] eqn:Hread;
    cbn; [| intros [= <- <- <-]; right; left; auto].
  destruct (dtAllocNavMesh_ok w); cbn; [| discriminate].
  destruct (dtNavMesh_initSingle data (to_int32 (payloadSize (fileHeader file))))
    as [r mesh] eqn:Hinit.
  destruct (dtStatusFailed r) eqn:Hst; cbn; intros [= <- <- <-].
  - right; left. auto.
  - right; right. repeat split; auto.
    + exists file, data. rewrite Hinit. cbn. auto.
    + exists mesh. unfold set_loadedModels, emplace. cbn. rewrite Hk.
      reflexivity.
Qed.

(** X18. [loadGameObject] touches the model it is asked for and nothing else:
    the map entries, the counter and the other models are unchanged. For
    a model already loaded it returns [true] without opening a file.
    When it returns [false] the manager is unchanged; when it returns
    [true] the model has a mesh, and if it was not loaded before, its file
    passed the checks and the engine accepted it. *)
Theorem loadGameObject_effect (w : World) (s s' : MMapManager) (displayId : Z)
    (t : list Event) (v : bool) :
  loadGameObject MMAP_MAGIC MMAP_VERSION w displayId s = (t, Returns v s') ->
  m_loadedMMaps s' = m_loadedMMaps s /\
  m_loadedTiles s' = m_loadedTiles s /\
  (forall displayId', displayId' <> displayId ->
     m_loadedModels s' !! displayId' = m_loadedModels s !! displayId') /\
  (is_Some (GetGONavMesh s displayId) -> v = true /\ t = [] /\ s' = s) /\
  (v = false -> s' = s /\ GetGONavMesh s displayId = None) /\
  (v = true -> is_Some (GetGONavMesh s' displayId)) /\
  (v = true -> GetGONavMesh s displayId = None ->
   model_loadable MMAP_MAGIC MMAP_VERSION w displayId).
Proof.
  intros Hrun. unfold GetGONavMesh.
  apply loadGameObject_returns in Hrun
    as [([mmap Hk] & -> & -> & ->) | [(Hk & -> & ->) | (Hk & -> & Hl & mesh & ->)]];
    rewrite ?Hk.
  - repeat split; auto; try discriminate; eauto.
  - split; [reflexivity | split; [reflexivity | split; [reflexivity |]]].
    split; [intros [? [=]] |]. repeat split; auto; discriminate.
  - split; [reflexivity | split; [reflexivity | split; [| split; [| split; [| split]]]]].
    + intros displayId' Hne. cbn. apply lookup_insert_ne. congruence.
    + intros [? [=]].
    + discriminate.
    + intros _. cbn. rewrite lookup_insert_eq. eauto.
    + auto.
Qed.



(** *** [ChangeTile] *)

Lemma unloadMap_absent (s : MMapManager) (mapId instanceId x y : Z) :
  IsMMapTileLoaded s mapId instanceId x y = false ->
  unloadMap mapId instanceId (to_int32 x) (to_int32 y) s = ([], Returns false s).
Proof.
  rewrite IsMMapTileLoaded_raw.
  destruct (m_loadedMMaps s !! packInstanceId mapId instanceId) as [mmap |] eqn:Hk.
  - intros Hb. apply bool_decide_eq_false in Hb.
    apply (unloadMap_no_tile s mapId instanceId _ _ mmap Hk).
    destruct (mmapLoadedTiles mmap !! packTileID (to_int32 x) (to_int32 y)) eqn:Ht;
      [| reflexivity].
    exfalso. apply Hb. eauto.
  - intros _. apply (unloadMap_no_entry s mapId instanceId _ _ Hk).
Qed.

(** X20. On a tile that is not loaded, [ChangeTile] is [loadMap] of the tile:
    the failed unload leaves no trace. *)
Theorem ChangeTile_absent_tile (w : World) (s : MMapManager)
    (mapId instanceId tx ty tileNumber : Z) :
  IsMMapTileLoaded s mapId instanceId tx ty = false ->
  ChangeTile MMAP_MAGIC MMAP_VERSION w mapId instanceId tx ty tileNumber s
  = exec MMAP_MAGIC MMAP_VERSION
         (CallLoadMap w mapId instanceId (to_int32 tx) (to_int32 ty) tileNumber) s.
Proof.
  intros Habs. unfold ChangeTile. cbn [exec].
  rewrite bind_run, (unloadMap_absent s mapId instanceId tx ty Habs).
  destruct ((loadMap MMAP_MAGIC MMAP_VERSION w mapId instanceId
               (to_int32 tx) (to_int32 ty) tileNumber ;;; ret tt) s)
    as [t r]. reflexivity.
Qed.

(** X21. [ChangeTile] does not put the old tile back: when the tile is loaded,
    the engine removes it, and the file of the new tile is missing, the
    call returns with the coordinate left without a tile, the counter one
    less, and the entry still there. *)
Theorem ChangeTile_failed_replacement (w : World) (s : MMapManager)
    (mapId instanceId tx ty tileNumber : Z) (mmap : MMapData) (tileRef : Z) :
  m_loadedMMaps s !! packInstanceId mapId instanceId = Some mmap ->
  mmapLoadedTiles mmap !! packTileID (to_int32 tx) (to_int32 ty) = Some tileRef ->
  dtStatusFailed (fst (removeTile (navMesh mmap) tileRef)) = false ->
  tileFile w mapId (to_int32 tx) (to_int32 ty) tileNumber = None ->
  exists s',
    ChangeTile MMAP_MAGIC MMAP_VERSION w mapId instanceId tx ty tileNumber s
    = ([EvFopen (TileFile mapId (to_int32 tx) (to_int32 ty) tileNumber)],
       Returns tt s') /\
    IsMMapTileLoaded s mapId instanceId tx ty = true /\
    IsMMapTileLoaded s' mapId instanceId tx ty = false /\
    m_loadedTiles s' = to_uint32 (m_loadedTiles s - 1) /\
    is_Some (GetNavMesh s' mapId instanceId).
Proof.
  intros Hk Ht Hok Hfile.
  pose proof (unloaded_lookup s (packInstanceId mapId instanceId)
                (packTileID (to_int32 tx) (to_int32 ty)) mmap tileRef)
    as [Hk1 Ht1].
  eexists. split; [| split; [| split; [| split]]].
  - unfold ChangeTile. rewrite bind_run.
    rewrite (unloadMap_engine_succeeds s mapId instanceId _ _ mmap tileRef Hk Ht Hok).
    rewrite bind_run. unfold loadMap. rewrite bind_run.
    rewrite (loadMapData_loaded w _ mapId instanceId _ Hk1).
    run_call. rewrite lookup_insert_eq. cbn. rewrite lookup_delete_eq. cbn.
    rewrite Hfile. cbn. reflexivity.
  - rewrite IsMMapTileLoaded_raw, Hk. apply bool_decide_eq_true. eauto.
  - rewrite IsMMapTileLoaded_raw. cbn. rewrite lookup_insert_eq. cbn.
    apply bool_decide_eq_false. rewrite lookup_delete_eq. intros [? [=]].
  - reflexivity.
  - unfold GetNavMesh. cbn. rewrite lookup_insert_eq. eauto.
Qed.

(** *** What no call removes *)

Lemma entries_kept_refl (s : MMapManager) : entries_kept s s.
Proof. intros key Hk. exact Hk. Qed.

Lemma entries_kept_trans (s1 s2 s3 : MMapManager) :
  entries_kept s1 s2 -> entries_kept s2 s3 -> entries_kept s1 s3.
Proof. intros H12 H23 key Hk. apply H23, H12, Hk. Qed.

Lemma entries_kept_same (s s' : MMapManager) :
  m_loadedMMaps s' = m_loadedMMaps s -> entries_kept s s'.
Proof. intros Heq key Hk. rewrite Heq. exact Hk. Qed.

Lemma entries_kept_insert (s : MMapManager) (key : Z) (mmap : MMapData) :
  entries_kept s (set_loadedMMaps (insert key mmap) s).
Proof.
  intros key' Hk. cbn. apply lookup_insert_is_Some'. right. exact Hk.
Qed.

Lemma models_kept_refl (s : MMapManager) : models_kept s s.
Proof. intros displayId mmap Hk. exists mmap. auto. Qed.

Lemma models_kept_trans (s1 s2 s3 : MMapManager) :
  models_kept s1 s2 -> models_kept s2 s3 -> models_kept s1 s3.
Proof.
  intros H12 H23 displayId mmap Hk.
  destruct (H12 displayId mmap Hk) as (mmap2 & Hk2 & Hmesh2 & Hq2).
  destruct (H23 displayId mmap2 Hk2) as (mmap3 & Hk3 & Hmesh3 & Hq3).
  exists mmap3. split; [exact Hk3 | split; [congruence |]].
  intros threadId query Hq. apply Hq3, Hq2, Hq.
Qed.

Lemma models_kept_same (s s' : MMapManager) :
  m_loadedModels s' = m_loadedModels s -> models_kept s s'.
Proof.
  intros Heq displayId mmap Hk. exists mmap. rewrite Heq. auto.
Qed.

Lemma loadMapData_kept (w : World) (s s' : MMapManager) (mapId instanceId : Z)
    (t : list Event) (v : bool) :
  loadMapData w mapId instanceId s = (t, Returns v s') ->
  entries_kept s s' /\ m_loadedModels s' = m_loadedModels s.
Proof.
  intros Hrun.
  apply loadMapData_returns in Hrun
    as [(_ & -> & _) | [(_ & -> & _) | (_ & Hk & mesh & ->)]];
    try (split; [apply entries_kept_refl | reflexivity]).
  split; [apply entries_kept_insert | reflexivity].
Qed.

Lemma loadMap_kept (w : World) (s s' : MMapManager)
    (mapId instanceId x y number : Z) (t : list Event) (v : bool) :
  loadMap MMAP_MAGIC MMAP_VERSION w mapId instanceId x y number s
  = (t, Returns v s') ->
  entries_kept s s' /\ m_loadedModels s' = m_loadedModels s.
Proof.
  intros Hrun.
  apply loadMap_returns in Hrun as (t0 & b & s0 & Hd & Hcases).
  apply loadMapData_kept in Hd as [He Hm].
  destruct Hcases
    as [[_ ->] | [(_ & mmap & mesh & Hk & ->)
                 | (_ & mmap & mesh & tileRef & data & size & dtResult
                    & Hk & Ht & _ & _ & ->)]].
  - auto.
  - split; [| exact Hm].
    apply (entries_kept_trans _ _ _ He), entries_kept_insert.
  - split; [| exact Hm].
    apply (entries_kept_trans _ _ _ He).
    intros key' Hk'. cbn. apply lookup_insert_is_Some'. right. exact Hk'.
Qed.

Lemma unloadMap_kept (s s' : MMapManager) (mapId instanceId x y : Z)
    (t : list Event) (v : bool) :
  unloadMap mapId instanceId x y s = (t, Returns v s') ->
  entries_kept s s' /\ m_loadedModels s' = m_loadedModels s.
Proof.
  destruct (m_loadedMMaps s !! packInstanceId mapId instanceId) as [mmap |] eqn:Hk.
  - destruct (mmapLoadedTiles mmap !! packTileID x y) as [tileRef |] eqn:Ht.
    + destruct (dtStatusFailed (fst (removeTile (navMesh mmap) tileRef))) eqn:Hf.
      * rewrite (unloadMap_engine_fails s mapId instanceId x y mmap tileRef Hk Ht Hf).
        discriminate.
      * rewrite (unloadMap_engine_succeeds s mapId instanceId x y mmap tileRef Hk Ht Hf).
        intros [= <- <- <-]. split; [| reflexivity].
        intros key' Hk'. cbn. apply lookup_insert_is_Some'. right. exact Hk'.
    + rewrite (unloadMap_no_tile s mapId instanceId x y mmap Hk Ht).
      intros [= <- <- <-]. split; [apply entries_kept_refl | reflexivity].
  - rewrite (unloadMap_no_entry s mapId instanceId x y Hk).
    intros [= <- <- <-]. split; [apply entries_kept_refl | reflexivity].
Qed.

Lemma unloadMapInstance_kept (s s' : MMapManager) (mapId instanceId : Z)
    (t : list Event) (v : bool) :
  unloadMapInstance mapId instanceId s = (t, Returns v s') ->
  entries_kept s s' /\ m_loadedModels s' = m_loadedModels s.
Proof.
  unfold unloadMapInstance. run_call.
  destruct (m_loadedMMaps s !! packInstanceId mapId instanceId) as [mmap |];
    [| intros [= <- <- <-]; split; [apply entries_kept_refl | reflexivity]].
  destruct (navMeshQueries mmap !! instanceId); cbn; intros [= <- <- <-].
  - split; [apply entries_kept_insert | reflexivity].
  - split; [apply entries_kept_refl | reflexivity].
Qed.

Lemma GetNavMeshQuery_kept (w : World) (s s' : MMapManager) (mapId instanceId : Z)
    (t : list Event) (v : option dtNavMeshQuery) :
  GetNavMeshQuery w mapId instanceId s = (t, Returns v s') ->
  entries_kept s s' /\ m_loadedModels s' = m_loadedModels s.
Proof.
  intros Hrun.
  apply GetNavMeshQuery_returns in Hrun
    as [(_ & ->) | [(mmap & q & _ & _ & _ & _ & ->) | (mmap & _ & _ & _ & _ & ->)]].
  - split; [apply entries_kept_refl | reflexivity].
  - split; [apply entries_kept_refl | reflexivity].
  - split; [apply entries_kept_insert | reflexivity].
Qed.

Lemma GetModelNavMeshQuery_kept (w : World) (s s' : MMapManager)
    (threadId displayId : Z) (t : list Event) (v : option dtNavMeshQuery) :
  GetModelNavMeshQuery w threadId displayId s = (t, Returns v s') ->
  m_loadedMMaps s' = m_loadedMMaps s /\ models_kept s s'.
Proof.
  intros Hrun.
  apply GetModelNavMeshQuery_returns in Hrun
    as [(_ & ->) | [(mmap & q & _ & _ & _ & _ & ->) | (mmap & Hk & Hq & _ & _ & ->)]].
  - split; [reflexivity | apply models_kept_refl].
  - split; [reflexivity | apply models_kept_refl].
  - split; [reflexivity |]. intros displayId' mmap' Hk'. cbn.
    destruct (decide (displayId = displayId')) as [<- | Hne].
    + rewrite Hk in Hk'. injection Hk' as <-.
      eexists. split; [apply lookup_insert_eq | split; [reflexivity |]].
      intros threadId' query Hq'. cbn.
      rewrite lookup_insert_ne by congruence. exact Hq'.
    + exists mmap'. rewrite lookup_insert_ne by exact Hne. auto.
Qed.

Lemma loadGameObject_kept (w : World) (s s' : MMapManager) (displayId : Z)
    (t : list Event) (v : bool) :
  loadGameObject MMAP_MAGIC MMAP_VERSION w displayId s = (t, Returns v s') ->
  m_loadedMMaps s' = m_loadedMMaps s /\ models_kept s s'.
Proof.
  intros Hrun.
  apply loadGameObject_returns in Hrun
    as [(_ & _ & _ & ->) | [(_ & _ & ->) | (Hk & _ & _ & mesh & ->)]].
  - split; [reflexivity | apply models_kept_refl].
  - split; [reflexivity | apply models_kept_refl].
  - split; [reflexivity |]. intros displayId' mmap' Hk'. cbn.
    exists mmap'. rewrite lookup_insert_ne by congruence. auto.
Qed.

Lemma loadAllGameObjectModels_kept (w : World) (displayIds : list Z)
    (s s' : MMapManager) (t : list Event) (v : unit) :
  loadAllGameObjectModels MMAP_MAGIC MMAP_VERSION w displayIds s
  = (t, Returns v s') ->
  m_loadedMMaps s' = m_loadedMMaps s /\ models_kept s s'.
Proof.
  revert s t. induction displayIds as [| displayId rest IH]; intros s t.
  - cbn. intros H. inversion H; subst.
    split; [reflexivity | apply models_kept_refl].
  - cbn. rewrite bind_run.
    destruct (loadGameObject MMAP_MAGIC MMAP_VERSION w displayId s)
      as [t0 [b s0 |]] eqn:Hg; [| discriminate].
    destruct (loadAllGameObjectModels MMAP_MAGIC MMAP_VERSION w rest s0)
      as [t1 [u s1 |]] eqn:Hrest; [| discriminate].
    intros [= <- <- <-].
    apply loadGameObject_kept in Hg as [Hm0 Hk0].
    apply IH in Hrest as [Hm1 Hk1].
    split; [congruence | apply (models_kept_trans _ _ _ Hk0 Hk1)].
Qed.

Lemma exec_kept (c : Call) (s s' : MMapManager) (t : list Event) :
  exec MMAP_MAGIC MMAP_VERSION c s = (t, Returns tt s') ->
  (keeps_entries c = true -> entries_kept s s') /\ models_kept s s'.
Proof.
  destruct c as [w mapId instanceId tx ty tileNumber | w mapId instanceId
                 | w mapId instanceId x y number | w displayIds | w displayId
                 | mapId instanceId x y | mapId | mapId instanceId
                 | w mapId instanceId | w threadId displayId];
    cbn [exec keeps_entries]; try unfold ChangeTile; rewrite ?bind_run.
  - destruct (unloadMap mapId instanceId (to_int32 tx) (to_int32 ty) s)
      as [t0 [b s0 |]] eqn:Hu; [| discriminate].
    rewrite bind_run.
    destruct (loadMap MMAP_MAGIC MMAP_VERSION w mapId instanceId
                (to_int32 tx) (to_int32 ty) tileNumber s0)
      as [t1 [b1 s1 |]] eqn:Hl; [| discriminate].
    cbn. intros [= <- <-].
    apply unloadMap_kept in Hu as [He0 Hm0].
    apply loadMap_kept in Hl as [He1 Hm1].
    split; [intros _; apply (entries_kept_trans _ _ _ He0 He1) |].
    apply models_kept_same. congruence.
  - destruct (loadMapData w mapId instanceId s) as [t0 [b s0 |]] eqn:Hrun;
      [| discriminate].
    cbn. intros [= <- <-]. apply loadMapData_kept in Hrun as [He Hm].
    split; [auto | apply models_kept_same, Hm].
  - destruct (loadMap MMAP_MAGIC MMAP_VERSION w mapId instanceId x y number s)
      as [t0 [b s0 |]] eqn:Hrun; [| discriminate].
    cbn. intros [= <- <-]. apply loadMap_kept in Hrun as [He Hm].
    split; [auto | apply models_kept_same, Hm].
  - intros Hrun. apply loadAllGameObjectModels_kept in Hrun as [Hm Hk].
    split; [intros _; apply entries_kept_same, Hm | exact Hk].
  - destruct (loadGameObject MMAP_MAGIC MMAP_VERSION w displayId s)
      as [t0 [b s0 |]] eqn:Hrun; [| discriminate].
    cbn. intros [= <- <-]. apply loadGameObject_kept in Hrun as [Hm Hk].
    split; [intros _; apply entries_kept_same, Hm | exact Hk].
  - destruct (unloadMap mapId instanceId x y s) as [t0 [b s0 |]] eqn:Hrun;
      [| discriminate].
    cbn. intros [= <- <-]. apply unloadMap_kept in Hrun as [He Hm].
    split; [auto | apply models_kept_same, Hm].
  - destruct (unloadMap_mapId mapId s) as [t0 [b s0 |]] eqn:Hrun;
      [| discriminate].
    cbn. intros [= <- <-]. split; [discriminate |].
    pose proof (unloadMap_mapId_run mapId s) as Hspec. cbv zeta in Hspec.
    destruct (m_loadedMMaps s !! to_uint64 (Z.shiftl (to_uint64 mapId) 32)).
    + destruct Hspec as [t' Hspec]. rewrite Hspec in Hrun.
      injection Hrun as _ _ <-. apply models_kept_same. reflexivity.
    + rewrite Hspec in Hrun. injection Hrun as _ _ <-. apply models_kept_refl.
  - destruct (unloadMapInstance mapId instanceId s) as [t0 [b s0 |]] eqn:Hrun;
      [| discriminate].
    cbn. intros [= <- <-]. apply unloadMapInstance_kept in Hrun as [He Hm].
    split; [auto | apply models_kept_same, Hm].
  - destruct (GetNavMeshQuery w mapId instanceId s) as [t0 [b s0 |]] eqn:Hrun;
      [| discriminate].
    cbn. intros [= <- <-]. apply GetNavMeshQuery_kept in Hrun as [He Hm].
    split; [auto | apply models_kept_same, Hm].
  - destruct (GetModelNavMeshQuery w threadId displayId s)
      as [t0 [b s0 |]] eqn:Hrun; [| discriminate].
    cbn. intros [= <- <-]. apply GetModelNavMeshQuery_kept in Hrun as [Hm Hk].
    split; [intros _; apply entries_kept_same, Hm | exact Hk].
Qed.

(** X22. A map entry is removed by [unloadMap(mapId)] and by no other call:
    after any other call that returns, every map and instance that had a
    mesh still has one, even when its last tile has been unloaded. *)
Theorem mesh_entries_persist (c : Call) (s s' : MMapManager) (t : list Event)
    (mapId instanceId : Z) :
  keeps_entries c = true ->
  exec MMAP_MAGIC MMAP_VERSION c s = (t, Returns tt s') ->
  is_Some (GetNavMesh s mapId instanceId) ->
  is_Some (GetNavMesh s' mapId instanceId).
Proof.
  intros Hc Hrun. apply exec_kept in Hrun as [He _].
  specialize (He Hc (packInstanceId mapId instanceId)).
  unfold GetNavMesh.
  destruct (m_loadedMMaps s !! packInstanceId mapId instanceId);
    [| intros [? [=]]].
  intros _. destruct He as [mmap' ->]; eauto.
Qed.

(** X23. No call unloads a model: after any call that returns, a model that was
    loaded is still loaded, with the same mesh, and every thread that had
    a query for it still has that query. *)
Theorem models_persist (c : Call) (s s' : MMapManager) (t : list Event)
    (displayId : Z) (mmap : MMapGOData) :
  exec MMAP_MAGIC MMAP_VERSION c s = (t, Returns tt s') ->
  m_loadedModels s !! displayId = Some mmap ->
  exists mmap',
    m_loadedModels s' !! displayId = Some mmap' /\
    GetGONavMesh s' displayId = Some (goNavMesh mmap) /\
    forall threadId query,
      navMeshGOQueries mmap !! threadId = Some query ->
      navMeshGOQueries mmap' !! threadId = Some query.
Proof.
  intros Hrun Hk. apply exec_kept in Hrun as [_ Hm].
  destruct (Hm displayId mmap Hk) as (mmap' & Hk' & Hmesh & Hq).
  exists mmap'. split; [exact Hk' | split; [| exact Hq]].
  unfold GetGONavMesh. rewrite Hk', Hmesh. reflexivity.
Qed.

(** *** The keys inside the entries *)

Lemma keys_ok_insert (s : MMapManager) (key : Z) (mmap : MMapData) :
  entry_keys_ok key mmap -> keys_ok s ->
  keys_ok (set_loadedMMaps (insert key mmap) s).
Proof.
  intros Hnew Hs key' mmap' Hk. cbn in Hk.
  apply lookup_insert_Some in Hk as [[<- <-] | [_ Hk]]; [exact Hnew |].
  apply (Hs _ _ Hk).
Qed.

Lemma keys_ok_same (s s' : MMapManager) :
  m_loadedMMaps s' = m_loadedMMaps s -> keys_ok s -> keys_ok s'.
Proof.
  intros Heq Hs key mmap Hk. rewrite Heq in Hk. apply (Hs _ _ Hk).
Qed.

Lemma loadMapData_keys_ok (w : World) (s s' : MMapManager) (mapId instanceId : Z)
    (t : list Event) (v : bool) :
  keys_ok s -> loadMapData w mapId instanceId s = (t, Returns v s') -> keys_ok s'.
Proof.
  intros Hs Hrun.
  apply loadMapData_returns in Hrun
    as [(_ & -> & _) | [(_ & -> & _) | (_ & Hk & mesh & ->)]]; auto.
  apply keys_ok_insert; [| exact Hs].
  split; cbn; intros ? ? Hl; rewrite lookup_empty in Hl; discriminate.
Qed.

Lemma loadMap_keys_ok (w : World) (s s' : MMapManager)
    (mapId instanceId x y number : Z) (t : list Event) (v : bool) :
  keys_ok s ->
  loadMap MMAP_MAGIC MMAP_VERSION w mapId instanceId x y number s
  = (t, Returns v s') ->
  keys_ok s'.
Proof.
  intros Hs Hrun.
  apply loadMap_returns in Hrun as (t0 & b & s0 & Hd & Hcases).
  pose proof (loadMapData_keys_ok w s s0 mapId instanceId t0 b Hs Hd) as Hs0.
  destruct Hcases
    as [[_ ->] | [(_ & mmap & mesh & Hk & ->)
                 | (_ & mmap & mesh & tileRef & data & size & dtResult
                    & Hk & Ht & _ & _ & ->)]].
  - exact Hs0.
  - apply keys_ok_insert; [| exact Hs0]. apply (Hs0 _ _ Hk).
  - intros key' mmap' Hk'. cbn in Hk'.
    apply lookup_insert_Some in Hk' as [[<- <-] | [_ Hk']];
      [| apply (Hs0 _ _ Hk')].
    destruct (Hs0 _ _ Hk) as [Htiles Hqueries].
    split; [| exact Hqueries].
    intros pk ref Hl. cbn in Hl.
    apply lookup_insert_Some in Hl as [[<- _] | [_ Hl]];
      [apply packTileID_range | apply (Htiles _ _ Hl)].
Qed.

Lemma unloadMap_keys_ok (s s' : MMapManager) (mapId instanceId x y : Z)
    (t : list Event) (v : bool) :
  keys_ok s -> unloadMap mapId instanceId x y s = (t, Returns v s') -> keys_ok s'.
Proof.
  intros Hs.
  destruct (m_loadedMMaps s !! packInstanceId mapId instanceId) as [mmap |] eqn:Hk.
  - destruct (mmapLoadedTiles mmap !! packTileID x y) as [tileRef |] eqn:Ht.
    + destruct (dtStatusFailed (fst (removeTile (navMesh mmap) tileRef))) eqn:Hf.
      * rewrite (unloadMap_engine_fails s mapId instanceId x y mmap tileRef Hk Ht Hf).
        discriminate.
      * rewrite (unloadMap_engine_succeeds s mapId instanceId x y mmap tileRef Hk Ht Hf).
        intros [= <- <- <-]. intros key' mmap' Hk'. cbn in Hk'.
        apply lookup_insert_Some in Hk' as [[<- <-] | [_ Hk']];
          [| apply (Hs _ _ Hk')].
        destruct (Hs _ _ Hk) as [Htiles Hqueries].
        split; [| exact Hqueries].
        intros pk ref Hl. cbn in Hl.
        apply lookup_delete_Some in Hl as [_ Hl]. apply (Htiles _ _ Hl).
    + rewrite (unloadMap_no_tile s mapId instanceId x y mmap Hk Ht).
      intros [= <- <- <-]. exact Hs.
  - rewrite (unloadMap_no_entry s mapId instanceId x y Hk).
    intros [= <- <- <-]. exact Hs.
Qed.

Lemma unloadMap_mapId_keys_ok (s s' : MMapManager) (mapId : Z)
    (t : list Event) (v : bool) :
  keys_ok s -> unloadMap_mapId mapId s = (t, Returns v s') -> keys_ok s'.
Proof.
  intros Hs. pose proof (unloadMap_mapId_run mapId s) as Hrun.
  cbv zeta in Hrun.
  destruct (m_loadedMMaps s !! to_uint64 (Z.shiftl (to_uint64 mapId) 32))
    as [mmap |].
  - destruct Hrun as [t' ->]. intros [= <- <- <-].
    intros key' mmap' Hk'. cbn in Hk'.
    apply lookup_delete_Some in Hk' as [_ Hk']. apply (Hs _ _ Hk').
  - rewrite Hrun. intros [= <- <- <-]. exact Hs.
Qed.

Lemma unloadMapInstance_keys_ok (s s' : MMapManager) (mapId instanceId : Z)
    (t : list Event) (v : bool) :
  keys_ok s -> unloadMapInstance mapId instanceId s = (t, Returns v s') ->
  keys_ok s'.
Proof.
  intros Hs. unfold unloadMapInstance. run_call.
  destruct (m_loadedMMaps s !! packInstanceId mapId instanceId) as [mmap |] eqn:Hk;
    [| intros [= <- <- <-]; exact Hs].
  destruct (navMeshQueries mmap !! instanceId); cbn; intros [= <- <- <-];
    [| exact Hs].
  apply keys_ok_insert; [| exact Hs].
  destruct (Hs _ _ Hk) as [Htiles Hqueries].
  split; [exact Htiles |].
  intros i q Hl. cbn in Hl. apply lookup_delete_Some in Hl as [_ Hl].
  apply (Hqueries _ _ Hl).
Qed.

Lemma GetNavMeshQuery_keys_ok (w : World) (s s' : MMapManager)
    (mapId instanceId : Z) (t : list Event) (v : option dtNavMeshQuery) :
  keys_ok s -> GetNavMeshQuery w mapId instanceId s = (t, Returns v s') ->
  keys_ok s'.
Proof.
  intros Hs Hrun.
  apply GetNavMeshQuery_returns in Hrun
    as [(_ & ->) | [(mmap & q & _ & _ & _ & _ & ->) | (mmap & Hk & _ & _ & _ & ->)]];
    auto.
  apply keys_ok_insert; [| exact Hs].
  destruct (Hs _ _ Hk) as [Htiles Hqueries].
  split; [exact Htiles |].
  intros i q Hl. cbn in Hl.
  apply lookup_insert_Some in Hl as [[<- _] | [_ Hl]];
    [exists mapId; reflexivity | apply (Hqueries _ _ Hl)].
Qed.

Lemma exec_keys_ok (c : Call) (s s' : MMapManager) (t : list Event) :
  keys_ok s -> exec MMAP_MAGIC MMAP_VERSION c s = (t, Returns tt s') -> keys_ok s'.
Proof.
  intros Hs.
  destruct c as [w mapId instanceId tx ty tileNumber | w mapId instanceId
                 | w mapId instanceId x y number | w displayIds | w displayId
                 | mapId instanceId x y | mapId | mapId instanceId
                 | w mapId instanceId | w threadId displayId];
    cbn [exec]; try unfold ChangeTile; rewrite ?bind_run.
  - destruct (unloadMap mapId instanceId (to_int32 tx) (to_int32 ty) s)
      as [t0 [b s0 |]] eqn:Hu; [| discriminate].
    rewrite bind_run.
    destruct (loadMap MMAP_MAGIC MMAP_VERSION w mapId instanceId
                (to_int32 tx) (to_int32 ty) tileNumber s0)
      as [t1 [b1 s1 |]] eqn:Hl; [| discriminate].
    cbn. intros [= <- <-].
    eapply loadMap_keys_ok; [| exact Hl].
    eapply unloadMap_keys_ok; [exact Hs | exact Hu].
  - destruct (loadMapData w mapId instanceId s) as [t0 [b s0 |]] eqn:Hrun;
      [| discriminate].
    cbn. intros [= <- <-]. eapply loadMapData_keys_ok; eauto.
  - destruct (loadMap MMAP_MAGIC MMAP_VERSION w mapId instanceId x y number s)
      as [t0 [b s0 |]] eqn:Hrun; [| discriminate].
    cbn. intros [= <- <-]. eapply loadMap_keys_ok; eauto.
  - intros Hrun. apply loadAllGameObjectModels_kept in Hrun as [Hm _].
    apply (keys_ok_same s s' Hm Hs).
  - destruct (loadGameObject MMAP_MAGIC MMAP_VERSION w displayId s)
      as [t0 [b s0 |]] eqn:Hrun; [| discriminate].
    cbn. intros [= <- <-]. apply loadGameObject_kept in Hrun as [Hm _].
    apply (keys_ok_same s s0 Hm Hs).
  - destruct (unloadMap mapId instanceId x y s) as [t0 [b s0 |]] eqn:Hrun;
      [| discriminate].
    cbn. intros [= <- <-]. eapply unloadMap_keys_ok; eauto.
  - destruct (unloadMap_mapId mapId s) as [t0 [b s0 |]] eqn:Hrun;
      [| discriminate].
    cbn. intros [= <- <-]. eapply unloadMap_mapId_keys_ok; eauto.
  - destruct (unloadMapInstance mapId instanceId s) as [t0 [b s0 |]] eqn:Hrun;
      [| discriminate].
    cbn. intros [= <- <-]. eapply unloadMapInstance_keys_ok; eauto.
  - destruct (GetNavMeshQuery w mapId instanceId s) as [t0 [b s0 |]] eqn:Hrun;
      [| discriminate].
    cbn. intros [= <- <-]. eapply GetNavMeshQuery_keys_ok; eauto.
  - destruct (GetModelNavMeshQuery w threadId displayId s)
      as [t0 [b s0 |]] eqn:Hrun; [| discriminate].
    cbn. intros [= <- <-]. apply GetModelNavMeshQuery_kept in Hrun as [Hm _].
    apply (keys_ok_same s s0 Hm Hs).
Qed.

Lemma reachable_keys_ok (s : MMapManager) :
  reachable MMAP_MAGIC MMAP_VERSION s -> keys_ok s.
Proof.
  intros Hreach. induction Hreach as [| c s s' t _ IH Hrun].
  - intros key mmap Hk. cbn in Hk. rewrite lookup_empty in Hk. discriminate.
  - apply (exec_keys_ok c s s' t IH Hrun).
Qed.

(** X24. In every state the manager is in between calls, an entry holds the
    query of its own instance and no other: a query stored, under a
    [uint32] instance, in the entry of a map and an instance is stored
    under that very instance. Each entry so holds at most one query. *)
Theorem one_query_per_entry (s : MMapManager) (mapId instanceId i : Z)
    (mmap : MMapData) (query : dtNavMeshQuery) :
  reachable MMAP_MAGIC MMAP_VERSION s ->
  in_uint32 mapId -> in_uint32 instanceId -> in_uint32 i ->
  m_loadedMMaps s !! packInstanceId mapId instanceId = Some mmap ->
  navMeshQueries mmap !! i = Some query ->
  i = instanceId.
Proof.
  intros Hreach Hm Hi Hi' Hk Hq.
  destruct (reachable_keys_ok s Hreach _ _ Hk) as [_ Hqueries].
  destruct (Hqueries i query Hq) as [mapId' Heq].
  rewrite <- (packInstanceId_low mapId instanceId Hm Hi), Heq.
  change (2 ^ 32 - 1) with (Z.ones 32). rewrite Z.land_ones by lia.
  apply Z.bits_inj'. intros n Hn.
  destruct (Z.ltb_spec n 32) as [Hlt | Hge].
  - rewrite Z.mod_pow2_bits_low by lia.
    unfold packInstanceId, to_uint64. rewrite Z.lor_spec.
    rewrite Z.mod_pow2_bits_low by lia.
    rewrite Z.shiftl_spec by lia.
    rewrite (Z.testbit_neg_r _ (n - 32)) by lia. reflexivity.
  - rewrite Z.mod_pow2_bits_high by lia.
    apply (testbit_above i 32); [exact Hi' | lia].
Qed.

(** X25. In every state the manager is in between calls every tile key is a
    [uint32], whatever coordinates the tiles were loaded with; the
    coordinates [unloadMap(mapId)] reads back from a key are 16-bit
    numbers that pack to the key again. *)
Theorem tile_keys_are_uint32 (s : MMapManager) (key packedGridPos tileRef : Z)
    (mmap : MMapData) :
  reachable MMAP_MAGIC MMAP_VERSION s ->
  m_loadedMMaps s !! key = Some mmap ->
  mmapLoadedTiles mmap !! packedGridPos = Some tileRef ->
  0 <= packedGridPos < 2 ^ 32 /\
  in_uint16 (tileX packedGridPos) /\ in_uint16 (tileY packedGridPos) /\
  packTileID (tileX packedGridPos) (tileY packedGridPos) = packedGridPos.
Proof.
  intros Hreach Hk Ht.
  destruct (reachable_keys_ok s Hreach _ _ Hk) as [Htiles _].
  pose proof (Htiles _ _ Ht) as Hr.
  assert (Hx : in_uint16 (tileX packedGridPos)).
  { unfold in_uint16, tileX. rewrite Z.shiftr_div_pow2 by lia.
    split; [apply Z.div_pos; lia | apply Z.div_lt_upper_bound; lia]. }
  assert (Hy : in_uint16 (tileY packedGridPos)).
  { unfold in_uint16, tileY. change 65535 with (Z.ones 16).
    rewrite Z.land_ones by lia. apply Z.mod_pos_bound. lia. }
  split; [exact Hr | split; [exact Hx | split; [exact Hy |]]].
  destruct (packed_key_decompose packedGridPos Hr) as [Hpack _].
  exact Hpack.
Qed.

End MoreProofs.

(** ** The list of maps without pathfinding *)

Lemma code_digit_char (d : Z) : 0 <= d < 10 -> code (digit_char d) = 48 + d.
Proof.
  intros Hd. unfold code, digit_char.
  rewrite N_ascii_embedding by lia. lia.
Qed.

Lemma isdigit_digit_char (d : Z) : 0 <= d < 10 -> isdigit (digit_char d) = true.
Proof.
  intros Hd. unfold isdigit. rewrite (code_digit_char d Hd).
  apply andb_true_intro. split; [apply Z.leb_le | apply Z.leb_le]; lia.
Qed.

Lemma isdigit_code (c : ascii) : isdigit c = true -> 48 <= code c <= 57.
Proof.
  unfold isdigit. intros H. apply andb_prop in H as [H1 H2].
  apply Z.leb_le in H1. apply Z.leb_le in H2. lia.
Qed.

Lemma isdigit_not_comma (c : ascii) : isdigit c = true -> Ascii.eqb c comma = false.
Proof.
  intros Hd. apply isdigit_code in Hd. apply Ascii.eqb_neq. intros ->.
  vm_compute in Hd. destruct Hd as [Hd _]. apply Hd. reflexivity.
Qed.

Lemma decimal_digits_atoi (fuel : nat) (n : Z) (rest : list ascii) (a : Z) :
  0 <= n < 2 ^ Z.of_nat fuel ->
  exists k, 0 <= k /\
    atoi_digits (decimal_digits fuel n rest) a = atoi_digits rest (a * 10 ^ k + n).
Proof.
  revert n rest a. induction fuel as [| fuel IH]; intros n rest a Hn.
  - exists 0. split; [lia |]. cbn in *. f_equal. lia.
  - cbn [decimal_digits].
    assert (Hmod : 0 <= n mod 10 < 10) by (apply Z.mod_pos_bound; lia).
    destruct (Z.ltb_spec n 10) as [Hlt | Hge].
    + exists 1. split; [lia |]. cbn [atoi_digits].
      rewrite (isdigit_digit_char _ Hmod), (code_digit_char _ Hmod).
      f_equal. rewrite Z.mod_small by lia. lia.
    + assert (Hdiv : 0 <= n / 10 < 2 ^ Z.of_nat fuel).
      { split; [apply Z.div_pos; lia |].
        apply Z.div_lt_upper_bound; [lia |].
        rewrite Nat2Z.inj_succ, Z.pow_succ_r in Hn by lia. lia. }
      destruct (IH (n / 10) (digit_char (n mod 10) :: rest) a Hdiv)
        as (k & Hk & Heq).
      exists (k + 1). split; [lia |]. rewrite Heq. cbn [atoi_digits].
      rewrite (isdigit_digit_char _ Hmod), (code_digit_char _ Hmod).
      f_equal. rewrite Z.pow_add_r by lia.
      pose proof (Z.div_mod n 10). lia.
Qed.

Lemma decimal_digits_Forall (fuel : nat) (n : Z) (rest : list ascii) :
  Forall (fun c => isdigit c = true) rest ->
  Forall (fun c => isdigit c = true) (decimal_digits fuel n rest).
Proof.
  revert n rest. induction fuel as [| fuel IH]; intros n rest Hrest;
    [exact Hrest |].
  cbn [decimal_digits].
  assert (Hmod : 0 <= n mod 10 < 10) by (apply Z.mod_pos_bound; lia).
  assert (Hacc : Forall (fun c => isdigit c = true) (digit_char (n mod 10) :: rest))
    by (constructor; [apply isdigit_digit_char, Hmod | exact Hrest]).
  destruct (n <? 10); [exact Hacc | apply IH, Hacc].
Qed.

Lemma decimal_digits_nonempty (fuel : nat) (n : Z) (rest : list ascii) :
  decimal_digits (S fuel) n rest <> [].
Proof.
  revert n rest. induction fuel as [| fuel IH]; intros n rest.
  - cbn. destruct (n <? 10); discriminate.
  - cbn [decimal_digits]. destruct (n <? 10); [discriminate |].
    apply IH.
Qed.

Lemma decimal_Forall (n : Z) : Forall (fun c => isdigit c = true) (decimal n).
Proof. apply decimal_digits_Forall. constructor. Qed.

Lemma decimal_nonempty (n : Z) : decimal n <> [].
Proof. apply decimal_digits_nonempty. Qed.

Lemma atoi_decimal (n : Z) : 0 <= n < 2 ^ 31 -> atoi (decimal n) = Some n.
Proof.
  intros Hn.
  assert (Hfuel : 0 <= n < 2 ^ Z.of_nat (S (Z.to_nat (Z.log2 n)))).
  { split; [lia |].
    rewrite Nat2Z.inj_succ, Z2Nat.id by apply Z.log2_nonneg.
    destruct (Z.eq_dec n 0) as [-> | Hpos]; [reflexivity |].
    apply Z.log2_spec. lia. }
  destruct (decimal_digits_atoi _ n [] 0 Hfuel) as (k & _ & Heq).
  change (decimal_digits (S (Z.to_nat (Z.log2 n))) n []) with (decimal n) in Heq.
  cbn [atoi_digits] in Heq. rewrite Z.mul_0_l, Z.add_0_l in Heq.
  pose proof (decimal_Forall n) as Hall. pose proof (decimal_nonempty n) as Hne.
  unfold atoi.
  destruct (decimal n) as [| c rest] eqn:Hdec; [contradiction |].
  apply Forall_cons in Hall as [Hc _].
  pose proof (isdigit_code c Hc) as Hcode.
  cbn [skip_space].
  replace (isspace c) with false
    by (symmetry; unfold isspace; apply orb_false_intro;
        [apply Z.eqb_neq; lia | apply andb_false_intro2, Z.leb_gt; lia]).
  replace (code c =? 45) with false by (symmetry; apply Z.eqb_neq; lia).
  replace (code c =? 43) with false by (symmetry; apply Z.eqb_neq; lia).
  rewrite Heq.
  replace (- 2 ^ 31 <=? n) with true by (symmetry; apply Z.leb_le; lia).
  replace (n <? 2 ^ 31) with true by (symmetry; apply Z.ltb_lt; lia).
  reflexivity.
Qed.

Lemma strtok_all_run (t s cur : list ascii) :
  Forall (fun c => Ascii.eqb c comma = false) t ->
  strtok_all (t ++ s) cur = strtok_all s (rev t ++ cur).
Proof.
  revert cur. induction t as [| c t IH]; intros cur Ht; [reflexivity |].
  apply Forall_cons in Ht as [Hc Ht].
  cbn [app strtok_all]. rewrite Hc, (IH _ Ht).
  cbn [rev]. rewrite <- app_assoc. reflexivity.
Qed.

Lemma strtok_all_join (pieces : list (list ascii)) :
  Forall (fun t => t <> [] /\ Forall (fun c => Ascii.eqb c comma = false) t) pieces ->
  strtok_all (join_commas pieces) [] = pieces.
Proof.
  induction pieces as [| t rest IH]; intros Hall; [reflexivity |].
  apply Forall_cons in Hall as [[Hne Ht] Hrest].
  assert (Hrev : rev t <> []).
  { intros H0. apply Hne. rewrite <- (rev_involutive t), H0. reflexivity. }
  destruct rest as [| t' rest].
  - cbn [join_commas]. rewrite <- (app_nil_r t) at 1.
    rewrite (strtok_all_run t [] [] Ht), app_nil_r. cbn [strtok_all].
    destruct (rev t) eqn:Hr; [contradiction |].
    rewrite <- Hr, rev_involutive. reflexivity.
  - change (join_commas (t :: t' :: rest))
      with (t ++ comma :: join_commas (t' :: rest)).
    rewrite (strtok_all_run t _ [] Ht), app_nil_r. cbn [strtok_all].
    rewrite Ascii.eqb_refl.
    destruct (rev t) eqn:Hr; [contradiction |].
    rewrite <- Hr, rev_involutive, (IH Hrest). reflexivity.
Qed.

Lemma c_str_no_NUL (s : list ascii) :
  Forall (fun c => code c <> 0) s -> c_str s = s.
Proof.
  induction s as [| c rest IH]; intros Hall; [reflexivity |].
  apply Forall_cons in Hall as [Hc Hrest].
  cbn [c_str]. apply Z.eqb_neq in Hc. rewrite Hc, (IH Hrest). reflexivity.
Qed.

Lemma c_str_Forall (P : ascii -> Prop) (s : list ascii) :
  Forall P s -> Forall P (c_str s).
Proof.
  induction s as [| c rest IH]; intros Hall; [constructor |].
  apply Forall_cons in Hall as [Hc Hrest].
  cbn [c_str]. destruct (code c =? 0); [constructor |].
  constructor; [exact Hc | apply IH, Hrest].
Qed.

Lemma join_commas_Forall (P : ascii -> Prop) (pieces : list (list ascii)) :
  P comma -> Forall (Forall P) pieces -> Forall P (join_commas pieces).
Proof.
  intros Hcomma. induction pieces as [| t rest IH]; intros Hall; [constructor |].
  apply Forall_cons in Hall as [Ht Hrest].
  destruct rest as [| t' rest]; [exact Ht |].
  change (join_commas (t :: t' :: rest))
    with (t ++ comma :: join_commas (t' :: rest)).
  apply Forall_app. split; [exact Ht |].
  constructor; [exact Hcomma | apply IH, Hrest].
Qed.

Lemma preventPathfinding_tokens_decimal (ids : list Z) (disabled : gset Z) :
  Forall (fun id => 0 <= id < 2 ^ 31) ids ->
  preventPathfinding_tokens (decimal <$> ids) disabled
  = Some (list_to_set ids ∪ disabled).
Proof.
  revert disabled. induction ids as [| id rest IH]; intros disabled Hall.
  - cbn [fmap list_fmap preventPathfinding_tokens].
    rewrite list_to_set_nil, (left_id_L ∅ (∪)). reflexivity.
  - apply Forall_cons in Hall as [Hid Hrest].
    cbn [fmap list_fmap preventPathfinding_tokens].
    rewrite (atoi_decimal id Hid), (IH _ Hrest).
    unfold to_uint32. rewrite Z.mod_small by lia.
    rewrite list_to_set_cons.
    rewrite (assoc_L (∪)), (comm_L (∪) (list_to_set rest)). reflexivity.
Qed.

(** X26. Given the numbers of maps written in decimal and separated by commas,
    [preventPathfindingOnMaps] adds exactly these maps to the set of the
    maps without pathfinding; afterwards [IsPathfindingEnabled], asked
    without a unit, answers [true] exactly for the maps that are neither
    in the list nor in the set before, if pathfinding is configured at
    all. *)
Theorem preventPathfindingOnMaps_decimal_list `{Engine : Detour}
    (ids : list Z) (disabledIds : option (gset Z)) :
  Forall (fun id => 0 <= id < 2 ^ 31) ids ->
  preventPathfindingOnMaps (join_commas (decimal <$> ids)) disabledIds
  = Some (list_to_set ids ∪ default ∅ disabledIds) /\
  forall (w : World) (mapId : Z),
    Some (g_mmapDisabledIds w)
    = preventPathfindingOnMaps (join_commas (decimal <$> ids)) disabledIds ->
    IsPathfindingEnabled w mapId
    = CONFIG_BOOL_MMAP_ENABLED w
      && bool_decide ((mapId ∉ ids) /\ (mapId ∉ default ∅ disabledIds)).
Proof.
  intros Hall.
  assert (Hrun : preventPathfindingOnMaps (join_commas (decimal <$> ids)) disabledIds
                 = Some (list_to_set ids ∪ default ∅ disabledIds)).
  { unfold preventPathfindingOnMaps. cbv zeta.
    rewrite c_str_no_NUL.
    2:{ apply join_commas_Forall; [discriminate |].
        apply Forall_fmap. apply Forall_forall. intros id _. cbn.
        eapply Forall_impl; [apply decimal_Forall |].
        intros c Hc. apply isdigit_code in Hc. lia. }
    rewrite strtok_all_join.
    - apply preventPathfinding_tokens_decimal, Hall.
    - apply Forall_fmap. apply Forall_forall. intros id _. cbn. split.
      + apply decimal_nonempty.
      + eapply Forall_impl; [apply decimal_Forall |].
        intros c Hc. apply isdigit_not_comma, Hc. }
  split; [exact Hrun |].
  intros w mapId Hw. rewrite Hrun in Hw. injection Hw as Hw.
  unfold IsPathfindingEnabled. rewrite Hw.
  destruct (CONFIG_BOOL_MMAP_ENABLED w); cbn; [| reflexivity].
  apply bool_decide_ext.
  rewrite not_elem_of_union, elem_of_list_to_set. reflexivity.
Qed.

Lemma preventPathfinding_tokens_grows (tokens : list (list ascii))
    (disabled result : gset Z) :
  preventPathfinding_tokens tokens disabled = Some result -> disabled ⊆ result.
Proof.
  revert disabled. induction tokens as [| idstr rest IH]; intros disabled.
  - cbn. intros [= <-]. reflexivity.
  - cbn. destruct (atoi idstr) as [v |]; [| discriminate].
    intros Hrest. apply IH in Hrest.
    etransitivity; [| exact Hrest]. apply union_subseteq_r.
Qed.

Lemma strtok_all_commas (s : list ascii) :
  Forall (fun c => c = comma) s -> strtok_all s [] = [].
Proof.
  induction s as [| c rest IH]; intros Hall; [reflexivity |].
  apply Forall_cons in Hall as [-> Hrest].
  cbn [strtok_all]. rewrite Ascii.eqb_refl. apply IH, Hrest.
Qed.

(** X27. What [preventPathfindingOnMaps] does with other arguments. It only
    ever adds maps: a map without pathfinding before the call is without
    it after. An argument made of commas only, the empty one among them,
    adds nothing. An argument without a comma that starts with a character
    that is neither a digit, nor a sign, nor white space is read as 0 by
    [atoi]: it takes pathfinding away from map 0. *)
Theorem preventPathfindingOnMaps_edges (ignoreMapIds : list ascii)
    (disabledIds : option (gset Z)) :
  (forall result,
     preventPathfindingOnMaps ignoreMapIds disabledIds = Some result ->
     default ∅ disabledIds ⊆ result) /\
  (Forall (fun c => c = comma) ignoreMapIds ->
   preventPathfindingOnMaps ignoreMapIds disabledIds
   = Some (default ∅ disabledIds)) /\
  (forall c rest,
     ignoreMapIds = c :: rest ->
     Forall (fun c => Ascii.eqb c comma = false) (c :: rest) ->
     isdigit c = false -> isspace c = false ->
     code c <> 45 -> code c <> 43 -> code c <> 0 ->
     preventPathfindingOnMaps ignoreMapIds disabledIds
     = Some ({[ 0 ]} ∪ default ∅ disabledIds)).
Proof.
  split; [| split].
  - intros result. apply preventPathfinding_tokens_grows.
  - intros Hall. unfold preventPathfindingOnMaps. cbv zeta.
    rewrite (strtok_all_commas _ (c_str_Forall _ _ Hall)). reflexivity.
  - intros c rest0 -> Hnc0 Hd Hs Hminus Hplus Hnul.
    unfold preventPathfindingOnMaps. cbv zeta.
    apply c_str_Forall in Hnc0. cbn [c_str] in Hnc0 |- *.
    apply Z.eqb_neq in Hnul. rewrite Hnul in Hnc0 |- *.
    remember (c_str rest0) as rest eqn:Hrest0. clear Hrest0 rest0.
    pose proof Hnc0 as Hnc.
    rewrite <- (app_nil_r (c :: rest)).
    rewrite (strtok_all_run (c :: rest) [] [] Hnc), app_nil_r.
    cbn [strtok_all].
    destruct (rev (c :: rest)) eqn:Hr.
    { apply (f_equal (@length ascii)) in Hr. rewrite length_rev in Hr.
      discriminate. }
    rewrite <- Hr, rev_involutive.
    cbn [preventPathfinding_tokens]. unfold atoi. cbn [skip_space].
    rewrite Hs.
    replace (code c =? 45) with false by (symmetry; apply Z.eqb_neq; exact Hminus).
    replace (code c =? 43) with false by (symmetry; apply Z.eqb_neq; exact Hplus).
    cbn [atoi_digits]. rewrite Hd. reflexivity.
Qed.

(** ** These theorems at work on the small engine *)




Lemma loadMap_failure_frame_witness :
  loadMap magic0 version0 w0 1 5 30 30 0 s1 = ([EvOutError], Returns false s1) /\
  m_loadedTiles s1 = m_loadedTiles s1 /\
  forall mapId' instanceId' x' y',
    IsMMapTileLoaded s1 mapId' instanceId' x' y'
    = IsMMapTileLoaded s1 mapId' instanceId' x' y'.
Proof.
  assert (Hrun : loadMap magic0 version0 w0 1 5 30 30 0 s1
                 = ([EvOutError], Returns false s1))
    by (vm_compute; reflexivity).
  split; [exact Hrun |].
  destruct (loadMap_failure_frame magic0 version0 w0 s1 s1 1 5 30 30 0 _ Hrun)
    as (Hc & _ & _ & _ & Ht).
  split; [exact Hc | exact Ht].
Defined.

Lemma loadMap_success_effect_witness :
  loadMap magic0 version0 w0 1 5 30 30 0 new0 = (events run1, Returns true s1) /\
  m_loadedTiles s1 = to_uint32 (m_loadedTiles new0 + 1) /\
  residentTiles s1 = residentTiles new0 + 1 /\
  is_Some (GetNavMesh s1 1 5).
Proof.
  assert (Hrun : loadMap magic0 version0 w0 1 5 30 30 0 new0
                 = (events run1, Returns true s1))
    by (vm_compute; reflexivity).
  split; [exact Hrun |].
  destruct (loadMap_success_effect magic0 version0 w0 new0 s1 1 5 30 30 0 _ Hrun)
    as (Hc & Hr & _ & Hm & _).
  auto.
Defined.


Lemma loadMap_truncated_payload_witness :
  m_loadedMMaps sD !! packInstanceId 1 5 = Some mmapD /\
  mmapLoadedTiles mmapD !! packTileID 30 30 = None /\
  tileFile wShort 1 30 30 0 = Some shortTile /\
  mmapMagic (fileHeader shortTile) = magic0 /\
  mmapVersion (fileHeader shortTile) = version0 /\
  dtAlloc_ok wShort (payloadSize (fileHeader shortTile)) = true /\
  (payloadSize (fileHeader shortTile) <= 0
   \/ Z.of_nat (length (payload shortTile)) < payloadSize (fileHeader shortTile)) /\
  loadMap magic0 version0 wShort 1 5 30 30 0 sD
  = ([EvFopen (TileFile 1 30 30 0); EvFreadHeader; EvDtAlloc 5; EvFreadData 5;
      EvOutError; EvFclose],
     Returns false sD).
Proof.
  assert (Hk : m_loadedMMaps sD !! packInstanceId 1 5 = Some mmapD)
    by (vm_compute; reflexivity).
  assert (Ht : mmapLoadedTiles mmapD !! packTileID 30 30 = None)
    by (vm_compute; reflexivity).
  assert (Hfile : tileFile wShort 1 30 30 0 = Some shortTile) by reflexivity.
  assert (Hmagic : mmapMagic (fileHeader shortTile) = magic0) by reflexivity.
  assert (Hversion : mmapVersion (fileHeader shortTile) = version0) by reflexivity.
  assert (Halloc : dtAlloc_ok wShort (payloadSize (fileHeader shortTile)) = true)
    by reflexivity.
  assert (Hshort : payloadSize (fileHeader shortTile) <= 0
                   \/ Z.of_nat (length (payload shortTile))
                      < payloadSize (fileHeader shortTile))
    by (right; cbn; lia).
  repeat (split; [assumption |]).
  exact (loadMap_truncated_payload magic0 version0 wShort sD 1 5 30 30 0 mmapD
           shortTile Hk Ht Hfile Hmagic Hversion Halloc Hshort).
Defined.

Lemma loadMap_addTile_fails_witness :
  m_loadedMMaps sA !! packInstanceId 1 5 = Some mmapA /\
  mmapLoadedTiles mmapA !! packTileID 30 30 = None /\
  tileFile wA 1 30 30 0 = Some tile0 /\
  mmapMagic (fileHeader tile0) = magic0 /\
  mmapVersion (fileHeader tile0) = version0 /\
  dtAlloc_ok wA (payloadSize (fileHeader tile0)) = true /\
  fread_data tile0 (payloadSize (fileHeader tile0)) = Some [Byte.x01; Byte.x02] /\
  @addTile engineA (navMesh mmapA) [Byte.x01; Byte.x02]
           (to_int32 (payloadSize (fileHeader tile0)))
  = (DT_FAILURE, 0, []) /\
  @dtStatusFailed engineA DT_FAILURE = true /\
  exists s',
    loadMap magic0 version0 wA 1 5 30 30 0 sA
    = ([EvFopen (TileFile 1 30 30 0); EvFreadHeader; EvDtAlloc 2; EvFreadData 2;
        EvFclose; EvAddTile 2; EvOutError; EvDtFree],
       Returns false s') /\
    m_loadedTiles s' = m_loadedTiles sA /\
    IsMMapTileLoaded s' 1 5 (to_uint32 30) (to_uint32 30) = false.
Proof.
  assert (Hk : m_loadedMMaps sA !! packInstanceId 1 5 = Some mmapA)
    by (vm_compute; reflexivity).
  assert (Ht : mmapLoadedTiles mmapA !! packTileID 30 30 = None)
    by (vm_compute; reflexivity).
  assert (Hfile : tileFile wA 1 30 30 0 = Some tile0) by reflexivity.
  assert (Hmagic : mmapMagic (fileHeader tile0) = magic0) by reflexivity.
  assert (Hversion : mmapVersion (fileHeader tile0) = version0) by reflexivity.
  assert (Halloc : dtAlloc_ok wA (payloadSize (fileHeader tile0)) = true)
    by reflexivity.
  assert (Hread : fread_data tile0 (payloadSize (fileHeader tile0))
                  = Some [Byte.x01; Byte.x02]) by reflexivity.
  assert (Hadd : @addTile engineA (navMesh mmapA) [Byte.x01; Byte.x02]
                          (to_int32 (payloadSize (fileHeader tile0)))
                 = (DT_FAILURE, 0, [])) by reflexivity.
  assert (Hst : @dtStatusFailed engineA DT_FAILURE = true) by reflexivity.
  repeat (split; [assumption |]).
  destruct (loadMap_addTile_fails magic0 version0 wA sA 1 5 30 30 0 mmapA tile0
              [Byte.x01; Byte.x02] DT_FAILURE 0 [] Hk Ht Hfile Hmagic Hversion
              Halloc Hread Hadd Hst)
    as (s' & Hrun & _ & Hc & Habs).
  exists s'. auto.
Defined.

Lemma unloadMap_success_effect_witness :
  unloadMap 1 5 30 30 s1 = ([], Returns true s1u) /\
  m_loadedTiles s1u = to_uint32 (m_loadedTiles s1 - 1) /\
  residentTiles s1u = residentTiles s1 - 1 /\
  is_Some (GetNavMesh s1u 1 5).
Proof.
  assert (Hrun : unloadMap 1 5 30 30 s1 = ([], Returns true s1u))
    by (vm_compute; reflexivity).
  split; [exact Hrun |].
  destruct (unloadMap_success_effect s1 s1u 1 5 30 30 _ Hrun)
    as (Hc & Hr & _ & Hm & _).
  auto.
Defined.

Lemma unloadMap_mapId_instance_zero_witness :
  unloadMap_mapId 1 s10 = ([EvDeleteMMapData], Returns true s10u) /\
  (true = true <-> is_Some (GetNavMesh s10 1 0)) /\
  GetNavMesh s10u 1 0 = None /\
  (forall x y, IsMMapTileLoaded s10u 1 0 x y = false).
Proof.
  assert (Hrun : unloadMap_mapId 1 s10 = ([EvDeleteMMapData], Returns true s10u))
    by (vm_compute; reflexivity).
  split; [exact Hrun |].
  destruct (unloadMap_mapId_instance_zero s10 s10u 1 _ true Hrun)
    as (Hv & Hm & Ht & _).
  auto.
Defined.


Lemma GetNavMeshQuery_none_witness :
  m_loadedMMaps new0 !! packInstanceId 1 5 = None /\
  GetNavMeshQuery w0 1 5 new0 = ([], Returns None new0).
Proof.
  assert (Hk : m_loadedMMaps new0 !! packInstanceId 1 5 = None) by reflexivity.
  split; [exact Hk |].
  exact (proj1 (proj2 (GetNavMeshQuery_none w0 new0 1 5)) Hk).
Defined.

Lemma GetNavMeshQuery_unloadMapInstance_witness :
  m_loadedMMaps s1 !! packInstanceId 1 5 = Some mmap1 /\
  navMeshQueries mmap1 !! 5 = None /\
  GetNavMeshQuery w0 1 5 s1 = ([], Returns (Some 1024) s1q) /\
  unloadMapInstance 1 5 s1q = ([EvFreeNavMeshQuery], Returns true s1).
Proof.
  assert (Hk : m_loadedMMaps s1 !! packInstanceId 1 5 = Some mmap1)
    by (vm_compute; reflexivity).
  assert (Hq : navMeshQueries mmap1 !! 5 = None) by (vm_compute; reflexivity).
  assert (Hrun : GetNavMeshQuery w0 1 5 s1 = ([], Returns (Some 1024) s1q))
    by (vm_compute; reflexivity).
  repeat (split; [assumption |]).
  exact (GetNavMeshQuery_unloadMapInstance w0 s1 s1q 1 5 [] 1024 mmap1 Hk Hq Hrun).
Defined.

Lemma GetModelNavMeshQuery_per_thread_witness :
  GetModelNavMeshQuery w0 7 1 sG = ([EvLock; EvUnlock], Returns (Some 2048) sGq) /\
  (forall w', GetModelNavMeshQuery w' 7 1 sGq = ([], Returns (Some 2048) sGq)) /\
  m_loadedMMaps sGq = m_loadedMMaps sG.
Proof.
  assert (Hrun : GetModelNavMeshQuery w0 7 1 sG
                 = ([EvLock; EvUnlock], Returns (Some 2048) sGq))
    by (vm_compute; reflexivity).
  split; [exact Hrun |].
  destruct (GetModelNavMeshQuery_per_thread w0 sG sGq 7 1 _ 2048 Hrun)
    as (Hagain & _ & _ & _ & Hm & _).
  auto.
Defined.

Lemma loadGameObject_effect_witness :
  loadGameObject magic0 version0 w0 1 new0
  = (events (loadGameObject magic0 version0 w0 1 new0), Returns true sG) /\
  m_loadedMMaps sG = m_loadedMMaps new0 /\
  is_Some (GetGONavMesh sG 1).
Proof.
  assert (Hrun : loadGameObject magic0 version0 w0 1 new0
                 = (events (loadGameObject magic0 version0 w0 1 new0),
                    Returns true sG))
    by (vm_compute; reflexivity).
  split; [exact Hrun |].
  destruct (loadGameObject_effect magic0 version0 w0 new0 sG 1 _ true Hrun)
    as (Hm & _ & _ & _ & _ & Hmesh & _).
  split; [exact Hm | apply Hmesh; reflexivity].
Defined.


Lemma ChangeTile_absent_tile_witness :
  IsMMapTileLoaded new0 1 5 30 30 = false /\
  ChangeTile magic0 version0 w0 1 5 30 30 0 new0
  = exec magic0 version0 (CallLoadMap w0 1 5 (to_int32 30) (to_int32 30) 0) new0.
Proof.
  assert (Habs : IsMMapTileLoaded new0 1 5 30 30 = false) by reflexivity.
  split; [exact Habs |].
  exact (ChangeTile_absent_tile magic0 version0 w0 new0 1 5 30 30 0 Habs).
Defined.

Lemma ChangeTile_failed_replacement_witness :
  m_loadedMMaps s1 !! packInstanceId 1 5 = Some mmap1 /\
  mmapLoadedTiles mmap1 !! packTileID (to_int32 30) (to_int32 30) = Some 1 /\
  @dtStatusFailed engine0 (fst (removeTile (navMesh mmap1) 1)) = false /\
  tileFile wNoTile 1 (to_int32 30) (to_int32 30) 0 = None /\
  exists s',
    ChangeTile magic0 version0 wNoTile 1 5 30 30 0 s1
    = ([EvFopen (TileFile 1 (to_int32 30) (to_int32 30) 0)], Returns tt s') /\
    IsMMapTileLoaded s1 1 5 30 30 = true /\
    IsMMapTileLoaded s' 1 5 30 30 = false /\
    m_loadedTiles s' = to_uint32 (m_loadedTiles s1 - 1) /\
    is_Some (GetNavMesh s' 1 5).
Proof.
  assert (Hk : m_loadedMMaps s1 !! packInstanceId 1 5 = Some mmap1)
    by (vm_compute; reflexivity).
  assert (Ht : mmapLoadedTiles mmap1 !! packTileID (to_int32 30) (to_int32 30)
               = Some 1) by (vm_compute; reflexivity).
  assert (Hok : @dtStatusFailed engine0 (fst (removeTile (navMesh mmap1) 1)) = false)
    by reflexivity.
  assert (Hfile : tileFile wNoTile 1 (to_int32 30) (to_int32 30) 0 = None)
    by reflexivity.
  repeat (split; [assumption |]).
  exact (ChangeTile_failed_replacement magic0 version0 wNoTile s1 1 5 30 30 0
           mmap1 1 Hk Ht Hok Hfile).
Defined.

Lemma mesh_entries_persist_witness :
  @keeps_entries engine0 (CallUnloadMap 1 5 30 30) = true /\
  exec magic0 version0 (CallUnloadMap 1 5 30 30) s1 = ([], Returns tt s1u) /\
  is_Some (GetNavMesh s1 1 5) /\
  is_Some (GetNavMesh s1u 1 5).
Proof.
  assert (Hc : @keeps_entries engine0 (CallUnloadMap 1 5 30 30) = true)
    by reflexivity.
  assert (Hrun : exec magic0 version0 (CallUnloadMap 1 5 30 30) s1
                 = ([], Returns tt s1u))
    by (vm_compute; reflexivity).
  assert (Hm : is_Some (GetNavMesh s1 1 5)) by (vm_compute; eauto).
  repeat (split; [assumption |]).
  exact (mesh_entries_persist magic0 version0 _ s1 s1u [] 1 5 Hc Hrun Hm).
Defined.

Lemma models_persist_witness :
  exec magic0 version0 (CallGetModelNavMeshQuery w0 7 1) sG
  = ([EvLock; EvUnlock], Returns tt sGq) /\
  m_loadedModels sG !! 1 = Some modelG /\
  exists mmap',
    m_loadedModels sGq !! 1 = Some mmap' /\
    GetGONavMesh sGq 1 = Some (goNavMesh modelG).
Proof.
  assert (Hrun : exec magic0 version0 (CallGetModelNavMeshQuery w0 7 1) sG
                 = ([EvLock; EvUnlock], Returns tt sGq))
    by (vm_compute; reflexivity).
  assert (Hk : m_loadedModels sG !! 1 = Some modelG) by (vm_compute; reflexivity).
  repeat (split; [assumption |]).
  destruct (models_persist magic0 version0 _ sG sGq _ 1 modelG Hrun Hk)
    as (mmap' & Hk' & Hmesh & _).
  exists mmap'. auto.
Defined.

Lemma one_query_per_entry_witness :
  reachable magic0 version0 s1q /\
  in_uint32 1 /\ in_uint32 5 /\
  m_loadedMMaps s1q !! packInstanceId 1 5 = Some mmap1q /\
  navMeshQueries mmap1q !! 5 = Some 1024 /\
  5 = 5.
Proof.
  assert (Hreach : reachable magic0 version0 s1q).
  { apply (reachable_call magic0 version0 (CallGetNavMeshQuery w0 1 5) s1 s1q []).
    - apply (reachable_call magic0 version0 (CallLoadMap w0 1 5 30 30 0)
               new0 s1 (events run1)); [apply reachable_new |].
      vm_compute; reflexivity.
    - vm_compute; reflexivity. }
  assert (H1 : in_uint32 1) by (unfold in_uint32; lia).
  assert (H5 : in_uint32 5) by (unfold in_uint32; lia).
  assert (Hk : m_loadedMMaps s1q !! packInstanceId 1 5 = Some mmap1q)
    by (vm_compute; reflexivity).
  assert (Hq : navMeshQueries mmap1q !! 5 = Some 1024) by (vm_compute; reflexivity).
  repeat (split; [assumption |]).
  exact (one_query_per_entry magic0 version0 s1q 1 5 5 mmap1q 1024
           Hreach H1 H5 H5 Hk Hq).
Defined.

Lemma tile_keys_are_uint32_witness :
  reachable magic0 version0 s1 /\
  m_loadedMMaps s1 !! packInstanceId 1 5 = Some mmap1 /\
  mmapLoadedTiles mmap1 !! packTileID 30 30 = Some 1 /\
  0 <= packTileID 30 30 < 2 ^ 32 /\
  in_uint16 (tileX (packTileID 30 30)) /\ in_uint16 (tileY (packTileID 30 30)) /\
  packTileID (tileX (packTileID 30 30)) (tileY (packTileID 30 30)) = packTileID 30 30.
Proof.
  assert (Hreach : reachable magic0 version0 s1).
  { apply (reachable_call magic0 version0 (CallLoadMap w0 1 5 30 30 0)
             new0 s1 (events run1)); [apply reachable_new |].
    vm_compute; reflexivity. }
  assert (Hk : m_loadedMMaps s1 !! packInstanceId 1 5 = Some mmap1)
    by (vm_compute; reflexivity).
  assert (Ht : mmapLoadedTiles mmap1 !! packTileID 30 30 = Some 1)
    by (vm_compute; reflexivity).
  repeat (split; [assumption |]).
  exact (tile_keys_are_uint32 magic0 version0 s1 _ _ 1 mmap1 Hreach Hk Ht).
Defined.

Lemma preventPathfindingOnMaps_decimal_list_witness :
  Forall (fun id => 0 <= id < 2 ^ 31) [1; 530; 571] /\
  preventPathfindingOnMaps (join_commas (decimal <$> [1; 530; 571])) None
  = Some (list_to_set [1; 530; 571] ∪ default ∅ None).
Proof.
  assert (Hall : Forall (fun id => 0 <= id < 2 ^ 31) [1; 530; 571])
    by (repeat constructor; lia).
  split; [exact Hall |].
  exact (proj1 (@preventPathfindingOnMaps_decimal_list engine0 [1; 530; 571] None Hall)).
Defined.

Lemma preventPathfindingOnMaps_edges_witness :
  Forall (fun c => c = comma) [comma; comma] /\
  preventPathfindingOnMaps [comma; comma] (Some {[ 13 ]}) = Some {[ 13 ]} /\
  preventPathfindingOnMaps ["a"; "b"]%char None = Some ({[ 0 ]} ∪ ∅).
Proof.
  assert (Hall : Forall (fun c => c = comma) [comma; comma])
    by (repeat constructor).
  split; [exact Hall | split].
  - exact (proj1 (proj2 (preventPathfindingOnMaps_edges [comma; comma]
                           (Some {[ 13 ]}))) Hall).
  - apply (proj2 (proj2 (preventPathfindingOnMaps_edges ["a"; "b"]%char None))
             "a"%char ["b"%char]); try reflexivity.
    + repeat constructor.
    + discriminate.
    + discriminate.
    + discriminate.
Defined.
